(** * Filament pick-and-place bundling: the choreography of [app.js]

    A shallow embedding of the frame loop of [src/singleHand/app.js] and
    [src/twoHand/app.js]: the cycle clock ([animate]), the phase timeline
    ([PHASES]), the easing functions, the target selection
    ([getTargetStation]) and the per-phase state update
    ([updateMachineAnimation]).

    Numbers.  JavaScript numbers are binary64 doubles.  They are modelled
    as exact rationals in canonical form ([Qc]), so that two equal numbers
    are equal terms.  Every constant of the timelines is a multiple of 1/2
    and is a double; the other decimal constants (0.1, 0.35, 0.7, ...) are
    not, and the rounding of the operations on them is not modelled.  The
    model and the program agree on a run whose frame times are doubles
    that add up without rounding, such as multiples of 1/8; they part where
    a sum is rounded: eighty steps of 0.1 are 8 here and a little less than
    8 in the program.  Statements about runs and sessions are therefore
    made to hold of both: they repeat the expressions of the program frame
    by frame, or are about the discrete state, or leave a margin that
    rounding does not consume.  The runs over whole cycles are in frames
    of 1/8 s, and for the run of the specification in steps of 0.1 s the
    cycle count is also computed on doubles ([Doubles]).  [NaN] and the
    infinities have no counterpart.

    Scene graph.  The THREE.js calls that move a bundle between coordinate
    spaces ([scene.add], [scene.remove], [scene.attach], [pivot.attach],
    [position.set]) are modelled by their effect on the bundle (its parent
    and its local position) and are also reported, in call order, as the
    list of [Call]s a frame performs.  A bundle that the program removes
    from the scene and no longer refers to leaves the model.  Materials,
    glow opacities, the camera and the texts drawn on the page are
    presentation and are left out, except the station display of the
    single-arm program, the one place where the chosen target itself is
    written; the labels of the phases are kept without their pictograms.

    Sessions.  The listeners of [setUIListeners] are state updates of
    their own; a session is a list of events, each a frame or the run of
    one listener, played from the state after [init].

    The sources hold a third program, with press stations and a cycle of
    14 s.  Of it only the part that its [executePhase] does not write is
    modelled: the timeline, the clock, the controls and the two wrapper
    disks ([Press]); the poses of [executePhase], which uses [Math.sin],
    are not. *)

From Stdlib Require Import QArith Qcanon Qround ZArith String List Bool Lia Lqa.
From Stdlib Require Import Permutation.
From Stdlib Require Floats.
Import ListNotations.

#[local] Open Scope Qc_scope.

(** ** JavaScript numbers *)

Module JS.

(** A numeric literal of the source. *)
Definition num (q : Q) : Qc := Q2Qc q.

Definition ltb (x y : Qc) : bool :=
  match x ?= y with Lt => true | _ => false end.

Definition leb (x y : Qc) : bool :=
  match x ?= y with Gt => false | _ => true end.

Definition gtb (x y : Qc) : bool := ltb y x.
Definition geb (x y : Qc) : bool := leb y x.

(** [Math.floor], as an integer. *)
Definition floor (x : Qc) : Z := Qfloor x.

(** Truncation toward zero, the rounding of the quotient in [%]. *)
Definition trunc (x : Qc) : Z := Z.quot (Qnum x) (Zpos (Qden x)).

Definition of_Z (z : Z) : Qc := Q2Qc (inject_Z z).

(** [x % d]: the remainder has the sign of the dividend. *)
Definition rem (x d : Qc) : Qc := x - of_Z (trunc (x / d)) * d.

(** [Math.PI] is the double [0x400921FB54442D18]. *)
Definition PI : Qc := Q2Qc (884279719003555 # 281474976710656).

(** [s.toUpperCase()] on ASCII letters. *)
Definition upper (c : Ascii.ascii) : Ascii.ascii :=
  let n := Ascii.nat_of_ascii c in
  if (97 <=? n)%nat && (n <=? 122)%nat then Ascii.ascii_of_nat (n - 32) else c.

Fixpoint toUpperCase (s : string) : string :=
  match s with
  | EmptyString => EmptyString
  | String c rest => String (upper c) (toUpperCase rest)
  end.

(** [Math.pow(x, n)] for a literal natural exponent. *)
Definition pow (x : Qc) (n : nat) : Qc := x ^ n.

End JS.

Infix "<?" := JS.ltb (at level 70) : Qc_scope.
Infix "<=?" := JS.leb (at level 70) : Qc_scope.
Infix ">?" := JS.gtb (at level 70) : Qc_scope.
Infix ">=?" := JS.geb (at level 70) : Qc_scope.

(** ** Easing functions (the same in both programs) *)

Definition easeInOutCubic (t : Qc) : Qc :=
  if t <? JS.num 0.5 then JS.num 4 * t * t * t
  else 1 - JS.pow (- JS.num 2 * t + JS.num 2) 3 / JS.num 2.

Definition easeInOutQuad (t : Qc) : Qc :=
  if t <? JS.num 0.5 then JS.num 2 * t * t
  else 1 - JS.pow (- JS.num 2 * t + JS.num 2) 2 / JS.num 2.

(** ** The phase timeline *)

Record Phase := mkPhase {
  name : string;
  start : Qc;
  end_ : Qc;
  label : string
}.

(** The loop of [animate] that finds the current phase: the first phase
    of the list with [loopTime >= phase.start && loopTime < phase.end]. *)
Fixpoint find_phase (phases : list Phase) (loopTime : Qc) : option Phase :=
  match phases with
  | [] => None
  | phase :: rest =>
      if (loopTime >=? start phase) && (loopTime <? end_ phase)
      then Some phase
      else find_phase rest loopTime
  end.

(** [progress] as computed in [animate]. *)
Definition phase_progress (phase : Phase) (loopTime : Qc) : Qc :=
  (loopTime - start phase) / (end_ phase - start phase).

(** [tiles a b phases]: the phases follow one another from [a] to [b]
    without gap or overlap, each of positive length. *)
Fixpoint tiles (a b : Qc) (phases : list Phase) : Prop :=
  match phases with
  | [] => a = b
  | p :: rest => start p = a /\ a < end_ p /\ tiles (end_ p) b rest
  end.

(** ** Bundles and the scene graph *)

(** The objects a bundle can be a child of. *)
Inductive Node := Scene | CenterPivot | LeftArmPivot | RightArmPivot.

Definition Node_eqb (a b : Node) : bool :=
  match a, b with
  | Scene, Scene | CenterPivot, CenterPivot
  | LeftArmPivot, LeftArmPivot | RightArmPivot, RightArmPivot => true
  | _, _ => false
  end.

(** [createRawBundle] returns a mesh, [createWrappedBundle] a group. *)
Inductive Kind := Raw | Wrapped.

Record Vec3 := vec3 { vx : Qc; vy : Qc; vz : Qc }.

(** A bundle object.  [bid] stands for the identity of the JavaScript
    object; [parent] is [None] for [null]. *)
Record Bundle := mkBundle {
  bid : nat;
  kind : Kind;
  parent : option Node;
  position : Vec3;
  rotation_y : Qc
}.

(** The two output trays. *)
Inductive TraySide := LeftTray | RightTray.

(** The calls on the scene graph and on the tray arrays that a frame
    performs, in order. *)
Inductive Call :=
| CreateRawBundle (id : nat)
| CreateWrappedBundle (id : nat)
| Add (n : Node) (id : nat)
| Remove (n : Node) (id : nat)
| Attach (n : Node) (id : nat)
| PositionSet (id : nat) (p : Vec3)
| Push (tray : TraySide) (id : nat)
| Shift (tray : TraySide) (id : nat).

(** Counting the calls of a kind, as a test instruments them. *)
Definition is_attach (n : Node) (c : Call) : bool :=
  match c with Attach m _ => Node_eqb m n | _ => false end.

Definition is_shift (c : Call) : bool :=
  match c with Shift _ _ => true | _ => false end.

Definition is_create_raw (c : Call) : bool :=
  match c with CreateRawBundle _ => true | _ => false end.

(** A call other than the creation of a raw bundle. *)
Definition not_raw (c : Call) : Prop := forall id, c <> CreateRawBundle id.

(** The calls of the tray clean-up of the [reset] phase. *)
Definition is_cleanup (c : Call) : bool :=
  match c with Shift _ _ | Remove _ _ => true | _ => false end.

Definition count_calls (f : Call -> bool) (calls : list Call) : nat :=
  length (filter f calls).




Definition new_bundle (id : nat) (k : Kind) : Bundle :=
  mkBundle id k None (vec3 0 0 0) 0.

Definition position_set (b : Bundle) (x y z : Qc) : Bundle :=
  mkBundle (bid b) (kind b) (parent b) (vec3 x y z) (rotation_y b).

Definition set_rotation_y (b : Bundle) (r : Qc) : Bundle :=
  mkBundle (bid b) (kind b) (parent b) (position b) r.

(** [n.add(b)]: [b] leaves its parent and becomes a child of [n]. *)
Definition node_add (n : Node) (b : Bundle) : Bundle :=
  mkBundle (bid b) (kind b) (Some n) (position b) (rotation_y b).

(** [n.attach(b)]: as [add], keeping the world pose.  THREE recomputes the
    local position and the local rotation for that.  Every caller below
    overwrites the position with [position.set] right after.  The rotation
    is not recomputed here: after an [attach] the field [rotation_y] keeps
    the angle the program last assigned, which is not the local angle of
    the object in THREE, and what is stated of a bundle after an [attach]
    is its number, its kind, its parent and its position. *)
Definition node_attach (n : Node) (b : Bundle) : Bundle := node_add n b.

(** [b.parent !== n] *)
Definition parent_is_not (b : Bundle) (n : Node) : bool :=
  match parent b with
  | Some m => negb (Node_eqb m n)
  | None => true
  end.

(** [arr.length > 8] followed by [arr.shift()]: the tray clean-up of the
    [reset] phase, returning the shortened array and the removed bundle. *)
Definition shift_if_too_many (tray : TraySide) (arr : list Bundle)
  : list Bundle * list Call :=
  if (8 <? length arr)%nat then
    match arr with
    | removed :: rest =>
        (rest, [Shift tray (bid removed); Remove Scene (bid removed)])
    | [] => (arr, [])
    end
  else (arr, []).

(** The slot of the tray grid for the next bundle:
    [row = Math.floor(slotIndex / 4)], [col = slotIndex % 4]. *)
Definition slot_row (slotIndex : Z) : Z :=
  JS.floor (JS.of_Z slotIndex / JS.num 4).
Definition slot_col (slotIndex : Z) : Qc :=
  JS.rem (JS.of_Z slotIndex) (JS.num 4).

(** ** Frame schedules *)

(** A first frame with [delta = 0], then [n] frames [step] apart. *)
Definition frames (step : Qc) (n : nat) : list Qc := JS.num 0 :: repeat step n.

(** [progress = 0, 1/n, ..., (n-1)/n]: from 0 to just under 1. *)
Definition progress_steps (n : nat) : list Qc :=
  map (fun k => JS.of_Z (Z.of_nat k) / JS.of_Z (Z.of_nat n)) (seq 0 n).

(** ** The single-arm program, [src/singleHand/app.js] *)

Module SingleHand.

Record Station := mkStation { sx : Qc; sy : Qc; sz : Qc }.
Record Tray := mkTray { tx : Qc; ty : Qc; tz : Qc; rows : Z; cols : Z }.

(** The fields of [MACHINE_CONFIG] that the animation reads. *)
Definition topStation_x : Qc := JS.num 0.
Definition topStation_z : Qc := JS.num (-7).
Definition topStation_platformHeight : Qc := JS.num 0.3.
Definition leftMachine : Station :=
  mkStation (JS.num (-6)) (JS.num 0) (JS.num 0).
Definition rightMachine : Station :=
  mkStation (JS.num 6) (JS.num 0) (JS.num 0).
Definition leftTray : Tray := mkTray (JS.num (-6)) (JS.num 0.2) (JS.num 4) 2 4.
Definition rightTray : Tray := mkTray (JS.num 6) (JS.num 0.2) (JS.num 4) 2 4.

Definition CYCLE_DURATION : Qc := JS.num 8.0.

Definition PHASES : list Phase :=
  [ mkPhase "spawn" (JS.num 0.0) (JS.num 0.5) "Bundle loaded at TOP station";
    mkPhase "pick" (JS.num 0.5) (JS.num 1.5) "Picking bundle from TOP";
    mkPhase "transport_to_wrapper" (JS.num 1.5) (JS.num 3.0)
            "Transporting to wrapping station";
    mkPhase "insert_wrapper" (JS.num 3.0) (JS.num 3.5)
            "Inserting into wrapping machine";
    mkPhase "wrapping" (JS.num 3.5) (JS.num 5.5) "WRAPPING in progress...";
    mkPhase "exit_wrapper" (JS.num 5.5) (JS.num 6.0)
            "Bundle wrapped successfully";
    mkPhase "transport_to_tray" (JS.num 6.0) (JS.num 7.0)
            "Transporting to output tray";
    mkPhase "place_in_tray" (JS.num 7.0) (JS.num 7.5) "Placed in output tray";
    mkPhase "reset" (JS.num 7.5) (JS.num 8.0) "Ready for next bundle" ].

(** The global state and the parts of [machine] that the animation
    writes.  [nextId] numbers the bundle objects as they are created. *)
Record World := mkWorld {
  speed : Qc;
  isPaused : bool;
  cycleTime : Qc;
  cycleCount : Z;
  selectedStation : string;
  currentStationDisplay : string;
  centerPivot_rotation_y : Qc;
  gripperJaws0_x : Qc;
  gripperJaws1_x : Qc;
  leftMachineDisk_rotation_y : Qc;
  rightMachineDisk_rotation_y : Qc;
  leftBundles : list Bundle;
  rightBundles : list Bundle;
  currentBundle : option Bundle;
  currentBundleIsWrapped : bool;
  nextId : nat
}.

(** The state after [init]: the jaws as [buildCenterRobot] places them,
    and four raw bundles laid on the top platform by [spawnRawBundles]
    (objects 0 to 3, never touched again). *)
Definition init : World :=
  mkWorld 1 false 0 0 "left" "" 0 (JS.num (-0.25)) (JS.num 0.25) 0 0 [] [] None
    false 4.

Definition set_clock (ct : Qc) (cc : Z) (w : World) : World :=
  mkWorld (speed w) (isPaused w) ct cc (selectedStation w)
    (currentStationDisplay w)
    (centerPivot_rotation_y w) (gripperJaws0_x w) (gripperJaws1_x w)
    (leftMachineDisk_rotation_y w) (rightMachineDisk_rotation_y w)
    (leftBundles w) (rightBundles w) (currentBundle w)
    (currentBundleIsWrapped w) (nextId w).

(** The three assignments every phase makes: pivot angle and both jaws. *)
Definition set_pose (rot j0 j1 : Qc) (w : World) : World :=
  mkWorld (speed w) (isPaused w) (cycleTime w) (cycleCount w) (selectedStation w)
    (currentStationDisplay w)
    rot j0 j1
    (leftMachineDisk_rotation_y w) (rightMachineDisk_rotation_y w)
    (leftBundles w) (rightBundles w) (currentBundle w)
    (currentBundleIsWrapped w) (nextId w).

(** [currentStationDisplay.textContent = ...] *)
Definition set_display (text : string) (w : World) : World :=
  mkWorld (speed w) (isPaused w) (cycleTime w) (cycleCount w) (selectedStation w)
    text
    (centerPivot_rotation_y w) (gripperJaws0_x w) (gripperJaws1_x w)
    (leftMachineDisk_rotation_y w) (rightMachineDisk_rotation_y w)
    (leftBundles w) (rightBundles w) (currentBundle w)
    (currentBundleIsWrapped w) (nextId w).

Definition set_disks (l r : Qc) (w : World) : World :=
  mkWorld (speed w) (isPaused w) (cycleTime w) (cycleCount w) (selectedStation w)
    (currentStationDisplay w)
    (centerPivot_rotation_y w) (gripperJaws0_x w) (gripperJaws1_x w)
    l r
    (leftBundles w) (rightBundles w) (currentBundle w)
    (currentBundleIsWrapped w) (nextId w).

Definition set_trays (l r : list Bundle) (w : World) : World :=
  mkWorld (speed w) (isPaused w) (cycleTime w) (cycleCount w) (selectedStation w)
    (currentStationDisplay w)
    (centerPivot_rotation_y w) (gripperJaws0_x w) (gripperJaws1_x w)
    (leftMachineDisk_rotation_y w) (rightMachineDisk_rotation_y w)
    l r (currentBundle w)
    (currentBundleIsWrapped w) (nextId w).

Definition set_current (b : option Bundle) (wrapped : bool) (n : nat)
    (w : World) : World :=
  mkWorld (speed w) (isPaused w) (cycleTime w) (cycleCount w) (selectedStation w)
    (currentStationDisplay w)
    (centerPivot_rotation_y w) (gripperJaws0_x w) (gripperJaws1_x w)
    (leftMachineDisk_rotation_y w) (rightMachineDisk_rotation_y w)
    (leftBundles w) (rightBundles w) b wrapped n.

Definition getTargetStation (selectedStation : string) (cycleNum : Z)
  : string :=
  if (selectedStation =? "left")%string then "left"
  else if (selectedStation =? "right")%string then "right"
  else if (Z.rem cycleNum 2 =? 0)%Z then "left" else "right".

(** [machine.currentBundle] is replaced by an updated copy of itself. *)
Definition set_bundle (b : Bundle) (w : World) : World :=
  set_current (Some b) (currentBundleIsWrapped w) (nextId w) w.

(** *** The cases of [updateMachineAnimation] *)

Definition case_spawn (progress : Qc) (w : World) : World * list Call :=
  let '(w1, calls) :=
    match currentBundle w with
    | None =>
        if progress <? JS.num 0.1 then
          let id := nextId w in
          let y := topStation_platformHeight + JS.num 0.4 in
          let b :=
            position_set (new_bundle id Raw) topStation_x y topStation_z in
          (set_current (Some (node_add Scene b)) false (S id) w,
           [CreateRawBundle id;
            PositionSet id (vec3 topStation_x y topStation_z);
            Add Scene id])
        else (w, [])
    | Some _ => (w, [])
    end in
  (set_pose (JS.num 0) (JS.num (-0.35)) (JS.num 0.35) w1, calls).

Definition case_pick (t : Qc) (w : World) : World * list Call :=
  let pickAngle := t * JS.num 0 in
  let jawDist := JS.num 0.35 - t * JS.num 0.1 in
  let w1 := set_pose pickAngle (- jawDist) jawDist w in
  match currentBundle w1 with
  | Some b =>
      if t >? JS.num 0.5 then
        let p := vec3 (JS.num 0) (JS.num 0.2) (JS.num (-4.75)) in
        (set_bundle
           (position_set (node_attach CenterPivot b) (vx p) (vy p) (vz p)) w1,
         [Attach CenterPivot (bid b); PositionSet (bid b) p])
      else (w1, [])
  | None => (w1, [])
  end.

Definition case_transport_to_wrapper (t : Qc) (isLeft : bool) (w : World)
  : World * list Call :=
  let targetAngle := if isLeft then JS.PI / JS.num 2 else - JS.PI / JS.num 2 in
  (set_pose (t * targetAngle) (JS.num (-0.25)) (JS.num 0.25) w, []).

Definition case_insert_wrapper (t : Qc) (isLeft : bool) (w : World)
  : World * list Call :=
  let machineCfg := if isLeft then leftMachine else rightMachine in
  let insertAngle := if isLeft then JS.PI / JS.num 2 else - JS.PI / JS.num 2 in
  let releaseJaw := JS.num 0.25 + t * JS.num 0.1 in
  let w1 := set_pose insertAngle (- releaseJaw) releaseJaw w in
  match currentBundle w1 with
  | Some b =>
      if (t >? JS.num 0.5) && parent_is_not b Scene then
        let p := vec3 (sx machineCfg) (JS.num 1.5) (sz machineCfg) in
        (set_bundle
           (position_set (node_attach Scene b) (vx p) (vy p) (vz p)) w1,
         [Attach Scene (bid b); PositionSet (bid b) p])
      else (w1, [])
  | None => (w1, [])
  end.

Definition case_wrapping (t : Qc) (isLeft : bool) (w : World)
  : World * list Call :=
  let machineCfg := if isLeft then leftMachine else rightMachine in
  let p := vec3 (sx machineCfg) (JS.num 1.5) (sz machineCfg) in
  (* disk.rotation.y += 0.1 *)
  let w1 :=
    if isLeft
    then set_disks (leftMachineDisk_rotation_y w + JS.num 0.1)
                   (rightMachineDisk_rotation_y w) w
    else set_disks (leftMachineDisk_rotation_y w)
                   (rightMachineDisk_rotation_y w + JS.num 0.1) w in
  match currentBundle w1 with
  | Some b =>
      let b1 := position_set b (vx p) (vy p) (vz p) in
      let w2 := set_bundle b1 w1 in
      if (t >? JS.num 0.9) && negb (currentBundleIsWrapped w2) then
        let id := nextId w2 in
        let nb := position_set (new_bundle id Wrapped) (vx p) (vy p) (vz p) in
        (set_current (Some (node_add Scene nb)) true (S id) w2,
         [PositionSet (bid b) p; Remove Scene (bid b); CreateWrappedBundle id;
          PositionSet id p; Add Scene id])
      else (w2, [PositionSet (bid b) p])
  | None => (w1, [])
  end.

Definition case_exit_wrapper (t : Qc) (isLeft : bool) (w : World)
  : World * list Call :=
  let exitAngle := if isLeft then JS.PI / JS.num 2 else - JS.PI / JS.num 2 in
  let grabJaw := JS.num 0.35 - t * JS.num 0.1 in
  let w1 := set_pose exitAngle (- grabJaw) grabJaw w in
  match currentBundle w1 with
  | Some b =>
      if t >? JS.num 0.5 then
        let p := vec3 (JS.num 0) (JS.num 0.2) (JS.num (-4.75)) in
        (set_bundle
           (position_set (node_attach CenterPivot b) (vx p) (vy p) (vz p)) w1,
         [Attach CenterPivot (bid b); PositionSet (bid b) p])
      else (w1, [])
  | None => (w1, [])
  end.

Definition case_transport_to_tray (t : Qc) (isLeft : bool) (w : World)
  : World * list Call :=
  let trayAngle := if isLeft then JS.PI / JS.num 2 + JS.PI / JS.num 4
                   else - JS.PI / JS.num 2 - JS.PI / JS.num 4 in
  let startAngle := if isLeft then JS.PI / JS.num 2 else - JS.PI / JS.num 2 in
  (set_pose (startAngle + t * (trayAngle - startAngle))
            (JS.num (-0.25)) (JS.num 0.25) w, []).

Definition case_place_in_tray (t : Qc) (isLeft : bool) (w : World)
  : World * list Call :=
  let trayCfg := if isLeft then leftTray else rightTray in
  let placeAngle := if isLeft then JS.PI / JS.num 2 + JS.PI / JS.num 4
                    else - JS.PI / JS.num 2 - JS.PI / JS.num 4 in
  let dropJaw := JS.num 0.25 + t * JS.num 0.15 in
  let w1 := set_pose placeAngle (- dropJaw) dropJaw w in
  match currentBundle w1 with
  | Some b =>
      if t >? JS.num 0.5 then
        let trayBundles := if isLeft then leftBundles w1 else rightBundles w1 in
        let slotIndex := Z.of_nat (length trayBundles) in
        let row := slot_row slotIndex in
        let col := slot_col slotIndex in
        let p := vec3 (tx trayCfg + (col * JS.num 0.7 - JS.num 1.05))
                      (ty trayCfg + JS.num 0.6)
                      (tz trayCfg + (JS.of_Z row * JS.num 0.7 - JS.num 0.35)) in
        let b1 := position_set (node_attach Scene b) (vx p) (vy p) (vz p) in
        let w2 := if isLeft
                  then set_trays (leftBundles w1 ++ [b1]) (rightBundles w1) w1
                  else set_trays (leftBundles w1) (rightBundles w1 ++ [b1]) w1
        in
        (set_current None false (nextId w2) w2,
         [Attach Scene (bid b); PositionSet (bid b) p;
          Push (if isLeft then LeftTray else RightTray) (bid b)])
      else (w1, [])
  | None => (w1, [])
  end.

Definition case_reset (t : Qc) (isLeft : bool) (w : World)
  : World * list Call :=
  let finalAngle := if isLeft then JS.PI / JS.num 2 + JS.PI / JS.num 4
                    else - JS.PI / JS.num 2 - JS.PI / JS.num 4 in
  let w1 := set_pose (finalAngle - t * finalAngle)
                     (JS.num (-0.35)) (JS.num 0.35) w in
  let '(l, callsl) := shift_if_too_many LeftTray (leftBundles w1) in
  let '(r, callsr) := shift_if_too_many RightTray (rightBundles w1) in
  (set_trays l r w1, callsl ++ callsr).

(** The [switch (phaseName)]: [t] is the eased progress. *)
Definition switch_phase (phaseName : string) (progress t : Qc) (isLeft : bool)
    (w : World) : World * list Call :=
  if (phaseName =? "spawn")%string then case_spawn progress w
  else if (phaseName =? "pick")%string then case_pick t w
  else if (phaseName =? "transport_to_wrapper")%string
       then case_transport_to_wrapper t isLeft w
  else if (phaseName =? "insert_wrapper")%string
       then case_insert_wrapper t isLeft w
  else if (phaseName =? "wrapping")%string then case_wrapping t isLeft w
  else if (phaseName =? "exit_wrapper")%string then case_exit_wrapper t isLeft w
  else if (phaseName =? "transport_to_tray")%string
       then case_transport_to_tray t isLeft w
  else if (phaseName =? "place_in_tray")%string
       then case_place_in_tray t isLeft w
  else if (phaseName =? "reset")%string then case_reset t isLeft w
  else (w, []).

Definition updateMachineAnimation (phaseName : string) (progress loopTime : Qc)
    (w : World) : World * list Call :=
  let t := easeInOutCubic progress in
  let currentCycle := JS.floor (cycleTime w / CYCLE_DURATION) in
  let targetStation := getTargetStation (selectedStation w) currentCycle in
  let isLeft := (targetStation =? "left")%string in
  (* currentStationDisplay.textContent = targetStation.toUpperCase() *)
  let w := set_display (JS.toUpperCase targetStation) w in
  switch_phase phaseName progress t isLeft w.

(** One frame: [animate] with [delta] the value of [clock.getDelta()]. *)
Definition animate (delta : Qc) (w : World) : World * list Call :=
  if negb (isPaused w) then
    let cycleTime' := cycleTime w + delta * speed w in
    let loopTime := JS.rem cycleTime' CYCLE_DURATION in
    let newCycleCount := JS.floor (cycleTime' / CYCLE_DURATION) in
    let w1 :=
      if negb (newCycleCount =? cycleCount w)%Z
      then set_clock cycleTime' newCycleCount w
      else set_clock cycleTime' (cycleCount w) w in
    match find_phase PHASES loopTime with
    | Some currentPhase =>
        let progress := phase_progress currentPhase loopTime in
        updateMachineAnimation (name currentPhase) progress loopTime w1
    | None => (w1, [])
    end
  else (w, []).

(** A run of frames, given the [delta] of each; the calls are collected in
    order. *)
Fixpoint run (deltas : list Qc) (w : World) : World * list Call :=
  match deltas with
  | [] => (w, [])
  | delta :: rest =>
      let '(w1, c1) := animate delta w in
      let '(w2, c2) := run rest w1 in
      (w2, c1 ++ c2)
  end.

(** The states a run goes through, one per frame. *)
Fixpoint states (deltas : list Qc) (w : World) : list World :=
  match deltas with
  | [] => []
  | delta :: rest => let w1 := fst (animate delta w) in w1 :: states rest w1
  end.

(** Stepping [progress] through one phase, the clock standing still. *)
Fixpoint traverse (phaseName : string) (steps : list Qc) (w : World)
  : World * list Call :=
  match steps with
  | [] => (w, [])
  | progress :: rest =>
      let '(w1, c1) := updateMachineAnimation phaseName progress
                         (JS.rem (cycleTime w) CYCLE_DURATION) w in
      let '(w2, c2) := traverse phaseName rest w1 in
      (w2, c1 ++ c2)
  end.

(** The phase that [animate] finds at a value of [cycleTime]. *)
Definition phase_at (ct : Qc) : option Phase :=
  find_phase PHASES (JS.rem ct CYCLE_DURATION).

Definition phase_is (phaseName : string) (ct : Qc) : bool :=
  match phase_at ct with
  | Some p => (name p =? phaseName)%string
  | None => false
  end.

(** The target of the frame at a value of [cycleTime]. *)
Definition isLeft_at (selected : string) (ct : Qc) : bool :=
  (getTargetStation selected (JS.floor (ct / CYCLE_DURATION)) =? "left")%string.

(** The clock part of [animate]: [cycleTime] advances and [cycleCount]
    follows it. *)
Definition tick (delta : Qc) (w : World) : World :=
  let ct := cycleTime w + delta * speed w in
  set_clock ct (JS.floor (ct / CYCLE_DURATION)) w.

(** Observations of a world. *)
Definition settings (w : World) : Qc * bool * Qc * Z * string :=
  (speed w, isPaused w, cycleTime w, cycleCount w, selectedStation w).

Definition pose (w : World) : Qc * Qc * Qc :=
  (centerPivot_rotation_y w, gripperJaws0_x w, gripperJaws1_x w).

Definition disks (w : World) : Qc * Qc :=
  (leftMachineDisk_rotation_y w, rightMachineDisk_rotation_y w).

Definition clock (w : World) : Qc * Z := (cycleTime w, cycleCount w).

(** The frame at [ct] falls in the part of the [spawn] phase in which a
    bundle is created. *)
Definition in_spawn_window (ct : Qc) : bool :=
  match phase_at ct with
  | Some p => (name p =? "spawn")%string &&
              (phase_progress p (JS.rem ct CYCLE_DURATION) <? JS.num 0.1)
  | None => false
  end.

(** No frame of a run from [ct] at [speed] falls in that part. *)
Fixpoint misses_spawn_window (speed ct : Qc) (deltas : list Qc) : bool :=
  match deltas with
  | [] => true
  | delta :: rest =>
      negb (in_spawn_window (ct + delta * speed)) &&
      misses_spawn_window speed (ct + delta * speed) rest
  end.

(** What the second of two successive frames may be asked to leave as the
    first left it: everything but the disks and the trays. *)
Definition repeatable (s1 s2 : World) : Prop :=
  settings s2 = settings s1 /\
  currentStationDisplay s2 = currentStationDisplay s1 /\
  pose s2 = pose s1 /\
  currentBundle s2 = currentBundle s1 /\
  currentBundleIsWrapped s2 = currentBundleIsWrapped s1 /\
  nextId s2 = nextId s1.

(** *** The listeners of [setUIListeners] *)


Definition on_playPause (w : World) : World :=
  mkWorld (speed w) (negb (isPaused w)) (cycleTime w) (cycleCount w)
    (selectedStation w) (currentStationDisplay w)
    (centerPivot_rotation_y w) (gripperJaws0_x w) (gripperJaws1_x w)
    (leftMachineDisk_rotation_y w) (rightMachineDisk_rotation_y w)
    (leftBundles w) (rightBundles w) (currentBundle w)
    (currentBundleIsWrapped w) (nextId w).

Definition on_speed (v : Qc) (w : World) : World :=
  mkWorld v (isPaused w) (cycleTime w) (cycleCount w) (selectedStation w)
    (currentStationDisplay w)
    (centerPivot_rotation_y w) (gripperJaws0_x w) (gripperJaws1_x w)
    (leftMachineDisk_rotation_y w) (rightMachineDisk_rotation_y w)
    (leftBundles w) (rightBundles w) (currentBundle w)
    (currentBundleIsWrapped w) (nextId w).

Definition on_stationSelect (value : string) (w : World) : World :=
  mkWorld (speed w) (isPaused w) (cycleTime w) (cycleCount w) value
    (currentStationDisplay w)
    (centerPivot_rotation_y w) (gripperJaws0_x w) (gripperJaws1_x w)
    (leftMachineDisk_rotation_y w) (rightMachineDisk_rotation_y w)
    (leftBundles w) (rightBundles w) (currentBundle w)
    (currentBundleIsWrapped w) (nextId w).

Definition on_reset (w : World) : World :=
  mkWorld (speed w) (isPaused w) 0 0 (selectedStation w)
    (currentStationDisplay w)
    (centerPivot_rotation_y w) (gripperJaws0_x w) (gripperJaws1_x w)
    (leftMachineDisk_rotation_y w) (rightMachineDisk_rotation_y w)
    [] [] None (currentBundleIsWrapped w) (nextId w).

(** The state after the frame at [k * 0.1] seconds of a run in frames of
    0.1 s in "alternate" mode: the station select holds a value other than
    "left" and "right". *)
Definition at_frame (k : nat) : World :=
  fst (run (frames (JS.num 0.1) k) (on_stationSelect "both" init)).

Definition bundle_parent (w : World) : option Node :=
  match currentBundle w with Some b => parent b | None => None end.

Definition bundle_kind (w : World) : option Kind :=
  option_map kind (currentBundle w).

End SingleHand.

(** ** The two-arm program, [src/twoHand/app.js] *)

Module TwoHand.

Definition CYCLE_DURATION : Qc := JS.num 12.0.

Definition PHASES : list Phase :=
  [ mkPhase "spawn" (JS.num 0.0) (JS.num 1.0) "Bundles loaded at TOP station";
    mkPhase "simultaneous_pick" (JS.num 1.0) (JS.num 2.5)
            "Both arms picking from TOP";
    mkPhase "simultaneous_transport" (JS.num 2.5) (JS.num 4.5)
            "Transporting to wrapping stations";
    mkPhase "insert_wrappers" (JS.num 4.5) (JS.num 5.0)
            "Inserting into wrapping machines";
    mkPhase "wrapping_process" (JS.num 5.0) (JS.num 7.5)
            "WRAPPING IN PROGRESS (LEFT & RIGHT)...";
    mkPhase "exit_wrappers" (JS.num 7.5) (JS.num 8.0)
            "Bundles wrapped successfully";
    mkPhase "simultaneous_to_trays" (JS.num 8.0) (JS.num 9.5)
            "Transporting to output trays";
    mkPhase "place_in_trays" (JS.num 9.5) (JS.num 10.5)
            "Placed in output trays";
    mkPhase "reset" (JS.num 10.5) (JS.num 12.0) "Ready for next batch" ].

(** What the source writes twice, once for each arm: the constants of a
    side.  Where a case creates or moves bundles, the statements for the
    left bundle come before those for the right bundle. *)
Record SideCfg := mkSideCfg {
  armPivot : Node;
  tray : TraySide;
  spawn_x : Qc;          (* topCfg.x - 0.5, topCfg.x + 0.5 *)
  wrapperAngle : Qc;     (* Math.PI / 2, -Math.PI / 2 *)
  toTrayAngle : Qc;      (* Math.PI / 4, -Math.PI / 4 *)
  trayAngle : Qc;        (* Math.PI/2 + Math.PI/4, -Math.PI/2 - Math.PI/4 *)
  machine_x : Qc;
  machine_z : Qc;
  tray_x : Qc;
  tray_y : Qc;
  tray_z : Qc
}.

Definition topStation_x : Qc := JS.num 0.
Definition topStation_z : Qc := JS.num (-7).
Definition topStation_platformHeight : Qc := JS.num 0.3.

Definition leftCfg : SideCfg :=
  mkSideCfg LeftArmPivot LeftTray (topStation_x - JS.num 0.5)
    (JS.PI / JS.num 2) (JS.PI / JS.num 4) (JS.PI / JS.num 2 + JS.PI / JS.num 4)
    (JS.num (-6)) (JS.num 0) (JS.num (-6)) (JS.num 0.2) (JS.num 4).

Definition rightCfg : SideCfg :=
  mkSideCfg RightArmPivot RightTray (topStation_x + JS.num 0.5)
    (- JS.PI / JS.num 2) (- JS.PI / JS.num 4)
    (- JS.PI / JS.num 2 - JS.PI / JS.num 4)
    (JS.num 6) (JS.num 0) (JS.num 6) (JS.num 0.2) (JS.num 4).

(** The state of one side: arm, disk, tray, bundle in flight, counter. *)
Record Side := mkSide {
  armPivot_rotation_y : Qc;
  gripperJaws0_x : Qc;
  gripperJaws1_x : Qc;
  machineDisk_rotation_y : Qc;
  bundles : list Bundle;
  bundle : option Bundle;
  bundleWrapped : bool;
  count : Z
}.

Record World := mkWorld {
  speed : Qc;
  isPaused : bool;
  cycleTime : Qc;
  cycleCount : Z;
  left : Side;
  right : Side;
  nextId : nat
}.

Definition init_side : Side :=
  mkSide 0 (JS.num (-0.25)) (JS.num 0.25) 0 [] None false 0.

(** After [init]; objects 0 to 3 are the bundles of [spawnRawBundles]. *)
Definition init : World := mkWorld 1 false 0 0 init_side init_side 4.

Definition set_pose (rot j0 j1 : Qc) (s : Side) : Side :=
  mkSide rot j0 j1 (machineDisk_rotation_y s) (bundles s) (bundle s)
    (bundleWrapped s) (count s).

Definition set_disk (d : Qc) (s : Side) : Side :=
  mkSide (armPivot_rotation_y s) (gripperJaws0_x s) (gripperJaws1_x s) d
    (bundles s) (bundle s) (bundleWrapped s) (count s).

Definition set_current (b : option Bundle) (wrapped : bool) (s : Side) : Side :=
  mkSide (armPivot_rotation_y s) (gripperJaws0_x s) (gripperJaws1_x s)
    (machineDisk_rotation_y s) (bundles s) b wrapped (count s).

Definition set_bundle (b : Bundle) (s : Side) : Side :=
  set_current (Some b) (bundleWrapped s) s.

Definition set_tray (l : list Bundle) (c : Z) (s : Side) : Side :=
  mkSide (armPivot_rotation_y s) (gripperJaws0_x s) (gripperJaws1_x s)
    (machineDisk_rotation_y s) l (bundle s) (bundleWrapped s) c.

(** The statements of one side in each case; the [nat] is the number of
    the next object to create. *)
Definition SideStep := Side -> nat -> Side * nat * list Call.

Definition side_spawn (cfg : SideCfg) (progress : Qc) : SideStep := fun s n =>
  let '(s1, n1, calls) :=
    match bundle s with
    | None =>
        if progress <? JS.num 0.1 then
          let y := topStation_platformHeight + JS.num 0.4 in
          let b :=
            position_set (new_bundle n Raw) (spawn_x cfg) y topStation_z in
          (set_current (Some (node_add Scene b)) false s, S n,
           [CreateRawBundle n;
            PositionSet n (vec3 (spawn_x cfg) y topStation_z);
            Add Scene n])
        else (s, n, [])
    | Some _ => (s, n, [])
    end in
  (set_pose (JS.num 0) (JS.num (-0.35)) (JS.num 0.35) s1, n1, calls).

Definition side_pick (cfg : SideCfg) (t : Qc) : SideStep := fun s n =>
  let jawDist := JS.num 0.35 - t * JS.num 0.1 in
  let s1 := set_pose (JS.num 0) (- jawDist) jawDist s in
  match bundle s1 with
  | Some b =>
      if t >? JS.num 0.5 then
        let p := vec3 (JS.num 0) (JS.num 0.2) (JS.num (-4.75)) in
        (set_bundle (position_set (node_attach (armPivot cfg) b)
                                  (vx p) (vy p) (vz p)) s1, n,
         [Attach (armPivot cfg) (bid b); PositionSet (bid b) p])
      else (s1, n, [])
  | None => (s1, n, [])
  end.

Definition side_transport (cfg : SideCfg) (t : Qc) : SideStep := fun s n =>
  (set_pose (easeInOutQuad t * wrapperAngle cfg)
            (JS.num (-0.25)) (JS.num 0.25) s, n, []).

Definition side_insert (cfg : SideCfg) (t : Qc) : SideStep := fun s n =>
  let releaseJaw := JS.num 0.25 + t * JS.num 0.15 in
  let s1 := set_pose (wrapperAngle cfg) (- releaseJaw) releaseJaw s in
  match bundle s1 with
  | Some b =>
      if (t >? JS.num 0.5) && parent_is_not b Scene then
        let p := vec3 (machine_x cfg) (JS.num 1.5) (machine_z cfg) in
        (set_bundle
           (position_set (node_attach Scene b) (vx p) (vy p) (vz p)) s1,
         n, [Attach Scene (bid b); PositionSet (bid b) p])
      else (s1, n, [])
  | None => (s1, n, [])
  end.

(** [wrapping_process], first half: the disk and the bundle turn. *)
Definition side_wrapping_turn (cfg : SideCfg) (t : Qc) : SideStep := fun s n =>
  let p := vec3 (machine_x cfg) (JS.num 1.5) (machine_z cfg) in
  (* disk.rotation.y += 0.15 *)
  let s1 := set_disk (machineDisk_rotation_y s + JS.num 0.15) s in
  match bundle s1 with
  | Some b =>
      let b1 := set_rotation_y (position_set b (vx p) (vy p) (vz p))
                               (t * JS.PI * JS.num 3.5) in
      (set_bundle b1 s1, n, [PositionSet (bid b) p])
  | None => (s1, n, [])
  end.

(** [wrapping_process], second half: the raw bundle becomes a wrapped one. *)
Definition side_wrapping_convert (cfg : SideCfg) (t : Qc) : SideStep :=
  fun s n =>
  match bundle s with
  | Some b =>
      if (t >? JS.num 0.85) && negb (bundleWrapped s) then
        let pos := position b in
        let nb :=
          position_set (new_bundle n Wrapped) (vx pos) (vy pos) (vz pos) in
        (set_current (Some (node_add Scene nb)) true s, S n,
         [Remove Scene (bid b); CreateWrappedBundle n;
          PositionSet n pos; Add Scene n])
      else (s, n, [])
  | None => (s, n, [])
  end.

Definition side_exit (cfg : SideCfg) (t : Qc) : SideStep := fun s n =>
  let grabJaw := JS.num 0.35 - t * JS.num 0.1 in
  let s1 := set_pose (wrapperAngle cfg) (- grabJaw) grabJaw s in
  match bundle s1 with
  | Some b =>
      if t >? JS.num 0.5 then
        let p := vec3 (JS.num 0) (JS.num 0.2) (JS.num (-4.75)) in
        let b1 :=
          position_set (node_attach (armPivot cfg) b) (vx p) (vy p) (vz p) in
        (set_bundle (set_rotation_y b1 (JS.num 0)) s1, n,
         [Attach (armPivot cfg) (bid b); PositionSet (bid b) p])
      else (s1, n, [])
  | None => (s1, n, [])
  end.

Definition side_to_trays (cfg : SideCfg) (t : Qc) : SideStep := fun s n =>
  (set_pose (wrapperAngle cfg + easeInOutQuad t * toTrayAngle cfg)
            (JS.num (-0.25)) (JS.num 0.25) s, n, []).

Definition side_place (cfg : SideCfg) (t : Qc) : SideStep := fun s n =>
  let dropJaw := JS.num 0.25 + t * JS.num 0.15 in
  let s1 := set_pose (trayAngle cfg) (- dropJaw) dropJaw s in
  match bundle s1 with
  | Some b =>
      if t >? JS.num 0.5 then
        let slotIndex := Z.of_nat (length (bundles s1)) in
        let row := slot_row slotIndex in
        let col := slot_col slotIndex in
        let p := vec3 (tray_x cfg + (col * JS.num 0.7 - JS.num 1.05))
                      (tray_y cfg + JS.num 0.6)
                      (tray_z cfg + (JS.of_Z row * JS.num 0.7 - JS.num 0.35)) in
        let b1 := position_set (node_attach Scene b) (vx p) (vy p) (vz p) in
        let s2 := set_tray (bundles s1 ++ [b1]) (count s1 + 1)%Z s1 in
        (set_current None false s2, n,
         [Attach Scene (bid b); PositionSet (bid b) p; Push (tray cfg) (bid b)])
      else (s1, n, [])
  | None => (s1, n, [])
  end.

Definition side_reset (cfg : SideCfg) (t : Qc) : SideStep := fun s n =>
  let finalAngle := trayAngle cfg in
  let s1 := set_pose (finalAngle - easeInOutQuad t * finalAngle)
                     (JS.num (-0.35)) (JS.num 0.35) s in
  let '(l, calls) := shift_if_too_many (tray cfg) (bundles s1) in
  (set_tray l (count s1) s1, n, calls).

(** The statements of the left side, then those of the right side. *)
Definition both (f : SideCfg -> SideStep) (w : World) : World * list Call :=
  let '(l, n1, c1) := f leftCfg (left w) (nextId w) in
  let '(r, n2, c2) := f rightCfg (right w) n1 in
  (mkWorld (speed w) (isPaused w) (cycleTime w) (cycleCount w) l r n2,
   c1 ++ c2).

Definition wrapping_process (t : Qc) (w : World) : World * list Call :=
  let '(w1, c1) := both (fun c => side_wrapping_turn c t) w in
  let '(w2, c2) := both (fun c => side_wrapping_convert c t) w1 in
  (w2, c1 ++ c2).

Definition updateMachineAnimation (phaseName : string) (progress loopTime : Qc)
    (w : World) : World * list Call :=
  let t := easeInOutCubic progress in
  if (phaseName =? "spawn")%string then both (fun c => side_spawn c progress) w
  else if (phaseName =? "simultaneous_pick")%string
       then both (fun c => side_pick c t) w
  else if (phaseName =? "simultaneous_transport")%string
       then both (fun c => side_transport c t) w
  else if (phaseName =? "insert_wrappers")%string
       then both (fun c => side_insert c t) w
  else if (phaseName =? "wrapping_process")%string then wrapping_process t w
  else if (phaseName =? "exit_wrappers")%string
       then both (fun c => side_exit c t) w
  else if (phaseName =? "simultaneous_to_trays")%string
       then both (fun c => side_to_trays c t) w
  else if (phaseName =? "place_in_trays")%string
       then both (fun c => side_place c t) w
  else if (phaseName =? "reset")%string then both (fun c => side_reset c t) w
  else (w, []).

Definition animate (delta : Qc) (w : World) : World * list Call :=
  if negb (isPaused w) then
    let cycleTime' := cycleTime w + delta * speed w in
    let loopTime := JS.rem cycleTime' CYCLE_DURATION in
    let newCycleCount := JS.floor (cycleTime' / CYCLE_DURATION) in
    let cc := if negb (newCycleCount =? cycleCount w)%Z
              then newCycleCount else cycleCount w in
    let w1 := mkWorld (speed w) (isPaused w) cycleTime' cc
                      (left w) (right w) (nextId w) in
    match find_phase PHASES loopTime with
    | Some currentPhase =>
        let progress := phase_progress currentPhase loopTime in
        updateMachineAnimation (name currentPhase) progress loopTime w1
    | None => (w1, [])
    end
  else (w, []).

Fixpoint run (deltas : list Qc) (w : World) : World * list Call :=
  match deltas with
  | [] => (w, [])
  | delta :: rest =>
      let '(w1, c1) := animate delta w in
      let '(w2, c2) := run rest w1 in
      (w2, c1 ++ c2)
  end.

Fixpoint traverse (phaseName : string) (steps : list Qc) (w : World)
  : World * list Call :=
  match steps with
  | [] => (w, [])
  | progress :: rest =>
      let '(w1, c1) := updateMachineAnimation phaseName progress
                         (JS.rem (cycleTime w) CYCLE_DURATION) w in
      let '(w2, c2) := traverse phaseName rest w1 in
      (w2, c1 ++ c2)
  end.

Definition phase_at (ct : Qc) : option Phase :=
  find_phase PHASES (JS.rem ct CYCLE_DURATION).

Definition phase_is (phaseName : string) (ct : Qc) : bool :=
  match phase_at ct with
  | Some p => (name p =? phaseName)%string
  | None => false
  end.

Definition disks (w : World) : Qc * Qc :=
  (machineDisk_rotation_y (left w), machineDisk_rotation_y (right w)).

End TwoHand.

(** ** The trays of the single-arm program as queues *)

Module SingleHandQueue.
Import SingleHand.






End SingleHandQueue.

(** ** The cycle clock on doubles *)

Module Doubles.
Import PrimFloat.

(** [cycleTime += delta * speed], frame after frame, in binary64. *)
Definition cycleTime_after (deltas : list float) (speed cycleTime : float)
  : float :=
  fold_left (fun ct delta => (ct + delta * speed)%float) deltas cycleTime.

Definition CYCLE_DURATION : float := 8%float.

(** [Math.floor(x) === k], for an integer [k]. *)
Definition floor_is (x k : float) : bool :=
  andb (k <=? x)%float (x <? k + 1)%float.

(** A count as a double (exact below 2^53). *)
Definition of_nat (n : nat) : float := of_uint63 (Uint63.of_Z (Z.of_nat n)).

(** [Math.floor(cycleTime / CYCLE_DURATION) === n] *)
Definition cycleCount_is (cycleTime : float) (n : nat) : bool :=
  floor_is (cycleTime / CYCLE_DURATION)%float (of_nat n).

(** [cycleTime] after the frame at [k * 0.1] seconds of a run in frames
    of 0.1 s at speed 1: a first frame with [delta = 0], then [k] frames
    with [delta = 0.1]. *)
#[warnings="-inexact-float"]
Definition cycleTime_at_frame (k : nat) : float :=
  cycleTime_after (0%float :: repeat 0.1%float k) 1%float 0%float.

End Doubles.

(** ** Further observations of a list of calls *)

Definition is_add (c : Call) : bool :=
  match c with Add Scene _ => true | _ => false end.

Definition is_remove (c : Call) : bool :=
  match c with Remove Scene _ => true | _ => false end.

Definition is_push (tray : TraySide) (c : Call) : bool :=
  match c, tray with
  | Push LeftTray _, LeftTray | Push RightTray _, RightTray => true
  | _, _ => false
  end.

Definition is_push_any (c : Call) : bool :=
  match c with Push _ _ => true | _ => false end.

Definition is_create_wrapped (c : Call) : bool :=
  match c with CreateWrappedBundle _ => true | _ => false end.

(** ** Sessions of the single-arm program *)

Module SingleHandSession.
Import SingleHand.

(** What the browser runs, one at a time: a frame of [animate] with its
    [delta], or one of the listeners of [setUIListeners]. *)
Inductive Event :=
| Frame (delta : Qc)
| ClickPlayPause
| InputSpeed (value : Qc)
| ChangeStation (value : string)
| ClickReset.

Definition handle (e : Event) (w : World) : World :=
  match e with
  | Frame delta => fst (animate delta w)
  | ClickPlayPause => on_playPause w
  | InputSpeed value => on_speed value w
  | ChangeStation value => on_stationSelect value w
  | ClickReset => on_reset w
  end.

Definition play (events : list Event) (w : World) : World :=
  fold_left (fun w e => handle e w) events w.

(** [gripperJaws[0]] is the mirror image of [gripperJaws[1]]. *)
Definition jaws_mirror (w : World) : Prop :=
  gripperJaws0_x w = - gripperJaws1_x w.

(** The jaws are between closed on a bundle (0.25) and wide open (0.4),
    and the arm within three quarters of a half turn (2.3562) of the top
    station, each with a margin of a hundredth or so, which the rounding
    of the doubles cannot consume. *)
Definition pose_in_range (w : World) : Prop :=
  JS.num 0.24 <= gripperJaws1_x w <= JS.num 0.41 /\
  - JS.num 2.36 <= centerPivot_rotation_y w <= JS.num 2.36.

(** [cycleCount] is the number of whole cycles in [cycleTime]. *)
Definition clock_agrees (w : World) : Prop :=
  cycleCount w = JS.floor (cycleTime w / CYCLE_DURATION).

(** The objects the program still refers to: the bundle in flight and the
    bundles of both trays. *)
Definition bundles_of (w : World) : list Bundle :=
  match currentBundle w with Some b => [b] | None => [] end ++
  leftBundles w ++ rightBundles w.

Definition ids (w : World) : list nat := map bid (bundles_of w).

(** No object is referred to twice, and [nextId] is beyond all of them. *)
Definition distinct_ids (w : World) : Prop :=
  NoDup (ids w) /\ Forall (fun i => (i < nextId w)%nat) (ids w).

(** The bundles of the trays are children of the scene. *)
Definition trays_in_scene (w : World) : Prop :=
  Forall (fun b => parent b = Some Scene) (leftBundles w ++ rightBundles w).

(** [currentBundleIsWrapped] says what the bundle in flight is. *)
Definition flag_agrees (w : World) : Prop :=
  match currentBundle w with
  | Some b => currentBundleIsWrapped w =
              match kind b with Wrapped => true | Raw => false end
  | None => True
  end.

(** What a case does to the bundle in flight, the trays and the counter:
    nothing but a new position or parent for the bundle, or a new bundle
    with the next number, or the move of the bundle to the end of a tray,
    or the removal of the first bundle of a tray. *)
Inductive step_kind (w w' : World) : Prop :=
| Keep :
    ids w' = ids w -> nextId w' = nextId w ->
    leftBundles w' = leftBundles w -> rightBundles w' = rightBundles w ->
    step_kind w w'
| Create :
    ids w' = nextId w :: map bid (leftBundles w ++ rightBundles w) ->
    nextId w' = S (nextId w) ->
    leftBundles w' = leftBundles w -> rightBundles w' = rightBundles w ->
    step_kind w w'
| Place (b b' : Bundle) :
    currentBundle w = Some b -> currentBundle w' = None ->
    bid b' = bid b -> parent b' = Some Scene -> nextId w' = nextId w ->
    (leftBundles w' = leftBundles w ++ [b'] /\ rightBundles w' = rightBundles w \/
     leftBundles w' = leftBundles w /\ rightBundles w' = rightBundles w ++ [b']) ->
    step_kind w w'
| Clean :
    currentBundle w' = currentBundle w -> nextId w' = nextId w ->
    (leftBundles w' = leftBundles w \/
     exists b, leftBundles w = b :: leftBundles w') ->
    (rightBundles w' = rightBundles w \/
     exists b, rightBundles w = b :: rightBundles w') ->
    step_kind w w'.

(** The bundle in flight, counted. *)
Definition in_flight (w : World) : nat :=
  match currentBundle w with Some _ => 1 | None => 0 end.

Definition in_trays (w : World) : nat :=
  length (leftBundles w) + length (rightBundles w).

(** The side that a fixed choice of station leaves alone. *)
Definition station_name (toLeft : bool) : string :=
  if toLeft then "left" else "right".

Definition other_tray (toLeft : bool) : TraySide :=
  if toLeft then RightTray else LeftTray.

Definition other_bundles (toLeft : bool) (w : World) : list Bundle :=
  if toLeft then rightBundles w else leftBundles w.

Definition other_disk (toLeft : bool) (w : World) : Qc :=
  if toLeft then rightMachineDisk_rotation_y w else leftMachineDisk_rotation_y w.

(** What ends the work of a phase on the bundle in flight: in
    [insert_wrapper] the bundle is a child of the scene, in [wrapping] it
    is flagged as wrapped, in [place_in_tray] it is gone. *)
Definition released (w : World) : Prop :=
  match currentBundle w with
  | Some b => parent_is_not b Scene = false
  | None => True
  end.

Definition converted (w : World) : Prop :=
  currentBundle w = None \/ currentBundleIsWrapped w = true.

Definition placed (w : World) : Prop := currentBundle w = None.

End SingleHandSession.

(** ** Sessions of the two-arm program *)

Module TwoHandSession.
Import TwoHand.

(** *** The listeners of [setUIListeners]

    The glow toggle writes [glowEnabled], which only the lights of the
    grippers read; it is not part of the state modelled here. *)

Definition on_playPause (w : World) : World :=
  mkWorld (speed w) (negb (isPaused w)) (cycleTime w) (cycleCount w)
    (left w) (right w) (nextId w).

Definition on_speed (v : Qc) (w : World) : World :=
  mkWorld v (isPaused w) (cycleTime w) (cycleCount w) (left w) (right w)
    (nextId w).

(** The reset button on one side: the tray is emptied, the bundle in
    flight dropped and the counter zeroed. *)
Definition reset_side (s : Side) : Side :=
  mkSide (armPivot_rotation_y s) (gripperJaws0_x s) (gripperJaws1_x s)
    (machineDisk_rotation_y s) [] None (bundleWrapped s) 0.

Definition on_reset (w : World) : World :=
  mkWorld (speed w) (isPaused w) 0 0 (reset_side (left w)) (reset_side (right w))
    (nextId w).

Inductive Event :=
| Frame (delta : Qc)
| ClickPlayPause
| InputSpeed (value : Qc)
| ClickReset.

Definition handle (e : Event) (w : World) : World :=
  match e with
  | Frame delta => fst (animate delta w)
  | ClickPlayPause => on_playPause w
  | InputSpeed value => on_speed value w
  | ClickReset => on_reset w
  end.

Definition play (events : list Event) (w : World) : World :=
  fold_left (fun w e => handle e w) events w.

(** The statements of one side in the cases of [updateMachineAnimation];
    [wrapping_process] runs two of them one after the other. *)
Inductive side_case : (SideCfg -> SideStep) -> Prop :=
| Spawn pr : side_case (fun c => side_spawn c pr)
| Pick t : side_case (fun c => side_pick c t)
| Transport t : side_case (fun c => side_transport c t)
| Insert t : side_case (fun c => side_insert c t)
| WrappingTurn t : side_case (fun c => side_wrapping_turn c t)
| WrappingConvert t : side_case (fun c => side_wrapping_convert c t)
| Exit t : side_case (fun c => side_exit c t)
| ToTrays t : side_case (fun c => side_to_trays c t)
| PlaceInTrays t : side_case (fun c => side_place c t)
| ResetArm t : side_case (fun c => side_reset c t).

(** The right arm is the mirror image of the left arm, and the two disks
    have turned by the same angle. *)
Definition mirrored_sides (l r : Side) : Prop :=
  armPivot_rotation_y l = - armPivot_rotation_y r /\
  gripperJaws0_x l = gripperJaws0_x r /\
  gripperJaws1_x l = gripperJaws1_x r /\
  machineDisk_rotation_y l = machineDisk_rotation_y r.

Definition mirrored (w : World) : Prop := mirrored_sides (left w) (right w).

(** What the two sides have in common when they work in step: a bundle in
    flight or none, its flag, the number of bundles in the tray and the
    counter. *)
Definition shape (s : Side) : bool * bool * nat * Z :=
  (match bundle s with Some _ => true | None => false end,
   bundleWrapped s, length (bundles s), count s).

Definition lockstep (w : World) : Prop := shape (left w) = shape (right w).

(** The objects a side still refers to. *)
Definition side_bundles (s : Side) : list Bundle :=
  match bundle s with Some b => [b] | None => [] end ++ bundles s.

Definition side_ids (s : Side) : list nat := map bid (side_bundles s).

Definition ids (w : World) : list nat := side_ids (left w) ++ side_ids (right w).

Definition distinct_ids (w : World) : Prop :=
  NoDup (ids w) /\ Forall (fun i => (i < nextId w)%nat) (ids w).

(** What a case may do to the objects of a side, [n] being the number of
    the next object: keep them or lose some, or add the object [n]. *)
Definition ids_step (l : list nat) (n : nat) (l' : list nat) (n' : nat) : Prop :=
  (n <= n')%nat /\
  (forall i, In i l' -> In i l \/ (n <= i < n')%nat) /\
  (NoDup l -> Forall (fun i => (i < n)%nat) l -> NoDup l').

(** [leftCounter] and [rightCounter] are at least the number of bundles
    in the trays. *)
Definition counters_cover (w : World) : Prop :=
  (Z.of_nat (length (bundles (left w))) <= count (left w))%Z /\
  (Z.of_nat (length (bundles (right w))) <= count (right w))%Z.

End TwoHandSession.

(** ** The press program, second part of [src/singleHand/app.js] *)

Module Press.

Definition CYCLE_DURATION : Qc := JS.num 14.

Definition PHASES : list Phase :=
  [ mkPhase "spawn" (JS.num 0) (JS.num 1)
            "Spawning bundles...";
    mkPhase "pickup" (JS.num 1) (JS.num 3)
            "Picking up bundles...";
    mkPhase "transport_to_press" (JS.num 3) (JS.num 5)
            "Transporting to PRESS machines...";
    mkPhase "press_down" (JS.num 5) (JS.num 6.5)
            "Pressing down...";
    mkPhase "vibration" (JS.num 6.5) (JS.num 7.5)
            "Shaking to level filaments...";
    mkPhase "hold_pressed" (JS.num 7.5) (JS.num 8.5)
            "Holding compressed...";
    mkPhase "release" (JS.num 8.5) (JS.num 9.5)
            "Releasing from press...";
    mkPhase "wrapping" (JS.num 9.5) (JS.num 11.5)
            "WRAPPING with tape...";
    mkPhase "eject" (JS.num 11.5) (JS.num 12)
            "Wrapped! Ejecting...";
    mkPhase "transport_to_tray" (JS.num 12) (JS.num 13)
            "Moving to output trays...";
    mkPhase "place_in_tray" (JS.num 13) (JS.num 14)
            "Placed in tray!" ].

(** The part of the state that [executePhase] does not write: the
    controls, the clock and the two wrapper disks. *)
Record World := mkWorld {
  isPlaying : bool;
  speed : Qc;
  cycleTime : Qc;
  leftDisk_rotation_y : Qc;
  rightDisk_rotation_y : Qc
}.

Definition init : World := mkWorld true 1 0 0 0.

(** The phase that [updateAnimation] finds, and the progress it passes to
    [executePhase]. *)
Definition phase_at (ct : Qc) : option Phase :=
  find_phase PHASES (JS.rem ct CYCLE_DURATION).

(** [updateAnimation] on this part of the state: after [executePhase],
    both disks turn by 0.05. *)
Definition updateAnimation (w : World) : World :=
  mkWorld (isPlaying w) (speed w) (cycleTime w)
    (leftDisk_rotation_y w + JS.num 0.05) (rightDisk_rotation_y w + JS.num 0.05).

(** One frame: [animate] with [delta] the value of [clock.getDelta()]. *)
Definition animate (delta : Qc) (w : World) : World :=
  if isPlaying w then
    updateAnimation
      (mkWorld (isPlaying w) (speed w) (cycleTime w + delta * speed w)
         (leftDisk_rotation_y w) (rightDisk_rotation_y w))
  else w.

Definition run (deltas : list Qc) (w : World) : World :=
  fold_left (fun w delta => animate delta w) deltas w.

(** The listeners of [setupEventListeners], on this part of the state. *)
Definition on_playPause (w : World) : World :=
  mkWorld (negb (isPlaying w)) (speed w) (cycleTime w)
    (leftDisk_rotation_y w) (rightDisk_rotation_y w).

Definition on_reset (w : World) : World :=
  mkWorld (isPlaying w) (speed w) 0
    (leftDisk_rotation_y w) (rightDisk_rotation_y w).

Definition on_speed (v : Qc) (w : World) : World :=
  mkWorld (isPlaying w) v (cycleTime w)
    (leftDisk_rotation_y w) (rightDisk_rotation_y w).

End Press.

(** * Evaluation of the embedding on small inputs *)

Example easeInOutCubic_three_quarters :
  this (easeInOutCubic (JS.num 0.75)) = (15 # 16)%Q.
Proof. vm_compute. reflexivity. Qed.

Example easeInOutCubic_half : this (easeInOutCubic (JS.num 0.5)) = (1 # 2)%Q.
Proof. vm_compute. reflexivity. Qed.

Example rem_17_3 : this (JS.rem (JS.num 17.3) (JS.num 8)) = (13 # 10)%Q.
Proof. vm_compute. reflexivity. Qed.

Example target_alternates :
  SingleHand.getTargetStation "both" 0 = "left"%string /\
  SingleHand.getTargetStation "both" 1 = "right"%string /\
  SingleHand.getTargetStation "right" 0 = "right"%string.
Proof. repeat split. Qed.

(** * Numbers *)

(** The tests of the source as propositions. *)

Lemma ltb_iff (x y : Qc) : (x <? y) = true <-> x < y.
Proof.
  unfold JS.ltb. rewrite Qclt_alt. destruct (x ?= y); split; congruence.
Qed.

Lemma leb_iff (x y : Qc) : (x <=? y) = true <-> x <= y.
Proof.
  unfold JS.leb. rewrite Qcle_alt. destruct (x ?= y); split; congruence.
Qed.

Lemma ltb_false_iff (x y : Qc) : (x <? y) = false <-> y <= x.
Proof.
  rewrite <- not_true_iff_false, ltb_iff. split.
  - apply Qcnot_lt_le.
  - intros H H'. exact (Qcle_not_lt _ _ H H').
Qed.

Lemma leb_false_iff (x y : Qc) : (x <=? y) = false <-> y < x.
Proof.
  rewrite <- not_true_iff_false, leb_iff. split.
  - apply Qcnot_le_lt.
  - intros H H'. exact (Qclt_not_le _ _ H H').
Qed.

Lemma geb_iff (x y : Qc) : (x >=? y) = true <-> y <= x.
Proof. apply leb_iff. Qed.

Lemma gtb_iff (x y : Qc) : (x >? y) = true <-> y < x.
Proof. apply ltb_iff. Qed.

(** The operations of [Qc] on the underlying fractions, where [lra] works. *)

Lemma this_plus (x y : Qc) : (this (x + y) == this x + this y)%Q.
Proof. apply Qred_correct. Qed.
Lemma this_mult (x y : Qc) : (this (x * y) == this x * this y)%Q.
Proof. apply Qred_correct. Qed.
Lemma this_opp (x : Qc) : (this (- x) == - this x)%Q.
Proof. apply Qred_correct. Qed.
Lemma this_minus (x y : Qc) : (this (x - y) == this x - this y)%Q.
Proof. unfold Qcminus. rewrite this_plus, this_opp. reflexivity. Qed.
Lemma this_inv (x : Qc) : (this (/ x) == / this x)%Q.
Proof. apply Qred_correct. Qed.
Lemma this_div (x y : Qc) : (this (x / y) == this x / this y)%Q.
Proof. unfold Qcdiv. rewrite this_mult, this_inv. reflexivity. Qed.
Lemma this_of_Z (z : Z) : (this (JS.of_Z z) == inject_Z z)%Q.
Proof. apply Qred_correct. Qed.

Lemma trunc_nonneg (x : Qc) : 0 <= x -> JS.trunc x = JS.floor x.
Proof.
  intros H. unfold JS.trunc, JS.floor, Qfloor.
  destruct (this x) as [n d] eqn:E. simpl.
  apply Z.quot_div_nonneg; [|lia].
  unfold Qcle in H. rewrite E in H. unfold Qle in H. simpl in H. lia.
Qed.

Lemma rem_bounds (x d : Qc) : 0 <= x -> 0 < d -> 0 <= JS.rem x d < d.
Proof.
  intros Hx Hd. unfold JS.rem.
  assert (Hq : 0 <= x / d).
  { unfold Qcle in *. unfold Qclt in *. rewrite this_div. simpl in *.
    apply Qle_shift_div_l; [exact Hd|]. lra. }
  rewrite (trunc_nonneg _ Hq). unfold JS.floor.
  pose proof (Qfloor_le (this (x / d)%Qc)) as Hlo.
  pose proof (Qlt_floor (this (x / d)%Qc)) as Hhi.
  rewrite inject_Z_plus in Hhi. change (inject_Z 1) with 1%Q in Hhi.
  pose proof (this_div x d) as E.
  unfold Qcle, Qclt in *.
  rewrite this_minus, this_mult, this_of_Z.
  revert Hlo Hhi E. generalize (this (x / d)). intros q.
  generalize (inject_Z (Qfloor q)). intros k Hlo Hhi E.
  simpl in Hx, Hd. change (this 0) with 0%Q.
  assert (Hd' : ~ (this d == 0)%Q) by lra.
  assert (E' : (this x == q * this d)%Q) by (rewrite E; field; exact Hd').
  split.
  - assert (k * this d <= q * this d)%Q by (apply Qmult_le_compat_r; lra). lra.
  - assert (q * this d < (k + 1) * this d)%Q by (apply Qmult_lt_compat_r; lra).
    lra.
Qed.

Lemma progress_bounds (p : Phase) (x : Qc) :
  start p <= x < end_ p -> 0 <= phase_progress p x < 1.
Proof.
  intros [Hlo Hhi]. unfold phase_progress, Qcle, Qclt in *.
  rewrite this_div, !this_minus. simpl. split.
  - apply Qle_shift_div_l; lra.
  - apply Qlt_shift_div_r; lra.
Qed.

(** * Timelines that tile a cycle *)

Section Timeline.

(** The end of the cycle. *)
Variable b : Qc.

Lemma tiles_le (a : Qc) (l : list Phase) : tiles a b l -> a <= b.
Proof.
  revert a. induction l as [|p l IH]; simpl; intros a H.
  - subst. apply Qcle_refl.
  - destruct H as (_ & Hlt & Hr). apply Qcle_trans with (end_ p).
    + apply Qclt_le_weak, Hlt.
    + apply IH, Hr.
Qed.

Lemma tiles_start_ge (a : Qc) (l : list Phase) (p : Phase) :
  tiles a b l -> In p l -> a <= start p.
Proof.
  revert a. induction l as [|q l IH]; simpl; intros a H Hin; [contradiction|].
  destruct H as (Hs & Hlt & Hr). destruct Hin as [->|Hin].
  - rewrite Hs. apply Qcle_refl.
  - apply Qcle_trans with (end_ q); [apply Qclt_le_weak, Hlt|].
    apply IH; assumption.
Qed.

(** In a timeline that tiles the cycle the loop finds a phase at every
    instant of the cycle, and no other phase of the list holds it. *)
Lemma find_phase_tiles (a : Qc) (l : list Phase) (x : Qc) :
  tiles a b l -> a <= x < b ->
  exists p, find_phase l x = Some p /\ In p l /\ start p <= x < end_ p /\
            (forall p', In p' l -> start p' <= x < end_ p' -> p' = p).
Proof.
  revert a. induction l as [|q l IH]; simpl; intros a H [Hlo Hhi].
  - subst. exfalso. exact (Qcle_not_lt _ _ Hlo Hhi).
  - destruct H as (Hs & Hlt & Hr).
    assert (Hge : (x >=? start q) = true)
      by (apply geb_iff; rewrite Hs; exact Hlo).
    rewrite Hge. simpl.
    destruct (x <? end_ q) eqn:E.
    + apply ltb_iff in E. exists q. repeat split; auto.
      * rewrite Hs. exact Hlo.
      * intros p' [->|Hin] [Hlo' Hhi']; [reflexivity|].
        exfalso. apply (Qcle_not_lt (end_ q) x); [|exact E].
        apply Qcle_trans with (start p'); [|exact Hlo'].
        apply (tiles_start_ge _ _ _ Hr Hin).
    + apply ltb_false_iff in E.
      destruct (IH _ Hr (conj E Hhi)) as (p & Hf & Hin & Hb & Hu).
      exists p. repeat split; auto; try apply Hb.
      intros p' [<-|Hin'] [Hlo' Hhi'].
      * exfalso. exact (Qcle_not_lt _ _ E Hhi').
      * apply Hu; auto.
Qed.

End Timeline.

Ltac tiles_by_evaluation :=
  simpl; repeat split;
  try (apply Qc_is_canon; reflexivity); try (now vm_compute).

Lemma SingleHand_tiles : tiles 0 SingleHand.CYCLE_DURATION SingleHand.PHASES.
Proof. tiles_by_evaluation. Qed.

Lemma TwoHand_tiles : tiles 0 TwoHand.CYCLE_DURATION TwoHand.PHASES.
Proof. tiles_by_evaluation. Qed.

(** C2: for every elapsed time [e >= 0], with [loopTime = e % CYCLE_DURATION],
    the loop of [animate] finds a phase of [PHASES]; it is the only phase
    with [start <= loopTime < end], and the progress computed from it lies
    in the half-open interval from 0 to 1. *)
Theorem one_phase_and_progress (e : Qc) :
  0 <= e ->
  let loopTime := JS.rem e SingleHand.CYCLE_DURATION in
  exists p, find_phase SingleHand.PHASES loopTime = Some p /\
            In p SingleHand.PHASES /\
            start p <= loopTime < end_ p /\
            (forall p', In p' SingleHand.PHASES ->
                        start p' <= loopTime < end_ p' -> p' = p) /\
            0 <= phase_progress p loopTime < 1.
Proof.
  intros He loopTime.
  assert (Hb : 0 <= loopTime < SingleHand.CYCLE_DURATION)
    by (apply rem_bounds; [exact He | now vm_compute]).
  destruct (find_phase_tiles _ _ _ _ SingleHand_tiles Hb)
    as (p & Hf & Hin & Hp & Hu).
  exists p. repeat split; auto; try apply Hp; apply progress_bounds, Hp.
Qed.

(** At [e = 17.3] the loop time is 1.3, in [pick]. *)
Lemma one_phase_and_progress_witness :
  0 <= JS.num 17.3 /\
  exists p, find_phase SingleHand.PHASES
              (JS.rem (JS.num 17.3) SingleHand.CYCLE_DURATION) = Some p /\
            In p SingleHand.PHASES /\
            start p <= JS.rem (JS.num 17.3) SingleHand.CYCLE_DURATION < end_ p /\
            (forall p', In p' SingleHand.PHASES ->
                        start p' <= JS.rem (JS.num 17.3) SingleHand.CYCLE_DURATION
                                 < end_ p' -> p' = p) /\
            0 <= phase_progress p
                   (JS.rem (JS.num 17.3) SingleHand.CYCLE_DURATION) < 1.
Proof.
  split; [now vm_compute|].
  apply (one_phase_and_progress (JS.num 17.3)). now vm_compute.
Defined.

(** The same holds for the timeline of the two-arm program. *)
Lemma TwoHand_one_phase_and_progress (e : Qc) :
  0 <= e ->
  let loopTime := JS.rem e TwoHand.CYCLE_DURATION in
  exists p, find_phase TwoHand.PHASES loopTime = Some p /\
            In p TwoHand.PHASES /\
            start p <= loopTime < end_ p /\
            (forall p', In p' TwoHand.PHASES ->
                        start p' <= loopTime < end_ p' -> p' = p) /\
            0 <= phase_progress p loopTime < 1.
Proof.
  intros He loopTime.
  assert (Hb : 0 <= loopTime < TwoHand.CYCLE_DURATION)
    by (apply rem_bounds; [exact He | now vm_compute]).
  destruct (find_phase_tiles _ _ _ _ TwoHand_tiles Hb)
    as (p & Hf & Hin & Hp & Hu).
  exists p. repeat split; auto; try apply Hp; apply progress_bounds, Hp.
Qed.

(** * The single-arm program: facts about one frame *)

Module SingleHandFacts.
Import SingleHand.

Ltac unfold_cases :=
  cbv [case_spawn case_pick case_transport_to_wrapper case_insert_wrapper
       case_wrapping case_exit_wrapper case_transport_to_tray case_place_in_tray
       case_reset set_pose set_bundle set_current set_trays set_disks set_display
       set_clock pose disks clock].

(** Case analysis on the tests of a case, innermost state first: only a
    test on a variable or a comparison of numbers is split. *)
Ltac break_if :=
  match goal with
  | |- context [match ?o with Some _ => _ | None => _ end] =>
      is_var o; destruct o as [[? ? ? ? ?]|]
  | |- context [match ?o with Some _ => _ | None => _ end] =>
      is_var o; destruct o
  | |- context [Node_eqb ?n _] => is_var n; destruct n
  | |- context [negb ?b] => is_var b; destruct b
  | |- context [if ?b then _ else _] => is_var b; destruct b
  | |- context [andb (JS.gtb ?x ?y) _] => destruct (JS.gtb x y) eqn:?
  | |- context [if JS.ltb ?x ?y then _ else _] => destruct (JS.ltb x y) eqn:?
  | |- context [if JS.gtb ?x ?y then _ else _] => destruct (JS.gtb x y) eqn:?
  | |- context [let '(_, _) := shift_if_too_many ?s ?l in _] =>
      destruct (shift_if_too_many s l) eqn:?
  end.

Ltac world_fields :=
  cbn [speed isPaused cycleTime cycleCount selectedStation currentStationDisplay
       centerPivot_rotation_y gripperJaws0_x gripperJaws1_x
       leftMachineDisk_rotation_y rightMachineDisk_rotation_y
       leftBundles rightBundles currentBundle currentBundleIsWrapped nextId
       fst snd].

Ltac bundle_fields :=
  cbv [parent_is_not position_set node_attach node_add new_bundle];
  cbn [parent bid kind position rotation_y Node_eqb negb andb vx vy vz].

Ltac by_switch :=
  unfold switch_phase;
  repeat match goal with
         | |- context [if (?nm =? ?s)%string then _ else _] =>
             destruct (nm =? s)%string
         end.

Ltac case_tac :=
  unfold_cases; world_fields; bundle_fields;
  repeat (break_if; world_fields; bundle_fields).

Lemma switch_settings (nm : string) (pr t : Qc) (isLeft : bool) (w : World) :
  settings (fst (switch_phase nm pr t isLeft w)) = settings w /\
  currentStationDisplay (fst (switch_phase nm pr t isLeft w)) =
  currentStationDisplay w.
Proof.
  unfold settings. destruct w. by_switch; case_tac; split; reflexivity.
Qed.

Lemma uma_settings (nm : string) (pr lt : Qc) (w : World) :
  settings (fst (updateMachineAnimation nm pr lt w)) = settings w.
Proof.
  unfold updateMachineAnimation. cbv zeta.
  rewrite (proj1 (switch_settings _ _ _ _ _)). destruct w; reflexivity.
Qed.

Lemma uma_display (nm : string) (pr lt : Qc) (w : World) :
  currentStationDisplay (fst (updateMachineAnimation nm pr lt w)) =
  JS.toUpperCase (getTargetStation (selectedStation w)
                    (JS.floor (cycleTime w / CYCLE_DURATION))).
Proof.
  unfold updateMachineAnimation. cbv zeta.
  rewrite (proj2 (switch_settings _ _ _ _ _)). destruct w; reflexivity.
Qed.

Lemma switch_disks (nm : string) (pr t : Qc) (isLeft : bool) (w : World) :
  disks (fst (switch_phase nm pr t isLeft w)) =
  if (nm =? "wrapping")%string then
    if isLeft
    then (leftMachineDisk_rotation_y w + JS.num 0.1, rightMachineDisk_rotation_y w)
    else (leftMachineDisk_rotation_y w, rightMachineDisk_rotation_y w + JS.num 0.1)
  else disks w.
Proof.
  destruct (nm =? "wrapping")%string eqn:Hn.
  - apply String.eqb_eq in Hn. subst nm. unfold switch_phase.
    cbn [String.eqb Ascii.eqb Bool.eqb]. destruct w. case_tac; reflexivity.
  - unfold switch_phase. rewrite Hn. destruct w. by_switch; case_tac; reflexivity.
Qed.

Lemma uma_disks (nm : string) (pr lt : Qc) (w : World) :
  disks (fst (updateMachineAnimation nm pr lt w)) =
  if (nm =? "wrapping")%string then
    if isLeft_at (selectedStation w) (cycleTime w)
    then (leftMachineDisk_rotation_y w + JS.num 0.1, rightMachineDisk_rotation_y w)
    else (leftMachineDisk_rotation_y w, rightMachineDisk_rotation_y w + JS.num 0.1)
  else disks w.
Proof.
  unfold updateMachineAnimation. cbv zeta. rewrite switch_disks.
  destruct w; reflexivity.
Qed.

Lemma animate_unpaused (delta : Qc) (w : World) :
  isPaused w = false ->
  animate delta w =
  match phase_at (cycleTime w + delta * speed w) with
  | Some p =>
      let lt := JS.rem (cycleTime w + delta * speed w) CYCLE_DURATION in
      updateMachineAnimation (name p) (phase_progress p lt) lt (tick delta w)
  | None => (tick delta w, [])
  end.
Proof.
  intros Hp. unfold animate, tick, phase_at. rewrite Hp. cbn [negb].
  destruct (Z.eqb_spec (JS.floor ((cycleTime w + delta * speed w) / CYCLE_DURATION))
                       (cycleCount w)) as [E|E]; cbn [negb].
  - rewrite <- E. reflexivity.
  - reflexivity.
Qed.

Lemma animate_paused (delta : Qc) (w : World) :
  isPaused w = true -> animate delta w = (w, []).
Proof. intros Hp. unfold animate. rewrite Hp. reflexivity. Qed.

Lemma animate_settings (delta : Qc) (w : World) :
  isPaused w = false ->
  settings (fst (animate delta w)) =
  (speed w, false, cycleTime w + delta * speed w,
   JS.floor ((cycleTime w + delta * speed w) / CYCLE_DURATION), selectedStation w).
Proof.
  intros Hp. rewrite (animate_unpaused _ _ Hp).
  destruct (phase_at _); cbv zeta; [rewrite uma_settings|];
    unfold settings, tick; destruct w; cbn in *; subst; reflexivity.
Qed.

Lemma find_phase_In (l : list Phase) (x : Qc) (p : Phase) :
  find_phase l x = Some p -> In p l /\ start p <= x < end_ p.
Proof.
  induction l as [|q l IH]; simpl; [discriminate|].
  destruct (x >=? start q) eqn:E1; simpl.
  - destruct (x <? end_ q) eqn:E2.
    + intros [= <-]. apply geb_iff in E1. apply ltb_iff in E2. auto.
    + intros H. destruct (IH H). auto.
  - intros H. destruct (IH H). auto.
Qed.

Lemma phase_at_nonneg (ct : Qc) :
  0 <= ct -> exists p, phase_at ct = Some p /\ In p PHASES.
Proof.
  intros H.
  assert (Hb : 0 <= JS.rem ct CYCLE_DURATION < CYCLE_DURATION)
    by (apply rem_bounds; [exact H | now vm_compute]).
  destruct (find_phase_tiles _ _ _ _ SingleHand_tiles Hb) as (p & Hf & Hin & _).
  exists p. split; assumption.
Qed.

Lemma animate_disks (delta : Qc) (w : World) :
  disks (fst (animate delta w)) =
  if negb (isPaused w) && phase_is "wrapping" (cycleTime w + delta * speed w)
  then if isLeft_at (selectedStation w) (cycleTime w + delta * speed w)
       then (leftMachineDisk_rotation_y w + JS.num 0.1,
             rightMachineDisk_rotation_y w)
       else (leftMachineDisk_rotation_y w,
             rightMachineDisk_rotation_y w + JS.num 0.1)
  else disks w.
Proof.
  destruct (isPaused w) eqn:Hp; cbn [negb andb].
  - rewrite (animate_paused _ _ Hp). reflexivity.
  - rewrite (animate_unpaused _ _ Hp). unfold phase_is.
    destruct (phase_at _) as [p|]; cbv zeta.
    + rewrite uma_disks. destruct w; reflexivity.
    + destruct w; reflexivity.
Qed.

Lemma animate_display (delta : Qc) (w : World) :
  isPaused w = false ->
  0 <= cycleTime w + delta * speed w ->
  currentStationDisplay (fst (animate delta w)) =
  JS.toUpperCase (getTargetStation (selectedStation w)
                    (JS.floor ((cycleTime w + delta * speed w) / CYCLE_DURATION))).
Proof.
  intros Hp Hct. rewrite (animate_unpaused _ _ Hp).
  destruct (phase_at_nonneg _ Hct) as (p & -> & _). cbv zeta.
  rewrite uma_display. destruct w; reflexivity.
Qed.

(** Outside [wrapping], the pose a case assigns does not depend on the
    world it is assigned in. *)
Lemma switch_pose_agree (p : Phase) (pr t : Qc) (isLeft : bool) (wa wb : World) :
  In p PHASES -> (name p =? "wrapping")%string = false ->
  pose (fst (switch_phase (name p) pr t isLeft wa)) =
  pose (fst (switch_phase (name p) pr t isLeft wb)).
Proof.
  intros Hin Hn. destruct wa, wb. simpl in Hin.
  repeat (destruct Hin as [<-|Hin]; [try discriminate Hn;
    unfold switch_phase; cbn [name String.eqb Ascii.eqb Bool.eqb];
    case_tac; reflexivity|]).
  contradiction.
Qed.

Lemma uma_pose_agree (p : Phase) (pr lt : Qc) (wa wb : World) :
  In p PHASES -> (name p =? "wrapping")%string = false ->
  cycleTime wa = cycleTime wb -> selectedStation wa = selectedStation wb ->
  pose (fst (updateMachineAnimation (name p) pr lt wa)) =
  pose (fst (updateMachineAnimation (name p) pr lt wb)).
Proof.
  intros Hin Hn Hct Hsel. unfold updateMachineAnimation. cbv zeta.
  rewrite Hct, Hsel. apply switch_pose_agree; assumption.
Qed.

End SingleHandFacts.

(** * Two frames with [delta = 0] *)

Module SingleHandTwice.
Import SingleHand SingleHandFacts.

Lemma shift_twice (side : TraySide) (arr : list Bundle) :
  (length arr <= 9)%nat ->
  fst (shift_if_too_many side (fst (shift_if_too_many side arr))) =
  fst (shift_if_too_many side arr).
Proof.
  intros H. unfold shift_if_too_many at 2 3.
  destruct (8 <? length arr)%nat eqn:E.
  - destruct arr as [|b rest]; [discriminate E|]. cbn [fst].
    unfold shift_if_too_many.
    assert (E' : (8 <? length rest)%nat = false)
      by (apply Nat.ltb_ge; simpl in H; lia).
    rewrite E'. reflexivity.
  - cbn [fst]. unfold shift_if_too_many. rewrite E. reflexivity.
Qed.

Lemma case_reset_twice (t : Qc) (isLeft : bool) (w : World) :
  let s1 := fst (case_reset t isLeft w) in
  let s2 := fst (case_reset t isLeft s1) in
  repeatable s1 s2 /\
  ((length (leftBundles w) <= 9)%nat -> leftBundles s2 = leftBundles s1) /\
  ((length (rightBundles w) <= 9)%nat -> rightBundles s2 = rightBundles s1).
Proof.
  cbv zeta. unfold case_reset, repeatable.
  destruct w as [sp pa ct cc sel dsp rot j0 j1 ld rd lb rb cb cw nid].
  unfold_cases. world_fields.
  pose proof (shift_twice LeftTray lb) as HL.
  pose proof (shift_twice RightTray rb) as HR.
  destruct (shift_if_too_many LeftTray lb) as [l cl].
  destruct (shift_if_too_many RightTray rb) as [r cr].
  world_fields. cbn [fst] in HL, HR.
  destruct (shift_if_too_many LeftTray l) as [l' cl'].
  destruct (shift_if_too_many RightTray r) as [r' cr'].
  world_fields. cbn [fst] in HL, HR. unfold settings. world_fields.
  repeat split; try reflexivity; assumption.
Qed.

(** The first call is evaluated before the second is unfolded. *)
Ltac twice_leaf w :=
  destruct w as [sp pa ct cc sel dsp rot j0 j1 ld rd lb rb
                 [[i k [[| | |]|] ps ry]|] [|] nid];
  lazymatch goal with
  | |- repeatable (fst ?A) _ /\ _ =>
      let s1 := fresh "s1" in
      let Hs1 := fresh "Hs1" in
      remember (fst A) as s1 eqn:Hs1; revert Hs1
  end;
  case_tac; intros ->; unfold repeatable, settings; case_tac;
  repeat split; try reflexivity; try discriminate.

Lemma switch_twice (nm : string) (pr t : Qc) (isLeft : bool) (w : World) :
  let s1 := fst (switch_phase nm pr t isLeft w) in
  let s2 := fst (switch_phase nm pr t isLeft s1) in
  repeatable s1 s2 /\
  ((length (leftBundles w) <= 9)%nat -> leftBundles s2 = leftBundles s1) /\
  ((length (rightBundles w) <= 9)%nat -> rightBundles s2 = rightBundles s1).
Proof.
  cbv zeta. unfold switch_phase.
  destruct (nm =? "spawn")%string; [twice_leaf w|].
  destruct (nm =? "pick")%string; [twice_leaf w|].
  destruct (nm =? "transport_to_wrapper")%string; [twice_leaf w|].
  destruct (nm =? "insert_wrapper")%string; [twice_leaf w|].
  destruct (nm =? "wrapping")%string; [twice_leaf w|].
  destruct (nm =? "exit_wrapper")%string; [twice_leaf w|].
  destruct (nm =? "transport_to_tray")%string; [twice_leaf w|].
  destruct (nm =? "place_in_tray")%string; [twice_leaf w|].
  destruct (nm =? "reset")%string; [apply case_reset_twice | twice_leaf w].
Qed.

Lemma set_display_same (s : World) :
  set_display (currentStationDisplay s) s = s.
Proof. destruct s; reflexivity. Qed.

Lemma uma_twice (nm : string) (pr lt : Qc) (w : World) :
  let s1 := fst (updateMachineAnimation nm pr lt w) in
  let s2 := fst (updateMachineAnimation nm pr lt s1) in
  repeatable s1 s2 /\
  ((length (leftBundles w) <= 9)%nat -> leftBundles s2 = leftBundles s1) /\
  ((length (rightBundles w) <= 9)%nat -> rightBundles s2 = rightBundles s1).
Proof.
  cbv zeta.
  set (t := easeInOutCubic pr).
  set (target := getTargetStation (selectedStation w)
                   (JS.floor (cycleTime w / CYCLE_DURATION))).
  set (w' := set_display (JS.toUpperCase target) w).
  assert (E1 : updateMachineAnimation nm pr lt w =
               switch_phase nm pr t (target =? "left")%string w') by reflexivity.
  rewrite E1. set (s1 := fst (switch_phase nm pr t (target =? "left")%string w')).
  assert (E2 : updateMachineAnimation nm pr lt s1 =
               switch_phase nm pr t (target =? "left")%string s1).
  { destruct (switch_settings nm pr t (target =? "left")%string w') as [Hs Hd].
    fold s1 in Hs, Hd. unfold updateMachineAnimation. cbv zeta.
    assert (Hsel : selectedStation s1 = selectedStation w)
      by (unfold settings in Hs; destruct w; cbn in *; congruence).
    assert (Hct : cycleTime s1 = cycleTime w)
      by (unfold settings in Hs; destruct w; cbn in *; congruence).
    rewrite Hsel, Hct. fold target. fold t.
    replace (JS.toUpperCase target) with (currentStationDisplay s1)
      by (rewrite Hd; destruct w; reflexivity).
    rewrite set_display_same. reflexivity. }
  rewrite E2.
  change (leftBundles w) with (leftBundles w').
  change (rightBundles w) with (rightBundles w').
  apply switch_twice.
Qed.

Lemma zero_delta (x s : Qc) : x + 0 * s = x.
Proof. ring. Qed.

Lemma tick_zero_same (s : World) :
  cycleCount s = JS.floor (cycleTime s / CYCLE_DURATION) -> tick 0 s = s.
Proof.
  intros H. unfold tick. cbv zeta. rewrite zero_delta, <- H.
  destruct s; reflexivity.
Qed.

Lemma animate_zero_twice (w : World) :
  let s1 := fst (animate 0 w) in
  let s2 := fst (animate 0 s1) in
  repeatable s1 s2 /\
  ((length (leftBundles w) <= 9)%nat -> leftBundles s2 = leftBundles s1) /\
  ((length (rightBundles w) <= 9)%nat -> rightBundles s2 = rightBundles s1).
Proof.
  cbv zeta. destruct (isPaused w) eqn:Hp.
  - rewrite (animate_paused _ _ Hp). cbn [fst]. rewrite (animate_paused _ _ Hp).
    unfold repeatable. repeat split; reflexivity.
  - pose proof (animate_settings 0 w Hp) as Hs. rewrite zero_delta in Hs.
    assert (Hp1 : isPaused (fst (animate 0 w)) = false)
      by (unfold settings in Hs; congruence).
    assert (Hct : cycleTime (fst (animate 0 w)) = cycleTime w)
      by (unfold settings in Hs; congruence).
    assert (Hcc : cycleCount (fst (animate 0 w)) =
                  JS.floor (cycleTime (fst (animate 0 w)) / CYCLE_DURATION))
      by (rewrite Hct; unfold settings in Hs; congruence).
    rewrite (animate_unpaused 0 _ Hp1). rewrite (tick_zero_same _ Hcc).
    rewrite zero_delta, Hct. clear Hs Hp1 Hct Hcc.
    rewrite (animate_unpaused 0 _ Hp). rewrite zero_delta.
    destruct (phase_at (cycleTime w)) as [p|]; cbv zeta.
    + set (w1 := tick 0 w).
      change (leftBundles w) with (leftBundles w1).
      change (rightBundles w) with (rightBundles w1).
      apply uma_twice.
    + cbn [fst]. unfold repeatable. repeat split; reflexivity.
Qed.

End SingleHandTwice.

(** * The two-arm program: the disks *)

Module TwoHandFacts.
Import TwoHand.

Ltac side_tac :=
  cbv [both wrapping_process side_spawn side_pick side_transport side_insert
       side_wrapping_turn side_wrapping_convert side_exit side_to_trays
       side_place side_reset set_pose set_disk set_current set_bundle set_tray
       disks];
  cbn [left right nextId speed isPaused cycleTime cycleCount
       armPivot_rotation_y gripperJaws0_x gripperJaws1_x machineDisk_rotation_y
       bundles bundle bundleWrapped count fst snd andb negb].

Ltac break_side :=
  match goal with
  | |- context [match ?o with Some _ => _ | None => _ end] =>
      is_var o; destruct o
  | |- context [negb ?b] => is_var b; destruct b
  | |- context [andb (JS.gtb ?x ?y) _] => destruct (JS.gtb x y) eqn:?
  | |- context [if JS.ltb ?x ?y then _ else _] => destruct (JS.ltb x y) eqn:?
  | |- context [if JS.gtb ?x ?y then _ else _] => destruct (JS.gtb x y) eqn:?
  | |- context [if parent_is_not ?b ?n then _ else _] =>
      destruct (parent_is_not b n) eqn:?
  | |- context [let '(_, _) := shift_if_too_many ?s ?l in _] =>
      destruct (shift_if_too_many s l) eqn:?
  end.

Lemma two_hand_uma_disks (nm : string) (pr lt : Qc) (w : World) :
  disks (fst (updateMachineAnimation nm pr lt w)) =
  if (nm =? "wrapping_process")%string
  then (machineDisk_rotation_y (left w) + JS.num 0.15,
        machineDisk_rotation_y (right w) + JS.num 0.15)
  else disks w.
Proof.
  destruct w as [sp pa ct cc [lr lj0 lj1 ld lbs lb lw lc]
                              [rr rj0 rj1 rd rbs rb rw rc] n].
  destruct (nm =? "wrapping_process")%string eqn:Hn.
  - apply String.eqb_eq in Hn. subst nm. unfold updateMachineAnimation.
    cbn [String.eqb Ascii.eqb Bool.eqb]. side_tac.
    repeat (break_side; side_tac); reflexivity.
  - unfold updateMachineAnimation. rewrite Hn.
    repeat match goal with
           | |- context [if (?nm =? ?s)%string then _ else _] =>
               destruct (nm =? s)%string
           end;
    side_tac; repeat (break_side; side_tac); reflexivity.
Qed.

Lemma two_hand_animate_disks (delta : Qc) (w : World) :
  disks (fst (animate delta w)) =
  if negb (isPaused w) &&
     phase_is "wrapping_process" (cycleTime w + delta * speed w)
  then (machineDisk_rotation_y (left w) + JS.num 0.15,
        machineDisk_rotation_y (right w) + JS.num 0.15)
  else disks w.
Proof.
  unfold animate, phase_is, phase_at.
  destruct (isPaused w); cbn [negb andb]; [reflexivity|].
  destruct (find_phase PHASES _) as [p|]; cbv zeta.
  - rewrite two_hand_uma_disks. reflexivity.
  - reflexivity.
Qed.

End TwoHandFacts.

(** * The claims about frames, elapsed time and the target *)

(** Closing a goal about concrete runs: by evaluation, numbers up to their
    canonical form. *)
Ltac splits := repeat match goal with |- _ /\ _ => split end.
Ltac evaluate :=
  cbv zeta; splits;
  lazymatch goal with
  | |- @eq Qc _ _ => apply Qc_is_canon; vm_compute; reflexivity
  | |- @eq _ _ _ => vm_compute; reflexivity
  | |- _ => now vm_compute
  end.

Module SingleHandClaims.
Import SingleHand SingleHandFacts SingleHandTwice.

(** C3, as stated, fails: two runs with the same speed and selection reach
    the same elapsed time, 0.25 s; the one that sampled a frame at 0 holds a
    bundle, the one that did not holds none. *)
Lemma same_elapsed_different_ownership :
  let a := fst (run [JS.num 0; JS.num 0.25] init) in
  let b := fst (run [JS.num 0.25] init) in
  cycleTime a = cycleTime b /\ speed a = speed b /\
  selectedStation a = selectedStation b /\
  option_map bid (currentBundle a) = Some 4%nat /\
  currentBundle b = None.
Proof.
  evaluate.
Qed.

(** C3, amended: outside the [wrapping] phase the pose of the arm (pivot
    angle and both jaws) after a frame is a function of the elapsed time
    and the selected station: two frames that reach the same [cycleTime]
    under the same selection leave the same pose, whatever the worlds they
    started from. *)
Theorem pose_is_a_function_of_elapsed (d1 d2 : Qc) (w1 w2 : World) :
  isPaused w1 = false -> isPaused w2 = false ->
  selectedStation w1 = selectedStation w2 ->
  cycleTime w1 + d1 * speed w1 = cycleTime w2 + d2 * speed w2 ->
  0 <= cycleTime w1 + d1 * speed w1 ->
  phase_is "wrapping" (cycleTime w1 + d1 * speed w1) = false ->
  pose (fst (animate d1 w1)) = pose (fst (animate d2 w2)).
Proof.
  intros Hp1 Hp2 Hsel Hct Hpos Hnw.
  rewrite (animate_unpaused _ _ Hp1), (animate_unpaused _ _ Hp2). rewrite <- Hct.
  destruct (phase_at_nonneg _ Hpos) as (p & Hph & Hin).
  unfold phase_is in Hnw. rewrite Hph in *. cbv zeta.
  apply uma_pose_agree; assumption.
Qed.

(** One frame of 2 s from the start, and a frame of 1 s after frames at 0
    and 1 s, both end at 2 s, in [transport_to_wrapper]. *)
Lemma pose_is_a_function_of_elapsed_witness :
  pose (fst (animate (JS.num 2) init)) =
  pose (fst (animate (JS.num 1) (fst (run [JS.num 0; JS.num 1] init)))).
Proof.
  apply pose_is_a_function_of_elapsed.
  - reflexivity.
  - reflexivity.
  - reflexivity.
  - apply Qc_is_canon. vm_compute. reflexivity.
  - now vm_compute.
  - vm_compute. reflexivity.
Defined.

(** C4, as stated, fails: at 4 s, in [wrapping], each of two frames with
    [delta = 0] turns the disk of the left machine by 0.1. *)
Lemma zero_delta_frames_turn_the_disk :
  let w := fst (run [JS.num 0; JS.num 4] init) in
  let s1 := fst (animate 0 w) in
  let s2 := fst (animate 0 s1) in
  cycleTime s2 = cycleTime s1 /\
  this (leftMachineDisk_rotation_y s1) = (1 # 5)%Q /\
  this (leftMachineDisk_rotation_y s2) = (3 # 10)%Q.
Proof.
  evaluate.
Qed.

(** C4, amended: the second of two frames with [delta = 0] leaves the
    clock, the settings, the station display, the pose, the bundle in
    flight, its wrapped flag and the object counter as the first left them;
    it leaves a tray as it was when the tray held at most 9 bundles before
    the two frames; and it leaves the disks as they were except in the
    [wrapping] phase, where the disk of the target machine turns by 0.1
    again. *)
Theorem zero_delta_twice (w : World) :
  let s1 := fst (animate 0 w) in
  let s2 := fst (animate 0 s1) in
  repeatable s1 s2 /\
  ((length (leftBundles w) <= 9)%nat -> leftBundles s2 = leftBundles s1) /\
  ((length (rightBundles w) <= 9)%nat -> rightBundles s2 = rightBundles s1) /\
  disks s2 =
    if negb (isPaused w) && phase_is "wrapping" (cycleTime w)
    then if isLeft_at (selectedStation w) (cycleTime w)
         then (leftMachineDisk_rotation_y s1 + JS.num 0.1,
               rightMachineDisk_rotation_y s1)
         else (leftMachineDisk_rotation_y s1,
               rightMachineDisk_rotation_y s1 + JS.num 0.1)
    else disks s1.
Proof.
  cbv zeta. destruct (animate_zero_twice w) as (Hr & Hl & Hrt).
  repeat split; try assumption.
  - apply Hr.
  - apply Hr.
  - apply Hr.
  - apply Hr.
  - apply Hr.
  - apply Hr.
  - rewrite animate_disks. destruct (isPaused w) eqn:Hp.
    + rewrite (animate_paused _ _ Hp). cbn [fst negb andb]. rewrite Hp. reflexivity.
    + pose proof (animate_settings 0 w Hp) as Hs. rewrite zero_delta in Hs.
      unfold settings in Hs.
      injection Hs as Hsp Hpa Hct Hcc Hsel.
      rewrite Hpa, Hct, Hsp, Hsel, zero_delta. reflexivity.
Qed.

(** From the start: both trays are empty. *)
Lemma zero_delta_twice_witness :
  leftBundles (fst (animate 0 (fst (animate 0 init)))) =
  leftBundles (fst (animate 0 init)).
Proof.
  apply (proj1 (proj2 (zero_delta_twice init))). vm_compute. lia.
Defined.

(** C6, as stated, fails: at 2 s of cycle 0 the target is the left
    station; the station select is set to "right"; the next frame, still
    in cycle 0, has the right station as target and swings the arm to the
    other side. *)
Lemma target_changes_mid_cycle :
  let w := fst (run (frames (JS.num 0.125) 16) init) in
  let w' := fst (animate (JS.num 0.125) (on_stationSelect "right" w)) in
  cycleCount w = 0%Z /\ currentStationDisplay w = "LEFT"%string /\
  0 < centerPivot_rotation_y w /\
  cycleCount w' = 0%Z /\ currentStationDisplay w' = "RIGHT"%string /\
  centerPivot_rotation_y w' < 0.
Proof.
  evaluate.
Qed.

(** C6, amended: every frame computes the target anew, from the cycle
    number [floor (cycleTime / CYCLE_DURATION)] and the value of
    [selectedStation] at that frame.  So two frames of the same cycle under
    the same selection have the same target, and a frame that follows a
    change of the selection to "left" or "right" has the new target, in the
    middle of a cycle too. *)
Theorem target_is_computed_every_frame :
  (forall (delta : Qc) (w : World),
      isPaused w = false -> 0 <= cycleTime w + delta * speed w ->
      currentStationDisplay (fst (animate delta w)) =
      JS.toUpperCase
        (getTargetStation (selectedStation w)
           (JS.floor ((cycleTime w + delta * speed w) / CYCLE_DURATION)))) /\
  (forall (d1 d2 : Qc) (w1 w2 : World),
      isPaused w1 = false -> isPaused w2 = false ->
      0 <= cycleTime w1 + d1 * speed w1 -> 0 <= cycleTime w2 + d2 * speed w2 ->
      selectedStation w1 = selectedStation w2 ->
      cycleCount (fst (animate d1 w1)) = cycleCount (fst (animate d2 w2)) ->
      currentStationDisplay (fst (animate d1 w1)) =
      currentStationDisplay (fst (animate d2 w2))) /\
  (forall (delta : Qc) (w : World) (value : string),
      isPaused w = false -> 0 <= cycleTime w + delta * speed w ->
      value = "left"%string \/ value = "right"%string ->
      currentStationDisplay (fst (animate delta (on_stationSelect value w))) =
      JS.toUpperCase value).
Proof.
  split; [|split].
  - intros delta w Hp Hct. apply animate_display; assumption.
  - intros d1 d2 w1 w2 Hp1 Hp2 H1 H2 Hsel Hcc.
    rewrite (animate_display _ _ Hp1 H1), (animate_display _ _ Hp2 H2).
    pose proof (animate_settings d1 w1 Hp1) as S1.
    pose proof (animate_settings d2 w2 Hp2) as S2.
    unfold settings in S1, S2.
    injection S1 as _ _ _ C1 _. injection S2 as _ _ _ C2 _.
    rewrite <- C1, <- C2, Hcc, Hsel. reflexivity.
  - intros delta w value Hp Hct Hv.
    rewrite animate_display.
    + destruct Hv as [-> | ->]; reflexivity.
    + destruct w; exact Hp.
    + destruct w; exact Hct.
Qed.

(** The select is set to "right" at 2 s of cycle 0. *)
Lemma target_is_computed_every_frame_witness :
  currentStationDisplay
    (fst (animate (JS.num 0.125)
            (on_stationSelect "right"
               (fst (run (frames (JS.num 0.125) 16) init))))) =
  JS.toUpperCase "right".
Proof.
  apply (proj2 (proj2 target_is_computed_every_frame)).
  - reflexivity.
  - now vm_compute.
  - right. reflexivity.
Defined.

End SingleHandClaims.

(** C8, as stated, fails.  A frame in [transport_to_wrapper] advances the
    elapsed time and leaves both disks where they were; and two runs that
    reach 4 s, one with a single frame in [wrapping] and one with three,
    leave the left disk at 0.1 and at 0.3. *)
Lemma disk_is_not_driven_by_elapsed_time :
  let w := fst (SingleHand.run (frames (JS.num 0.125) 16) SingleHand.init) in
  let w' := fst (SingleHand.animate (JS.num 0.125) w) in
  let a := fst (SingleHand.run [JS.num 0; JS.num 4] SingleHand.init) in
  let b := fst (SingleHand.run [JS.num 0; JS.num 3.75; JS.num 0.125; JS.num 0.125]
                               SingleHand.init) in
  SingleHand.cycleTime w < SingleHand.cycleTime w' /\
  SingleHand.disks w' = SingleHand.disks w /\
  SingleHand.cycleTime a = SingleHand.cycleTime b /\
  this (SingleHand.leftMachineDisk_rotation_y a) = (1 # 10)%Q /\
  this (SingleHand.leftMachineDisk_rotation_y b) = (3 # 10)%Q.
Proof.
  evaluate.
Qed.

(** C8, amended: the angle of a disk counts frames, not time.  In the
    single-arm program a frame that is not paused and falls in the
    [wrapping] phase turns the disk of the target machine by 0.1, and every
    other frame leaves both disks where they were; in the two-arm program
    a frame in [wrapping_process] turns both disks by 0.15, and every other
    frame leaves them where they were. *)
Theorem disks_turn_once_per_wrapping_frame :
  (forall (delta : Qc) (w : SingleHand.World),
      SingleHand.disks (fst (SingleHand.animate delta w)) =
      let ct := SingleHand.cycleTime w + delta * SingleHand.speed w in
      if negb (SingleHand.isPaused w) && SingleHand.phase_is "wrapping" ct
      then if SingleHand.isLeft_at (SingleHand.selectedStation w) ct
           then (SingleHand.leftMachineDisk_rotation_y w + JS.num 0.1,
                 SingleHand.rightMachineDisk_rotation_y w)
           else (SingleHand.leftMachineDisk_rotation_y w,
                 SingleHand.rightMachineDisk_rotation_y w + JS.num 0.1)
      else SingleHand.disks w) /\
  (forall (delta : Qc) (w : TwoHand.World),
      TwoHand.disks (fst (TwoHand.animate delta w)) =
      let ct := TwoHand.cycleTime w + delta * TwoHand.speed w in
      if negb (TwoHand.isPaused w) && TwoHand.phase_is "wrapping_process" ct
      then (TwoHand.machineDisk_rotation_y (TwoHand.left w) + JS.num 0.15,
            TwoHand.machineDisk_rotation_y (TwoHand.right w) + JS.num 0.15)
      else TwoHand.disks w).
Proof.
  split.
  - intros delta w. apply SingleHandFacts.animate_disks.
  - intros delta w. apply TwoHandFacts.two_hand_animate_disks.
Qed.

(** * A cycle without a bundle *)

Module SingleHandIdle.
Import SingleHand SingleHandFacts.

Lemma shift_calls_cleanup (side : TraySide) (arr : list Bundle) :
  Forall (fun c => is_cleanup c = true) (snd (shift_if_too_many side arr)).
Proof.
  unfold shift_if_too_many. destruct (8 <? length arr)%nat; [|constructor].
  destruct arr; cbn [snd]; repeat constructor.
Qed.

Lemma case_reset_idle (t : Qc) (isLeft : bool) (w : World) :
  currentBundle w = None ->
  currentBundle (fst (case_reset t isLeft w)) = None /\
  Forall (fun c => is_cleanup c = true) (snd (case_reset t isLeft w)).
Proof.
  destruct w as [sp pa ct cc sel dsp rot j0 j1 ld rd lb rb cb cw nid].
  cbn [currentBundle]. intros ->. unfold_cases. world_fields.
  pose proof (shift_calls_cleanup LeftTray lb) as HL.
  pose proof (shift_calls_cleanup RightTray rb) as HR.
  destruct (shift_if_too_many LeftTray lb) as [l cl].
  destruct (shift_if_too_many RightTray rb) as [r cr].
  world_fields. cbn [snd] in HL, HR. split.
  - reflexivity.
  - apply Forall_app. split; assumption.
Qed.

(** Without a bundle, and outside the window of [spawn], a case creates
    and moves nothing. *)
Lemma switch_idle (nm : string) (pr t : Qc) (isLeft : bool) (w : World) :
  currentBundle w = None ->
  (nm =? "spawn")%string && (pr <? JS.num 0.1) = false ->
  currentBundle (fst (switch_phase nm pr t isLeft w)) = None /\
  Forall (fun c => is_cleanup c = true) (snd (switch_phase nm pr t isLeft w)).
Proof.
  intros Hb Hw. unfold switch_phase.
  destruct (nm =? "spawn")%string.
  { cbn [andb] in Hw. unfold case_spawn. rewrite Hb, Hw.
    split; [exact Hb|constructor]. }
  do 7 (lazymatch goal with
        | |- currentBundle (fst (if ?c then _ else _)) = _ /\ _ =>
            destruct c;
            [ destruct w as [sp pa ct cc sel dsp rot j0 j1 ld rd lb rb cb cw nid];
              cbn [currentBundle] in Hb; subst cb; case_tac;
              (split; [reflexivity|apply Forall_nil]) |]
        end).
  destruct (nm =? "reset")%string.
  { apply case_reset_idle. exact Hb. }
  split; [exact Hb|constructor].
Qed.

Lemma animate_idle (delta : Qc) (w : World) :
  isPaused w = false -> currentBundle w = None ->
  in_spawn_window (cycleTime w + delta * speed w) = false ->
  currentBundle (fst (animate delta w)) = None /\
  Forall (fun c => is_cleanup c = true) (snd (animate delta w)).
Proof.
  intros Hp Hb Hw. rewrite (animate_unpaused _ _ Hp).
  unfold in_spawn_window in Hw.
  destruct (phase_at _) as [p|]; cbv zeta.
  - unfold updateMachineAnimation. cbv zeta. apply switch_idle; [exact Hb|exact Hw].
  - split; [exact Hb|constructor].
Qed.

Lemma run_idle (deltas : list Qc) (w : World) :
  isPaused w = false -> currentBundle w = None ->
  misses_spawn_window (speed w) (cycleTime w) deltas = true ->
  Forall (fun s => currentBundle s = None) (states deltas w) /\
  Forall (fun c => is_cleanup c = true) (snd (run deltas w)).
Proof.
  revert w. induction deltas as [|d rest IH]; intros w Hp Hb Hm.
  - split; constructor.
  - cbn [misses_spawn_window] in Hm. apply andb_true_iff in Hm.
    destruct Hm as [Hw Hm]. apply negb_true_iff in Hw.
    destruct (animate_idle d w Hp Hb Hw) as [Hb1 Hc1].
    pose proof (animate_settings d w Hp) as Hs. unfold settings in Hs.
    injection Hs as Hsp Hpa Hct _ _.
    cbn [states run]. destruct (animate d w) as [w1 c1] eqn:E.
    cbn [fst snd] in *.
    rewrite <- Hct, <- Hsp in Hm.
    destruct (IH w1 Hpa Hb1 Hm) as [Hst Hcs].
    destruct (run rest w1) as [w2 c2]. cbn [snd] in *. split.
    + constructor; assumption.
    + apply Forall_app. split; assumption.
Qed.

(** Only the [spawn] case creates a raw bundle, and only in its window. *)
Ltac not_raw_list :=
  repeat (apply Forall_cons; [intros ?; discriminate|]); apply Forall_nil.

Lemma cleanup_not_raw (calls : list Call) :
  Forall (fun c => is_cleanup c = true) calls -> Forall not_raw calls.
Proof.
  apply Forall_impl. intros c H id ->. discriminate H.
Qed.

Lemma switch_no_create (nm : string) (pr t : Qc) (isLeft : bool) (w : World) :
  (nm =? "spawn")%string = false ->
  Forall not_raw (snd (switch_phase nm pr t isLeft w)).
Proof.
  intros Hn. unfold switch_phase. rewrite Hn.
  do 7 (lazymatch goal with
        | |- Forall _ (snd (if ?c then _ else _)) =>
            destruct c;
            [ destruct w as [sp pa ct cc sel dsp rot j0 j1 ld rd lb rb
                             [[i k [[| | |]|] ps ry]|] [|] nid];
              case_tac; not_raw_list |]
        end).
  destruct (nm =? "reset")%string; [|apply Forall_nil].
  unfold case_reset. cbv zeta.
  pose proof (shift_calls_cleanup LeftTray
                (leftBundles (set_pose
                   ((if isLeft then JS.PI / JS.num 2 + JS.PI / JS.num 4
                     else - JS.PI / JS.num 2 - JS.PI / JS.num 4) -
                    t * (if isLeft then JS.PI / JS.num 2 + JS.PI / JS.num 4
                         else - JS.PI / JS.num 2 - JS.PI / JS.num 4))
                   (JS.num (-0.35)) (JS.num 0.35) w))) as HL.
  pose proof (shift_calls_cleanup RightTray
                (rightBundles (set_pose
                   ((if isLeft then JS.PI / JS.num 2 + JS.PI / JS.num 4
                     else - JS.PI / JS.num 2 - JS.PI / JS.num 4) -
                    t * (if isLeft then JS.PI / JS.num 2 + JS.PI / JS.num 4
                         else - JS.PI / JS.num 2 - JS.PI / JS.num 4))
                   (JS.num (-0.35)) (JS.num 0.35) w))) as HR.
  destruct (shift_if_too_many LeftTray _) as [l cl].
  destruct (shift_if_too_many RightTray _) as [r cr].
  cbn [snd] in *. apply Forall_app. split; apply cleanup_not_raw; assumption.
Qed.

Lemma switch_create (nm : string) (pr t : Qc) (isLeft : bool) (w : World)
    (id : nat) :
  In (CreateRawBundle id) (snd (switch_phase nm pr t isLeft w)) ->
  (nm =? "spawn")%string && (pr <? JS.num 0.1) = true /\ currentBundle w = None.
Proof.
  destruct (nm =? "spawn")%string eqn:Hn.
  - unfold switch_phase. rewrite Hn. unfold case_spawn.
    destruct (currentBundle w) eqn:Hb.
    + cbn [snd]. intros [].
    + destruct (pr <? JS.num 0.1); cbn [snd andb]; [auto|intros []].
  - intros H. pose proof (switch_no_create nm pr t isLeft w Hn) as Hf.
    rewrite Forall_forall in Hf. exfalso. exact (Hf _ H id eq_refl).
Qed.

Lemma animate_create (delta : Qc) (w : World) (id : nat) :
  In (CreateRawBundle id) (snd (animate delta w)) ->
  isPaused w = false /\ currentBundle w = None /\
  in_spawn_window (cycleTime w + delta * speed w) = true.
Proof.
  destruct (isPaused w) eqn:Hp.
  - rewrite (animate_paused _ _ Hp). intros [].
  - rewrite (animate_unpaused _ _ Hp). unfold in_spawn_window.
    destruct (phase_at _) as [p|]; cbv zeta; [|intros []].
    unfold updateMachineAnimation. cbv zeta. intros H.
    apply switch_create in H. destruct H as [Hw Hb].
    repeat split; [|exact Hw]. destruct w; exact Hb.
Qed.

End SingleHandIdle.

(** C10: a raw bundle is created only by a frame that is not paused, finds
    no bundle in flight and falls in the [spawn] phase with progress below
    0.1.  And in any run of frames none of which falls there, started with
    no bundle in flight, there is no bundle in flight after any frame, and
    the frames make no call but those of the tray clean-up: nothing is
    created, attached, moved or pushed on a tray. *)
Theorem no_spawn_sample_no_bundle :
  (forall (delta : Qc) (w : SingleHand.World) (id : nat),
      In (CreateRawBundle id) (snd (SingleHand.animate delta w)) ->
      SingleHand.isPaused w = false /\ SingleHand.currentBundle w = None /\
      SingleHand.in_spawn_window
        (SingleHand.cycleTime w + delta * SingleHand.speed w) = true) /\
  (forall (deltas : list Qc) (w : SingleHand.World),
      SingleHand.isPaused w = false -> SingleHand.currentBundle w = None ->
      SingleHand.misses_spawn_window
        (SingleHand.speed w) (SingleHand.cycleTime w) deltas = true ->
      Forall (fun s => SingleHand.currentBundle s = None)
             (SingleHand.states deltas w) /\
      Forall (fun c => is_cleanup c = true) (snd (SingleHand.run deltas w))).
Proof.
  split.
  - apply SingleHandIdle.animate_create.
  - apply SingleHandIdle.run_idle.
Qed.

(** A cycle whose first frame is at 0.1 s, then every 0.1 s up to 7.9 s:
    the progress in [spawn] is never below 0.2. *)
Lemma no_spawn_sample_no_bundle_witness :
  Forall (fun s => SingleHand.currentBundle s = None)
         (SingleHand.states (repeat (JS.num 0.1) 79) SingleHand.init) /\
  Forall (fun c => is_cleanup c = true)
         (snd (SingleHand.run (repeat (JS.num 0.1) 79) SingleHand.init)).
Proof.
  apply (proj2 no_spawn_sample_no_bundle).
  - reflexivity.
  - reflexivity.
  - vm_compute. reflexivity.
Defined.

(** * The trays *)

Section Trays.

(** The tray the lemmas are about. *)
Variable side : TraySide.



End Trays.

Module SingleHandTrays.
Import SingleHand SingleHandFacts.

(** The bundle as [place_in_tray] leaves it in the tray.  Of the fields of
    [placed], [rotation_y] is that of the model only (see [node_attach]). *)
Lemma case_place_appends (t : Qc) (isLeft : bool) (w : World) (b : Bundle) :
  currentBundle w = Some b -> (t >? JS.num 0.5) = true ->
  let w' := fst (case_place_in_tray t isLeft w) in
  let arr := if isLeft then leftBundles w else rightBundles w in
  let cfg := if isLeft then leftTray else rightTray in
  let slotIndex := Z.of_nat (length arr) in
  let p := vec3 (tx cfg + (slot_col slotIndex * JS.num 0.7 - JS.num 1.05))
                (ty cfg + JS.num 0.6)
                (tz cfg +
                 (JS.of_Z (slot_row slotIndex) * JS.num 0.7 - JS.num 0.35)) in
  let placed := mkBundle (bid b) (kind b) (Some Scene) p (rotation_y b) in
  (if isLeft then leftBundles w' else rightBundles w') = arr ++ [placed] /\
  (if isLeft then rightBundles w' else leftBundles w') =
    (if isLeft then rightBundles w else leftBundles w) /\
  currentBundle w' = None /\
  snd (case_place_in_tray t isLeft w) =
    [Attach Scene (bid b); PositionSet (bid b) p;
     Push (if isLeft then LeftTray else RightTray) (bid b)].
Proof.
  destruct w as [sp pa ct cc sel dsp rot j0 j1 ld rd lb rb cb cw nid].
  cbn [currentBundle]. intros -> Ht. cbv zeta.
  unfold case_place_in_tray. unfold_cases. world_fields. rewrite Ht.
  destruct isLeft; world_fields; bundle_fields; repeat split; reflexivity.
Qed.

Lemma case_reset_trays (t : Qc) (isLeft : bool) (w : World) :
  leftBundles (fst (case_reset t isLeft w)) =
    fst (shift_if_too_many LeftTray (leftBundles w)) /\
  rightBundles (fst (case_reset t isLeft w)) =
    fst (shift_if_too_many RightTray (rightBundles w)) /\
  snd (case_reset t isLeft w) =
    snd (shift_if_too_many LeftTray (leftBundles w)) ++
    snd (shift_if_too_many RightTray (rightBundles w)).
Proof.
  destruct w as [sp pa ct cc sel dsp rot j0 j1 ld rd lb rb cb cw nid].
  unfold case_reset. unfold_cases. world_fields.
  destruct (shift_if_too_many LeftTray lb), (shift_if_too_many RightTray rb).
  world_fields. repeat split; reflexivity.
Qed.

End SingleHandTrays.

(** * The trays of the single-arm program as queues *)



Module SingleHandQueueFacts.
Import SingleHand SingleHandFacts SingleHandQueue.







(** ** The queue law *)







(** ** One bundle beyond the capacity *)



End SingleHandQueueFacts.




(** C9: with 8 bundles in the tray the next one gets slot index 8, that
    is row 2 and column 0, a row beyond the two rows of the tray: the
    bundle is appended to the tray as a child of the scene at the position
    of that slot, and the frame that places it shifts nothing out: the
    clean-up belongs to [reset].  Such a state is reached: after eight
    cycles and 7.375 s of the ninth, in frames of 0.125 s toward the left
    tray, the tray holds nine bundles and the ninth lies in row 2. *)
Theorem ninth_bundle_lies_beyond_the_last_row :
  (slot_row 8 = 2%Z /\ slot_col 8 = 0 /\
   (SingleHand.rows SingleHand.leftTray <= slot_row 8)%Z)
  /\
  (forall (t : Qc) (w : SingleHand.World) (b : Bundle),
      SingleHand.currentBundle w = Some b -> (t >? JS.num 0.5) = true ->
      length (SingleHand.leftBundles w) = 8%nat ->
      let p := vec3 (SingleHand.tx SingleHand.leftTray +
                     (slot_col 8 * JS.num 0.7 - JS.num 1.05))
                    (SingleHand.ty SingleHand.leftTray + JS.num 0.6)
                    (SingleHand.tz SingleHand.leftTray +
                     (JS.of_Z (slot_row 8) * JS.num 0.7 - JS.num 0.35)) in
      (exists b',
         SingleHand.leftBundles (fst (SingleHand.case_place_in_tray t true w)) =
           SingleHand.leftBundles w ++ [b'] /\
         bid b' = bid b /\ parent b' = Some Scene /\ position b' = p) /\
      count_calls is_shift (snd (SingleHand.case_place_in_tray t true w)) = 0%nat)
  /\
  (let w := fst (SingleHand.run (frames (JS.num 0.125) 571) SingleHand.init) in
   this (SingleHand.cycleTime w) = (571 # 8)%Q /\
   map bid (SingleHand.leftBundles w) = [5; 7; 9; 11; 13; 15; 17; 19; 21]%nat /\
   map position (skipn 8 (SingleHand.leftBundles w)) =
     [vec3 (SingleHand.tx SingleHand.leftTray +
            (JS.of_Z 0 * JS.num 0.7 - JS.num 1.05))
           (SingleHand.ty SingleHand.leftTray + JS.num 0.6)
           (SingleHand.tz SingleHand.leftTray +
            (JS.of_Z 2 * JS.num 0.7 - JS.num 0.35))]).
Proof.
  split.
  { split; [reflexivity|]. split; [apply Qc_is_canon; reflexivity|].
    vm_compute. discriminate. }
  split.
  { intros t w b Hb Ht Hlen. cbv zeta.
    destruct (SingleHandTrays.case_place_appends t true w b Hb Ht)
      as (H1 & _ & _ & H4).
    cbv zeta in H1, H4. rewrite Hlen in H1, H4. split.
    - eexists. split; [exact H1|]. repeat split.
    - rewrite H4. reflexivity. }
  cbv zeta. repeat split; vm_compute; reflexivity.
Qed.

(** The world one frame before the ninth placement, at 71.25 s: eight
    bundles in the left tray and the ninth in the gripper. *)
Lemma ninth_bundle_lies_beyond_the_last_row_witness :
  let w := fst (SingleHand.run (frames (JS.num 0.125) 570) SingleHand.init) in
  count_calls is_shift (snd (SingleHand.case_place_in_tray 1 true w)) = 0%nat.
Proof.
  cbv zeta.
  destruct (SingleHand.currentBundle
              (fst (SingleHand.run (frames (JS.num 0.125) 570) SingleHand.init)))
    as [b|] eqn:Hb; [|vm_compute in Hb; discriminate Hb].
  apply (proj1 (proj2 ninth_bundle_lies_beyond_the_last_row) 1 _ b Hb).
  - vm_compute. reflexivity.
  - vm_compute. reflexivity.
Defined.

(** * Call counts and the reference scenario *)

Module Scenario.
Import SingleHand.

(** C1 holds for [insert_wrapper] and [place_in_tray] and fails for [pick]
    and [exit_wrapper], in both programs.  Past the threshold [pick] and
    [exit_wrapper] attach the bundle and set its position whatever its
    parent is, so the calls are made again on every frame, while
    [insert_wrapper] makes no call for a bundle that is a child of the
    scene already.  With progress stepped from 0 to 0.9 by 0.1 the pivot
    attaches the bundle 4 times, and 49 times with steps of 0.01; the scene
    attaches it once (twice in the two-arm program, once for each
    bundle). *)
Theorem attach_is_called_on_every_frame_past_the_threshold :
  let spawned := fst (animate (JS.num 0) init) in
  let picked := fst (traverse "pick" (progress_steps 10) spawned) in
  let spawned2 := fst (TwoHand.animate (JS.num 0) TwoHand.init) in
  let picked2 :=
    fst (TwoHand.traverse "simultaneous_pick" (progress_steps 10) spawned2) in
  (forall (t : Qc) (w : World) (b : Bundle),
      snd (case_pick t (set_bundle b w)) =
      if t >? JS.num 0.5
      then [Attach CenterPivot (bid b);
            PositionSet (bid b) (vec3 (JS.num 0) (JS.num 0.2) (JS.num (-4.75)))]
      else []) /\
  (forall (t : Qc) (isLeft : bool) (w : World) (b : Bundle),
      snd (case_exit_wrapper t isLeft (set_bundle b w)) =
      if t >? JS.num 0.5
      then [Attach CenterPivot (bid b);
            PositionSet (bid b) (vec3 (JS.num 0) (JS.num 0.2) (JS.num (-4.75)))]
      else []) /\
  (forall (t : Qc) (isLeft : bool) (w : World) (b : Bundle),
      parent b = Some Scene ->
      snd (case_insert_wrapper t isLeft (set_bundle b w)) = []) /\
  count_calls (is_attach CenterPivot)
    (snd (traverse "pick" (progress_steps 10) spawned)) = 4%nat /\
  count_calls (is_attach CenterPivot)
    (snd (traverse "pick" (progress_steps 100) spawned)) = 49%nat /\
  count_calls (is_attach CenterPivot)
    (snd (traverse "exit_wrapper" (progress_steps 10) spawned)) = 4%nat /\
  count_calls (is_attach Scene)
    (snd (traverse "insert_wrapper" (progress_steps 10) picked)) = 1%nat /\
  count_calls (is_attach Scene)
    (snd (traverse "place_in_tray" (progress_steps 10) picked)) = 1%nat /\
  count_calls (is_attach LeftArmPivot)
    (snd (TwoHand.traverse "simultaneous_pick" (progress_steps 10) spawned2))
    = 4%nat /\
  count_calls (is_attach RightArmPivot)
    (snd (TwoHand.traverse "simultaneous_pick" (progress_steps 10) spawned2))
    = 4%nat /\
  count_calls (is_attach LeftArmPivot)
    (snd (TwoHand.traverse "exit_wrappers" (progress_steps 10) spawned2))
    = 4%nat /\
  count_calls (is_attach Scene)
    (snd (TwoHand.traverse "insert_wrappers" (progress_steps 10) picked2))
    = 2%nat /\
  count_calls (is_attach Scene)
    (snd (TwoHand.traverse "place_in_trays" (progress_steps 10) picked2))
    = 2%nat.
Proof.
  cbv zeta. split; [|split; [|split]].
  - intros t w b. destruct w. unfold case_pick, set_bundle, set_current, set_pose.
    cbn [currentBundle]. destruct (t >? JS.num 0.5); reflexivity.
  - intros t isLeft w b. destruct w.
    unfold case_exit_wrapper, set_bundle, set_current, set_pose.
    cbn [currentBundle]. destruct (t >? JS.num 0.5); reflexivity.
  - intros t isLeft w b Hb. destruct w.
    unfold case_insert_wrapper, set_bundle, set_current, set_pose, parent_is_not.
    cbn [currentBundle]. rewrite Hb. cbn [Node_eqb negb].
    rewrite andb_false_r. reflexivity.
  - repeat split; vm_compute; reflexivity.
Qed.

(** C7, as stated, fails twice.  At the frame at 1.0 s, the tenth after
    the start, the clock is not beyond 1.0 and the progress in [pick] not
    above 0.5, and the bundle is still a child of the scene.  At the frame
    at 7.2 s, the last before 7.25 s, the left tray is empty, and a frame
    0.05 s later, which does not take the clock beyond 7.25 s, would leave
    it empty too. *)
Lemma not_attached_at_1_nor_placed_at_7_25 :
  (cycleTime (at_frame 10) >? JS.num 1) = false /\
  bundle_parent (at_frame 10) = Some Scene /\
  (cycleTime (at_frame 72) >? JS.num 7.25) = false /\
  leftBundles (at_frame 72) = [] /\
  (cycleTime (fst (animate (JS.num 0.05) (at_frame 72))) >? JS.num 7.25)
    = false /\
  leftBundles (fst (animate (JS.num 0.05) (at_frame 72))) = [].
Proof.
  repeat split; vm_compute; reflexivity.
Qed.

(** C7, amended: in frames of 0.1 s from 0 to 8.0 s in "alternate" mode,
    one raw bundle is created, at the frame at 0; it is attached to the
    pivot at the frame at 1.1 s, the first with progress above 0.5 in
    [pick]; it is replaced by a wrapped bundle at the frame at 5.0 s, the
    first with eased progress above 0.9 in [wrapping], so it is wrapped at
    5.4 s; it is placed in the left tray, at slot (0, 0), at the frame at
    7.3 s, the first with progress above 0.5 in [place_in_tray];
    [cycleCount] is 0 at every frame up to 7.9 s and 1 at the frame at
    8.1 s.  It is not incremented exactly at 8.0 s: the program adds the
    eighty steps of 0.1 s on doubles, the sum is below 8 and [cycleCount] is
    still 0 at that frame, which the clock on doubles shows.  The frames
    are named by the times they are meant for; the clock of the program
    is within rounding of them, and each milestone is well inside its
    frame. *)
Theorem reference_scenario :
  (count_calls is_create_raw
     (snd (run (frames (JS.num 0.1) 0) (on_stationSelect "both" init))) = 1%nat /\
   count_calls is_create_raw
     (snd (run (frames (JS.num 0.1) 79) (on_stationSelect "both" init))) = 1%nat /\
   bundle_kind (at_frame 0) = Some Raw /\
   bundle_parent (at_frame 0) = Some Scene) /\
  (forallb (fun k => match bundle_parent (at_frame k) with
                     | Some Scene => true | _ => false end) (seq 0 11) = true /\
   JS.num 1.05 < cycleTime (at_frame 11) < JS.num 1.15 /\
   bundle_parent (at_frame 11) = Some CenterPivot) /\
  (forallb (fun k => match bundle_kind (at_frame k) with
                     | Some Raw => true | _ => false end) (seq 0 50) = true /\
   JS.num 4.95 < cycleTime (at_frame 50) < JS.num 5.05 /\
   bundle_kind (at_frame 50) = Some Wrapped /\
   bundle_kind (at_frame 54) = Some Wrapped) /\
  (forallb (fun k => match leftBundles (at_frame k) with
                     | [] => true | _ => false end) (seq 0 73) = true /\
   JS.num 7.25 < cycleTime (at_frame 73) < JS.num 7.35 /\
   map (fun b => (bid b, kind b, parent b)) (leftBundles (at_frame 73)) =
     [(5%nat, Wrapped, Some Scene)] /\
   map position (leftBundles (at_frame 73)) =
     map position
       [position_set (new_bundle 0 Raw)
          (tx leftTray + (JS.num 0 * JS.num 0.7 - JS.num 1.05))
          (ty leftTray + JS.num 0.6)
          (tz leftTray + (JS.num 0 * JS.num 0.7 - JS.num 0.35))] /\
   rightBundles (at_frame 73) = [] /\
   currentBundle (at_frame 73) = None) /\
  (forallb (fun k => (cycleCount (at_frame k) =? 0)%Z) (seq 0 80) = true /\
   cycleCount (at_frame 81) = 1%Z /\
   forallb (fun k => Doubles.cycleCount_is (Doubles.cycleTime_at_frame k) 0)
           (seq 0 81) = true /\
   Doubles.cycleCount_is (Doubles.cycleTime_at_frame 80) 1 = false /\
   Doubles.cycleCount_is (Doubles.cycleTime_at_frame 81) 1 = true).
Proof.
  repeat split; vm_compute; reflexivity.
Qed.

End Scenario.

(** * The easing functions *)

Lemma this_pow3 (x : Qc) : (this (JS.pow x 3) == this x * this x * this x)%Q.
Proof.
  unfold JS.pow. cbn [Qcpower]. rewrite !this_mult. change (this 1) with 1%Q. ring.
Qed.

Lemma this_pow2 (x : Qc) : (this (JS.pow x 2) == this x * this x)%Q.
Proof.
  unfold JS.pow. cbn [Qcpower]. rewrite !this_mult. change (this 1) with 1%Q. ring.
Qed.

(** [easeInOutCubic] on the underlying fractions. *)
Lemma this_cubic_low (t : Qc) :
  t < JS.num 0.5 -> (this (easeInOutCubic t) == 4 * this t * this t * this t)%Q.
Proof.
  intros H. unfold easeInOutCubic. apply ltb_iff in H. rewrite H.
  rewrite !this_mult. reflexivity.
Qed.

Lemma this_cubic_high (t : Qc) :
  JS.num 0.5 <= t ->
  (this (easeInOutCubic t) ==
   1 - (1 # 2) * ((2 - 2 * this t) * (2 - 2 * this t) * (2 - 2 * this t)))%Q.
Proof.
  intros H. unfold easeInOutCubic. apply ltb_false_iff in H. rewrite H.
  rewrite this_minus, this_div, this_pow3, this_plus, this_mult, this_opp.
  change (this 1) with 1%Q. change (this (JS.num 2)) with 2%Q. field.
Qed.

Lemma square_nonneg (a : Q) : (0 <= a * a)%Q.
Proof.
  destruct (Qlt_le_dec a 0) as [H|H].
  - setoid_replace (a * a)%Q with ((- a) * (- a))%Q by ring.
    apply Qmult_le_0_compat; lra.
  - apply Qmult_le_0_compat; assumption.
Qed.

Lemma square_pos (a : Q) : (~ a == 0 -> 0 < a * a)%Q.
Proof.
  intros Ha. destruct (Qlt_le_dec a 0) as [H|H].
  - setoid_replace (a * a)%Q with ((- a) * (- a))%Q by ring.
    apply Qmult_lt_0_compat; lra.
  - assert (0 < a)%Q by (apply Qle_lteq in H; destruct H as [H|H];
      [exact H | exfalso; apply Ha; symmetry; exact H]).
    apply Qmult_lt_0_compat; assumption.
Qed.

(** The cube is increasing. *)
Lemma cube_difference (x y : Q) :
  (4 * (y * y * y - x * x * x) ==
   (y - x) * ((2 * x + y) * (2 * x + y) + 3 * (y * y)))%Q.
Proof. ring. Qed.

Lemma cube_le (x y : Q) : (x <= y -> x * x * x <= y * y * y)%Q.
Proof.
  intros H. pose proof (cube_difference x y) as E.
  pose proof (square_nonneg (2 * x + y)) as Hs1.
  pose proof (square_nonneg y) as Hs2.
  assert (0 <= (y - x) * ((2 * x + y) * (2 * x + y) + 3 * (y * y)))%Q.
  { apply Qmult_le_0_compat; lra. }
  lra.
Qed.

Lemma cube_lt (x y : Q) : (x < y -> x * x * x < y * y * y)%Q.
Proof.
  intros H. pose proof (cube_difference x y) as E.
  pose proof (square_nonneg (2 * x + y)) as Hs1.
  pose proof (square_nonneg y) as Hs2.
  assert (0 < (2 * x + y) * (2 * x + y) + 3 * (y * y))%Q.
  { destruct (Qeq_dec y 0) as [Hy|Hy].
    - assert (Hx : ~ (2 * x + y == 0)%Q) by lra.
      pose proof (square_pos _ Hx). lra.
    - pose proof (square_pos y Hy). lra. }
  assert (0 < (y - x) * ((2 * x + y) * (2 * x + y) + 3 * (y * y)))%Q.
  { apply Qmult_lt_0_compat; lra. }
  lra.
Qed.

Lemma cube_lt_iff (x y : Q) : (x * x * x < y * y * y <-> x < y)%Q.
Proof.
  split; [|apply cube_lt]. intros H.
  destruct (Qlt_le_dec x y) as [Hlt|Hge]; [exact Hlt|].
  pose proof (cube_le _ _ Hge). lra.
Qed.

(** The latches test the eased progress against 0.5; that is the same as
    testing the progress itself. *)
Lemma cubic_above_half (t : Qc) : JS.num 0.5 < easeInOutCubic t <-> JS.num 0.5 < t.
Proof.
  destruct (Qclt_le_dec t (JS.num 0.5)) as [Hlo|Hhi].
  - pose proof (this_cubic_low t Hlo) as E. unfold Qclt in *.
    change (this (JS.num 0.5)) with (1 # 2)%Q in *.
    pose proof (cube_lt _ _ Hlo) as Hc. split; intros H; lra.
  - pose proof (this_cubic_high t Hhi) as E. unfold Qclt, Qcle in *.
    change (this (JS.num 0.5)) with (1 # 2)%Q in *.
    pose proof (cube_lt_iff (2 - 2 * this t) 1) as Hc.
    split; intros H.
    + assert ((2 - 2 * this t) * (2 - 2 * this t) * (2 - 2 * this t) < 1 * 1 * 1)%Q
        by lra.
      apply Hc in H0. lra.
    + assert (2 - 2 * this t < 1)%Q by lra. apply Hc in H0. lra.
Qed.

(** [easeInOutCubic] is increasing. *)
Lemma cubic_monotone (t1 t2 : Qc) :
  t1 <= t2 -> easeInOutCubic t1 <= easeInOutCubic t2.
Proof.
  intros H.
  destruct (Qclt_le_dec t1 (JS.num 0.5)) as [H1|H1];
    destruct (Qclt_le_dec t2 (JS.num 0.5)) as [H2|H2].
  - pose proof (this_cubic_low _ H1) as E1. pose proof (this_cubic_low _ H2) as E2.
    unfold Qcle in *. pose proof (cube_le _ _ H). lra.
  - pose proof (this_cubic_low _ H1) as E1. pose proof (this_cubic_high _ H2) as E2.
    unfold Qcle, Qclt in *. change (this (JS.num 0.5)) with (1 # 2)%Q in *.
    pose proof (cube_lt _ _ H1) as Hc1.
    assert (Hle : (2 - 2 * this t2 <= 1)%Q) by lra.
    pose proof (cube_le _ _ Hle) as Hc2. lra.
  - exfalso. unfold Qcle, Qclt in *. lra.
  - pose proof (this_cubic_high _ H1) as E1. pose proof (this_cubic_high _ H2) as E2.
    unfold Qcle in *.
    assert (Hle : (2 - 2 * this t2 <= 2 - 2 * this t1)%Q) by lra.
    pose proof (cube_le _ _ Hle). lra.
Qed.

Lemma cubic_0 : easeInOutCubic 0 = 0.
Proof. apply Qc_is_canon. vm_compute. reflexivity. Qed.

Lemma cubic_1 : easeInOutCubic 1 = 1.
Proof. apply Qc_is_canon. vm_compute. reflexivity. Qed.

Lemma cubic_range (t : Qc) : 0 <= t <= 1 -> 0 <= easeInOutCubic t <= 1.
Proof.
  intros [H0 H1]. split.
  - rewrite <- cubic_0 at 1. apply cubic_monotone, H0.
  - rewrite <- cubic_1 at 1. apply cubic_monotone, H1.
Qed.

(** [easeInOutQuad] on the underlying fractions. *)
Lemma this_quad_low (t : Qc) :
  t < JS.num 0.5 -> (this (easeInOutQuad t) == 2 * this t * this t)%Q.
Proof.
  intros H. unfold easeInOutQuad. apply ltb_iff in H. rewrite H.
  rewrite !this_mult. reflexivity.
Qed.

Lemma this_quad_high (t : Qc) :
  JS.num 0.5 <= t ->
  (this (easeInOutQuad t) ==
   1 - (1 # 2) * ((2 - 2 * this t) * (2 - 2 * this t)))%Q.
Proof.
  intros H. unfold easeInOutQuad. apply ltb_false_iff in H. rewrite H.
  rewrite this_minus, this_div, this_pow2, this_plus, this_mult, this_opp.
  change (this 1) with 1%Q. change (this (JS.num 2)) with 2%Q. field.
Qed.

Lemma square_le (a b : Q) : (0 <= a -> a <= b -> a * a <= b * b)%Q.
Proof.
  intros Ha Hab.
  assert (a * a <= a * b)%Q.
  { setoid_replace (a * b)%Q with (b * a)%Q by ring.
    apply Qmult_le_compat_r; assumption. }
  assert (a * b <= b * b)%Q by (apply Qmult_le_compat_r; lra).
  lra.
Qed.

Lemma quad_monotone (t1 t2 : Qc) :
  0 <= t1 -> t1 <= t2 -> t2 <= 1 -> easeInOutQuad t1 <= easeInOutQuad t2.
Proof.
  intros H0 H Hone.
  destruct (Qclt_le_dec t1 (JS.num 0.5)) as [H1|H1];
    destruct (Qclt_le_dec t2 (JS.num 0.5)) as [H2|H2].
  - pose proof (this_quad_low _ H1) as E1. pose proof (this_quad_low _ H2) as E2.
    unfold Qcle in *. change (this 0) with 0%Q in *.
    pose proof (square_le _ _ H0 H). lra.
  - pose proof (this_quad_low _ H1) as E1. pose proof (this_quad_high _ H2) as E2.
    unfold Qcle, Qclt in *. change (this (JS.num 0.5)) with (1 # 2)%Q in *.
    change (this 0) with 0%Q in *. change (this 1) with 1%Q in *.
    assert (Ha : (this t1 <= 1 # 2)%Q) by lra.
    pose proof (square_le _ _ H0 Ha) as Hc1.
    assert (Hb0 : (0 <= 2 - 2 * this t2)%Q) by lra.
    assert (Hb1 : (2 - 2 * this t2 <= 1)%Q) by lra.
    pose proof (square_le _ _ Hb0 Hb1) as Hc2.
    change ((1 # 2) * (1 # 2))%Q with (1 # 4)%Q in Hc1. lra.
  - exfalso. unfold Qcle, Qclt in *. lra.
  - pose proof (this_quad_high _ H1) as E1. pose proof (this_quad_high _ H2) as E2.
    unfold Qcle in *. change (this 1) with 1%Q in *.
    assert (Hb0 : (0 <= 2 - 2 * this t2)%Q) by lra.
    assert (Hle : (2 - 2 * this t2 <= 2 - 2 * this t1)%Q) by lra.
    pose proof (square_le _ _ Hb0 Hle). lra.
Qed.

Lemma quad_0 : easeInOutQuad 0 = 0.
Proof. apply Qc_is_canon. vm_compute. reflexivity. Qed.

Lemma quad_1 : easeInOutQuad 1 = 1.
Proof. apply Qc_is_canon. vm_compute. reflexivity. Qed.

Lemma quad_range (t : Qc) : 0 <= t <= 1 -> 0 <= easeInOutQuad t <= 1.
Proof.
  intros [H0 H1]. split.
  - rewrite <- quad_0 at 1. apply quad_monotone; [apply Qcle_refl|exact H0|exact H1].
  - rewrite <- quad_1 at 1. apply quad_monotone; [exact H0|exact H1|apply Qcle_refl].
Qed.

(** * Whole cycles and slots *)

(** [Math.floor] is the integer just below. *)
Lemma floor_unique (q : Q) (k : Z) :
  (inject_Z k <= q < inject_Z (k + 1))%Q -> Qfloor q = k.
Proof.
  intros [Hlo Hhi].
  pose proof (Qfloor_le q) as Fl. pose proof (Qlt_floor q) as Fh.
  assert (H1 : (inject_Z k < inject_Z (Qfloor q + 1))%Q) by lra.
  assert (H2 : (inject_Z (Qfloor q) < inject_Z (k + 1))%Q) by lra.
  rewrite <- Zlt_Qlt in H1, H2. lia.
Qed.

Lemma floor_of_Z_div (k d : Z) :
  (0 < d)%Z -> JS.floor (JS.of_Z k / JS.of_Z d) = (k / d)%Z.
Proof.
  intros Hd. unfold JS.floor. apply floor_unique.
  rewrite this_div, !this_of_Z.
  assert (Hd' : (0 < inject_Z d)%Q) by (rewrite Zlt_Qlt in Hd; exact Hd).
  split.
  - apply Qle_shift_div_l; [exact Hd'|]. rewrite <- inject_Z_mult, <- Zle_Qle.
    pose proof (Z.mul_div_le k d Hd). lia.
  - apply Qlt_shift_div_r; [exact Hd'|]. rewrite <- inject_Z_mult, <- Zlt_Qlt.
    pose proof (Z.mul_succ_div_gt k d Hd). lia.
Qed.

Lemma of_Z_nonneg (k : Z) : (0 <= k)%Z -> 0 <= JS.of_Z k.
Proof.
  intros H. unfold Qcle. rewrite this_of_Z. change (this 0) with (inject_Z 0).
  rewrite <- Zle_Qle. exact H.
Qed.

Lemma of_Z_pos (k : Z) : (0 < k)%Z -> 0 < JS.of_Z k.
Proof.
  intros H. unfold Qclt. rewrite this_of_Z. change (this 0) with (inject_Z 0).
  rewrite <- Zlt_Qlt. exact H.
Qed.

Lemma div_nonneg (x d : Qc) : 0 <= x -> 0 < d -> 0 <= x / d.
Proof.
  intros Hx Hd. unfold Qcle, Qclt in *. rewrite this_div.
  change (this 0) with 0%Q in *. apply Qle_shift_div_l; [exact Hd|]. lra.
Qed.

(** [%] on two integers, the divisor positive and the dividend not
    negative. *)
Lemma rem_of_Z (k d : Z) :
  (0 <= k)%Z -> (0 < d)%Z ->
  JS.rem (JS.of_Z k) (JS.of_Z d) = JS.of_Z (k mod d).
Proof.
  intros Hk Hd. unfold JS.rem.
  rewrite trunc_nonneg
    by (apply div_nonneg; [apply of_Z_nonneg, Hk | apply of_Z_pos, Hd]).
  rewrite floor_of_Z_div by exact Hd.
  apply Qc_is_canon. rewrite this_minus, this_mult, !this_of_Z.
  rewrite (Z.mod_eq k d) by lia. unfold Z.sub.
  rewrite inject_Z_plus, inject_Z_opp, inject_Z_mult. ring.
Qed.

(** The row and the column of a slot are the quotient and the remainder
    of its number by four. *)
Lemma slot_row_div (n : nat) : slot_row (Z.of_nat n) = Z.of_nat (n / 4).
Proof.
  unfold slot_row. change (JS.num 4) with (JS.of_Z 4).
  rewrite floor_of_Z_div by lia. rewrite Nat2Z.inj_div. reflexivity.
Qed.

Lemma slot_col_mod (n : nat) :
  slot_col (Z.of_nat n) = JS.of_Z (Z.of_nat (n mod 4)).
Proof.
  unfold slot_col. change (JS.num 4) with (JS.of_Z 4).
  rewrite rem_of_Z by lia. rewrite Nat2Z.inj_mod. reflexivity.
Qed.

Lemma rem_even_succ (n : Z) :
  (Z.rem (n + 1) 2 =? 0)%Z = negb (Z.rem n 2 =? 0)%Z.
Proof.
  pose proof (Z.rem_bound_abs n 2 ltac:(lia)) as Hb.
  pose proof (Z.rem_bound_abs (n + 1) 2 ltac:(lia)) as Hb1.
  pose proof (Z.quot_rem' n 2) as E. pose proof (Z.quot_rem' (n + 1) 2) as E1.
  destruct (Z.eqb_spec (Z.rem n 2) 0), (Z.eqb_spec (Z.rem (n + 1) 2) 0);
    cbn [negb]; try reflexivity; exfalso; lia.
Qed.

(** * Sessions of the single-arm program: what every state satisfies *)

(** Inequalities of [Qc] as inequalities of fractions, the constants of
    the source evaluated. *)
Ltac to_Q :=
  unfold Qcle, Qclt in *;
  repeat first [ rewrite this_plus | rewrite this_minus | rewrite this_mult
               | rewrite this_opp ];
  repeat match goal with
         | |- context [this ?c] =>
             lazymatch c with
             | context [JS.PI] => idtac
             | context [JS.num] => idtac
             | Q2Qc _ => idtac
             end;
             let v := eval vm_compute in (this c) in
             replace (this c) with v by (vm_compute; reflexivity)
         end.

(** The clean-up of [reset] leaves a tray as it is or removes its first
    bundle. *)
Lemma shift_result (side : TraySide) (arr : list Bundle) :
  fst (shift_if_too_many side arr) = arr \/
  exists b, arr = b :: fst (shift_if_too_many side arr).
Proof.
  unfold shift_if_too_many. destruct (8 <? length arr)%nat; [|left; reflexivity].
  destruct arr as [|b rest]; [left; reflexivity|]. right. exists b. reflexivity.
Qed.

Module SingleHandSessionFacts.
Import SingleHand SingleHandFacts SingleHandSession.

(** A property kept by the clock, by the station display, by every case
    of the switch and by the listeners is kept by a frame, by a run and by
    a session. *)
Section Preservation.

Variable I : World -> Prop.
Hypothesis I_clock : forall ct cc w, I w -> I (set_clock ct cc w).
Hypothesis I_display : forall s w, I w -> I (set_display s w).
Hypothesis I_switch :
  forall nm (pr : Qc) isLeft w,
    0 <= pr < 1 -> I w ->
    I (fst (switch_phase nm pr (easeInOutCubic pr) isLeft w)).

Lemma animate_preserves (delta : Qc) (w : World) :
  I w -> I (fst (animate delta w)).
Proof.
  intros H. destruct (isPaused w) eqn:Hp.
  - rewrite (animate_paused _ _ Hp). exact H.
  - rewrite (animate_unpaused _ _ Hp).
    destruct (phase_at _) as [p|] eqn:Hph; cbv zeta.
    + unfold updateMachineAnimation. cbv zeta.
      apply I_switch.
      * apply progress_bounds. apply (find_phase_In _ _ _ Hph).
      * apply I_display. unfold tick. apply I_clock, H.
    + unfold tick. apply I_clock, H.
Qed.

Lemma run_preserves (deltas : list Qc) (w : World) :
  I w -> I (fst (run deltas w)).
Proof.
  revert w. induction deltas as [|d rest IH]; intros w H; cbn [run].
  - exact H.
  - pose proof (animate_preserves d w H) as H1.
    destruct (animate d w) as [w1 c1]. cbn [fst] in H1.
    specialize (IH w1 H1). destruct (run rest w1) as [w2 c2]. exact IH.
Qed.

Hypothesis I_playPause : forall w, I w -> I (on_playPause w).
Hypothesis I_speed : forall v w, I w -> I (on_speed v w).
Hypothesis I_stationSelect : forall v w, I w -> I (on_stationSelect v w).
Hypothesis I_reset : forall w, I w -> I (on_reset w).

Lemma handle_preserves (e : Event) (w : World) : I w -> I (handle e w).
Proof.
  intros H. destruct e; cbn [handle].
  - apply animate_preserves, H.
  - apply I_playPause, H.
  - apply I_speed, H.
  - apply I_stationSelect, H.
  - apply I_reset, H.
Qed.

Lemma play_preserves (events : list Event) (w : World) :
  I w -> I (play events w).
Proof.
  unfold play. revert w.
  induction events as [|e rest IH]; intros w H; cbn [fold_left].
  - exact H.
  - apply IH, handle_preserves, H.
Qed.

End Preservation.

Ltac each_case tac :=
  unfold switch_phase;
  repeat lazymatch goal with
         | |- context [fst (if (?nm =? ?s)%string then _ else _)] =>
             destruct (nm =? s)%string; [tac|]
         end.

(** ** The jaws *)

Lemma jaws_mirror_switch (nm : string) (pr t : Qc) (isLeft : bool) (w : World) :
  jaws_mirror w -> jaws_mirror (fst (switch_phase nm pr t isLeft w)).
Proof.
  unfold jaws_mirror.
  destruct w as [sp pa ct cc sel dsp rot j0 j1 ld rd lb rb cb cw nid];
  cbn [gripperJaws0_x gripperJaws1_x]; intros H;
  each_case ltac:(case_tac; first [ exact H | reflexivity
                                  | apply Qc_is_canon; vm_compute; reflexivity ]);
  exact H.
Qed.

Lemma pose_in_range_switch (nm : string) (pr t : Qc) (isLeft : bool) (w : World) :
  0 <= t <= 1 -> pose_in_range w ->
  pose_in_range (fst (switch_phase nm pr t isLeft w)).
Proof.
  unfold pose_in_range.
  destruct w as [sp pa ct cc sel dsp rot j0 j1 ld rd lb rb [[i k pt ps ry]|] cw nid];
  cbn [gripperJaws1_x centerPivot_rotation_y]; intros [T0 T1] H;
  each_case ltac:(case_tac; world_fields; first [ exact H |
    revert H T0 T1; to_Q; change (this 0) with 0%Q; change (this 1) with 1%Q;
    intros H T0 T1; splits; lra ]);
  exact H.
Qed.

(** ** The flag of the bundle in flight *)

Lemma flag_agrees_switch (nm : string) (pr t : Qc) (isLeft : bool) (w : World) :
  flag_agrees w -> flag_agrees (fst (switch_phase nm pr t isLeft w)).
Proof.
  unfold flag_agrees.
  destruct w as [sp pa ct cc sel dsp rot j0 j1 ld rd lb rb
                 [[i [|] pt ps ry]|] [|] nid];
  cbn [currentBundle currentBundleIsWrapped kind]; intros H;
  each_case ltac:(case_tac; cbn [kind];
                  first [ exact H | reflexivity | exact I | discriminate H ]);
  exact H.
Qed.

(** ** The bundle in flight, the trays and the counter under one case *)

Lemma switch_step_kind (nm : string) (pr t : Qc) (isLeft : bool) (w : World) :
  step_kind w (fst (switch_phase nm pr t isLeft w)).
Proof.
  unfold switch_phase.
  destruct (nm =? "spawn")%string.
  { destruct w as [sp pa ct cc sel dsp rot j0 j1 ld rd lb rb [[i k pt ps ry]|] cw nid];
      case_tac; first [ apply Keep; reflexivity | apply Create; reflexivity ]. }
  destruct (nm =? "pick")%string.
  { destruct w as [sp pa ct cc sel dsp rot j0 j1 ld rd lb rb [[i k pt ps ry]|] cw nid];
      case_tac; apply Keep; reflexivity. }
  destruct (nm =? "transport_to_wrapper")%string.
  { destruct w; apply Keep; reflexivity. }
  destruct (nm =? "insert_wrapper")%string.
  { destruct w as [sp pa ct cc sel dsp rot j0 j1 ld rd lb rb [[i k pt ps ry]|] cw nid];
      case_tac; apply Keep; reflexivity. }
  destruct (nm =? "wrapping")%string.
  { destruct w as [sp pa ct cc sel dsp rot j0 j1 ld rd lb rb [[i k pt ps ry]|] cw nid];
      case_tac; first [ apply Keep; reflexivity | apply Create; reflexivity ]. }
  destruct (nm =? "exit_wrapper")%string.
  { destruct w as [sp pa ct cc sel dsp rot j0 j1 ld rd lb rb [[i k pt ps ry]|] cw nid];
      case_tac; apply Keep; reflexivity. }
  destruct (nm =? "transport_to_tray")%string.
  { destruct w; apply Keep; reflexivity. }
  destruct (nm =? "place_in_tray")%string.
  { destruct w as [sp pa ct cc sel dsp rot j0 j1 ld rd lb rb [[i k pt ps ry]|] cw nid];
      case_tac; try (apply Keep; reflexivity; fail);
      (eapply Place;
       [ reflexivity | reflexivity | .. | reflexivity
       | cbn [leftBundles rightBundles];
         first [ left; split; reflexivity | right; split; reflexivity ] ];
       reflexivity). }
  destruct (nm =? "reset")%string.
  { destruct (SingleHandTrays.case_reset_trays t isLeft w) as (HL & HR & _).
    apply Clean.
    - destruct w. unfold case_reset. unfold_cases. world_fields.
      repeat break_if; reflexivity.
    - destruct w. unfold case_reset. unfold_cases. world_fields.
      repeat break_if; reflexivity.
    - rewrite HL. apply shift_result.
    - rewrite HR. apply shift_result. }
  cbn [fst]. apply Keep; reflexivity.
Qed.

(** ** Objects are not shared *)

Lemma ids_split (w : World) :
  ids w =
  map bid (match currentBundle w with Some b => [b] | None => [] end) ++
  map bid (leftBundles w) ++ map bid (rightBundles w).
Proof. unfold ids, bundles_of. rewrite !map_app. reflexivity. Qed.

Lemma drop_one (P : nat -> Prop) (l l' : list nat) (a : nat) :
  NoDup (l ++ a :: l') /\ Forall P (l ++ a :: l') ->
  NoDup (l ++ l') /\ Forall P (l ++ l').
Proof.
  intros [Hn Hf]. split.
  - apply NoDup_remove_1 in Hn. exact Hn.
  - rewrite Forall_app in *. destruct Hf as [H1 H2]. inversion H2; subst. auto.
Qed.

Lemma distinct_ids_step (w w' : World) :
  step_kind w w' -> distinct_ids w -> distinct_ids w'.
Proof.
  unfold distinct_ids. intros [Hi Hn HL HR|Hi Hn HL HR|b b' Hc Hc' Hb Hp Hn Ht|Hc Hn HL HR].
  - rewrite Hi, Hn. auto.
  - rewrite Hi, Hn, ids_split, <- map_app. intros [Hnd Hlt].
    apply NoDup_app_remove_l in Hnd. rewrite Forall_app in Hlt.
    destruct Hlt as [_ Hlt]. split.
    + constructor; [|exact Hnd]. intros Hin.
      rewrite Forall_forall in Hlt. specialize (Hlt _ Hin). lia.
    + constructor; [lia|]. eapply Forall_impl; [|exact Hlt]. cbv beta. lia.
  - rewrite Hn, !ids_split, Hc, Hc'. cbn [map app]. intros [Hnd Hlt].
    assert (Hperm : Permutation (bid b :: map bid (leftBundles w) ++
                                 map bid (rightBundles w))
                                (map bid (leftBundles w') ++
                                 map bid (rightBundles w'))).
    { destruct Ht as [[-> ->]|[-> ->]]; rewrite map_app; cbn [map]; rewrite Hb.
      - rewrite <- app_assoc. cbn [app]. apply Permutation_middle.
      - rewrite app_assoc. apply Permutation_cons_append. }
    split.
    + eapply Permutation_NoDup; eassumption.
    + eapply Permutation_Forall; eassumption.
  - rewrite Hn, !ids_split, Hc. intros H.
    assert (H1 : NoDup (map bid (match currentBundle w with
                                 | Some b => [b] | None => [] end) ++
                        map bid (leftBundles w') ++ map bid (rightBundles w)) /\
                 Forall (fun i => (i < nextId w)%nat)
                        (map bid (match currentBundle w with
                                  | Some b => [b] | None => [] end) ++
                         map bid (leftBundles w') ++ map bid (rightBundles w))).
    { destruct HL as [->|[b Hb]]; [exact H|]. rewrite Hb in H. cbn [map app] in H.
      eapply drop_one, H. }
    destruct HR as [->|[b Hb]]; [exact H1|]. rewrite Hb in H1. cbn [map] in H1.
    rewrite app_assoc in H1 |- *. eapply drop_one, H1.
Qed.

Lemma trays_in_scene_step (w w' : World) :
  step_kind w w' -> trays_in_scene w -> trays_in_scene w'.
Proof.
  unfold trays_in_scene.
  intros [Hi Hn HL HR|Hi Hn HL HR|b b' Hc Hc' Hb Hp Hn Ht|Hc Hn HL HR].
  - rewrite HL, HR. auto.
  - rewrite HL, HR. auto.
  - rewrite !Forall_app. intros [H1 H2].
    destruct Ht as [[-> ->]|[-> ->]]; rewrite Forall_app; auto.
  - rewrite !Forall_app. intros [H1 H2]. split.
    + destruct HL as [->|[b Hb]]; [exact H1|]. rewrite Hb in H1.
      inversion H1; assumption.
    + destruct HR as [->|[b Hb]]; [exact H2|]. rewrite Hb in H2.
      inversion H2; assumption.
Qed.

(** ** The clock *)

Lemma clock_agrees_handle (e : Event) (w : World) :
  clock_agrees w -> clock_agrees (handle e w).
Proof.
  unfold clock_agrees. intros H. destruct e; cbn [handle].
  - destruct (isPaused w) eqn:Hp.
    + rewrite (animate_paused _ _ Hp). exact H.
    + pose proof (animate_settings delta w Hp) as E. unfold settings in E.
      injection E as _ _ Ect Ecc _. rewrite Ect, Ecc. reflexivity.
  - exact H.
  - exact H.
  - exact H.
  - reflexivity.
Qed.

End SingleHandSessionFacts.

(** * The calls of a run of the single-arm program *)

Lemma count_calls_app (f : Call -> bool) (c1 c2 : list Call) :
  count_calls f (c1 ++ c2) = (count_calls f c1 + count_calls f c2)%nat.
Proof. unfold count_calls. rewrite filter_app, length_app. reflexivity. Qed.

Lemma shift_accounting (side : TraySide) (arr : list Bundle) :
  (length (fst (shift_if_too_many side arr)) +
   count_calls is_remove (snd (shift_if_too_many side arr)) = length arr)%nat /\
  count_calls is_add (snd (shift_if_too_many side arr)) = 0%nat /\
  (length (fst (shift_if_too_many side arr)) <= length arr)%nat /\
  forall tray, count_calls (is_push tray) (snd (shift_if_too_many side arr)) = 0%nat.
Proof.
  unfold shift_if_too_many. destruct (8 <? length arr)%nat.
  - destruct arr as [|b rest]; cbn; repeat split; try lia; intros [|]; reflexivity.
  - cbn. repeat split; try lia; intros [|]; reflexivity.
Qed.

Module SingleHandCalls.
Import SingleHand SingleHandFacts SingleHandSession SingleHandSessionFacts.

(** What a run leaves of an observation that every case, the clock and
    the display leave alone, and that adds up over the calls. *)
Section Accounting.

(** The quantity measured on a state, and the two counted on calls:
    [measure] after plus [debit] equals [measure] before plus [credit]. *)
Variable measure : World -> nat.
Variables debit credit : Call -> bool.

Hypothesis measure_clock : forall ct cc w, measure (set_clock ct cc w) = measure w.
Hypothesis measure_display : forall s w, measure (set_display s w) = measure w.
Hypothesis measure_switch :
  forall nm pr t isLeft w,
    (measure (fst (switch_phase nm pr t isLeft w)) +
     count_calls debit (snd (switch_phase nm pr t isLeft w)) =
     measure w + count_calls credit (snd (switch_phase nm pr t isLeft w)))%nat.

Lemma animate_balance (delta : Qc) (w : World) :
  (measure (fst (animate delta w)) + count_calls debit (snd (animate delta w)) =
   measure w + count_calls credit (snd (animate delta w)))%nat.
Proof.
  destruct (isPaused w) eqn:Hp.
  - rewrite (animate_paused _ _ Hp). cbn. lia.
  - rewrite (animate_unpaused _ _ Hp).
    destruct (phase_at _) as [p|]; cbv zeta.
    + unfold updateMachineAnimation. cbv zeta.
      rewrite measure_switch, measure_display. unfold tick.
      rewrite measure_clock. reflexivity.
    + unfold tick. cbn [fst snd]. rewrite measure_clock. cbn. lia.
Qed.

Lemma run_balance (deltas : list Qc) (w : World) :
  (measure (fst (run deltas w)) + count_calls debit (snd (run deltas w)) =
   measure w + count_calls credit (snd (run deltas w)))%nat.
Proof.
  revert w. induction deltas as [|d rest IH]; intros w; cbn [run].
  - cbn. lia.
  - pose proof (animate_balance d w) as H1.
    destruct (animate d w) as [w1 c1]. specialize (IH w1).
    destruct (run rest w1) as [w2 c2]. cbn [fst snd] in *.
    rewrite !count_calls_app. lia.
Qed.

End Accounting.

(** Every bundle that the program stops referring to has been the
    argument of a [scene.remove]. *)
Lemma switch_references (nm : string) (pr t : Qc) (isLeft : bool) (w : World) :
  (length (bundles_of (fst (switch_phase nm pr t isLeft w))) +
   count_calls is_remove (snd (switch_phase nm pr t isLeft w)) =
   length (bundles_of w) +
   count_calls is_add (snd (switch_phase nm pr t isLeft w)))%nat.
Proof.
  unfold switch_phase.
  destruct (nm =? "reset")%string eqn:Hreset.
  - repeat lazymatch goal with
           | |- context [fst (if ?c then _ else _)] => destruct c
           end.
    all: try (destruct w as [sp pa ct cc sel dsp rot j0 j1 ld rd lb rb
                             [[i k pt ps ry]|] cw nid];
              case_tac; unfold bundles_of; world_fields;
              cbn [length app count_calls filter is_add is_remove];
              rewrite ?length_app; cbn [length]; lia).
    destruct (SingleHandTrays.case_reset_trays t isLeft w) as (HL & HR & Hc).
    rewrite Hc, !count_calls_app. unfold bundles_of. rewrite HL, HR.
    assert (Hcur : currentBundle (fst (case_reset t isLeft w)) = currentBundle w).
    { destruct w. unfold case_reset. unfold_cases. world_fields.
      repeat break_if; reflexivity. }
    rewrite Hcur, !length_app.
    destruct (shift_accounting LeftTray (leftBundles w)) as (A1 & A2 & _).
    destruct (shift_accounting RightTray (rightBundles w)) as (B1 & B2 & _).
    lia.
  - repeat lazymatch goal with
           | |- context [fst (if ?c then _ else _)] => destruct c
           end.
    all: destruct w as [sp pa ct cc sel dsp rot j0 j1 ld rd lb rb
                        [[i k pt ps ry]|] cw nid];
         case_tac; unfold bundles_of; world_fields;
         cbn [length app count_calls filter is_add is_remove];
         rewrite ?length_app; cbn [length]; lia.
Qed.


Lemma switch_flow (nm : string) (pr t : Qc) (isLeft : bool) (w : World) :
  (in_flight (fst (switch_phase nm pr t isLeft w)) +
   count_calls is_push_any (snd (switch_phase nm pr t isLeft w)) =
   in_flight w +
   count_calls is_create_raw (snd (switch_phase nm pr t isLeft w)))%nat.
Proof.
  unfold switch_phase.
  destruct (nm =? "reset")%string eqn:Hreset.
  - repeat lazymatch goal with
           | |- context [fst (if ?c then _ else _)] => destruct c
           end.
    all: try (destruct w as [sp pa ct cc sel dsp rot j0 j1 ld rd lb rb
                             [[i k pt ps ry]|] cw nid];
              case_tac; unfold in_flight; world_fields;
              cbn [length app count_calls filter is_push_any is_create_raw];
              lia).
    destruct (SingleHandTrays.case_reset_trays t isLeft w) as (HL & HR & Hc).
    rewrite Hc, !count_calls_app. unfold in_flight.
    assert (Hcur : currentBundle (fst (case_reset t isLeft w)) = currentBundle w).
    { destruct w. unfold case_reset. unfold_cases. world_fields.
      repeat break_if; reflexivity. }
    rewrite Hcur.
    assert (Hz : forall side arr,
               count_calls is_push_any (snd (shift_if_too_many side arr)) = 0%nat /\
               count_calls is_create_raw (snd (shift_if_too_many side arr)) = 0%nat).
    { intros side arr. unfold shift_if_too_many.
      destruct (8 <? length arr)%nat; [destruct arr|]; split; reflexivity. }
    destruct (Hz LeftTray (leftBundles w)) as [-> ->].
    destruct (Hz RightTray (rightBundles w)) as [-> ->]. lia.
  - repeat lazymatch goal with
           | |- context [fst (if ?c then _ else _)] => destruct c
           end.
    all: destruct w as [sp pa ct cc sel dsp rot j0 j1 ld rd lb rb
                        [[i k pt ps ry]|] cw nid];
         case_tac; unfold in_flight; world_fields;
         cbn [length app count_calls filter is_push_any is_create_raw];
         lia.
Qed.

Lemma switch_trays (nm : string) (pr t : Qc) (isLeft : bool) (w : World) :
  (in_trays (fst (switch_phase nm pr t isLeft w)) +
   count_calls is_shift (snd (switch_phase nm pr t isLeft w)) =
   in_trays w +
   count_calls is_push_any (snd (switch_phase nm pr t isLeft w)))%nat.
Proof.
  unfold switch_phase.
  destruct (nm =? "reset")%string eqn:Hreset.
  - repeat lazymatch goal with
           | |- context [fst (if ?c then _ else _)] => destruct c
           end.
    all: try (destruct w as [sp pa ct cc sel dsp rot j0 j1 ld rd lb rb
                             [[i k pt ps ry]|] cw nid];
              case_tac; unfold in_trays; world_fields;
              cbn [length app count_calls filter is_push_any is_shift];
              rewrite ?length_app; cbn [length]; lia).
    destruct (SingleHandTrays.case_reset_trays t isLeft w) as (HL & HR & Hc).
    rewrite Hc, !count_calls_app. unfold in_trays. rewrite HL, HR.
    assert (Hz : forall side arr,
               count_calls is_push_any (snd (shift_if_too_many side arr)) = 0%nat /\
               (length (fst (shift_if_too_many side arr)) +
                count_calls is_shift (snd (shift_if_too_many side arr)) =
                length arr)%nat).
    { intros side arr. unfold shift_if_too_many.
      destruct (8 <? length arr)%nat; [destruct arr|]; split; cbn; lia. }
    destruct (Hz LeftTray (leftBundles w)) as [-> A].
    destruct (Hz RightTray (rightBundles w)) as [-> B]. lia.
  - repeat lazymatch goal with
           | |- context [fst (if ?c then _ else _)] => destruct c
           end.
    all: destruct w as [sp pa ct cc sel dsp rot j0 j1 ld rd lb rb
                        [[i k pt ps ry]|] cw nid];
         case_tac; unfold in_trays; world_fields;
         cbn [length app count_calls filter is_push_any is_shift];
         rewrite ?length_app; cbn [length]; lia.
Qed.

(** ** One station selected *)

Lemma target_of_station_name (toLeft : bool) (n : Z) :
  (getTargetStation (station_name toLeft) n =? "left")%string = toLeft.
Proof. destruct toLeft; reflexivity. Qed.

Lemma switch_other_side (nm : string) (pr t : Qc) (toLeft : bool) (w : World) :
  count_calls (is_push (other_tray toLeft))
              (snd (switch_phase nm pr t toLeft w)) = 0%nat /\
  other_disk toLeft (fst (switch_phase nm pr t toLeft w)) = other_disk toLeft w /\
  (length (other_bundles toLeft (fst (switch_phase nm pr t toLeft w))) <=
   length (other_bundles toLeft w))%nat.
Proof.
  unfold switch_phase.
  destruct (nm =? "reset")%string eqn:Hreset.
  - repeat lazymatch goal with
           | |- context [fst (if ?c then _ else _)] => destruct c
           end.
    all: try (destruct w as [sp pa ct cc sel dsp rot j0 j1 ld rd lb rb
                             [[i k pt ps ry]|] cw nid];
              case_tac; unfold other_disk, other_bundles, other_tray; world_fields;
              cbn [count_calls filter is_push length];
              splits; first [ reflexivity | lia ]).
    destruct (SingleHandTrays.case_reset_trays t toLeft w) as (HL & HR & Hc).
    rewrite Hc, !count_calls_app. unfold other_bundles, other_disk. rewrite HL, HR.
    destruct (shift_accounting LeftTray (leftBundles w)) as (_ & _ & A & A').
    destruct (shift_accounting RightTray (rightBundles w)) as (_ & _ & B & B').
    rewrite A', B'. splits.
    + reflexivity.
    + destruct w. unfold case_reset. unfold_cases. world_fields.
      repeat break_if; reflexivity.
    + destruct toLeft; assumption.
  - repeat lazymatch goal with
           | |- context [fst (if ?c then _ else _)] => destruct c
           end.
    all: destruct w as [sp pa ct cc sel dsp rot j0 j1 ld rd lb rb
                        [[i k pt ps ry]|] cw nid];
         case_tac; unfold other_disk, other_bundles, other_tray; world_fields;
         cbn [count_calls filter is_push length];
         splits; first [ reflexivity | lia ].
Qed.

Lemma uma_other_side (nm : string) (pr lt : Qc) (toLeft : bool) (w : World) :
  selectedStation w = station_name toLeft ->
  count_calls (is_push (other_tray toLeft))
              (snd (updateMachineAnimation nm pr lt w)) = 0%nat /\
  other_disk toLeft (fst (updateMachineAnimation nm pr lt w)) =
    other_disk toLeft w /\
  (length (other_bundles toLeft (fst (updateMachineAnimation nm pr lt w))) <=
   length (other_bundles toLeft w))%nat.
Proof.
  intros Hs. unfold updateMachineAnimation. cbv zeta.
  rewrite Hs, target_of_station_name.
  match goal with
  | |- context [switch_phase ?a ?b ?c ?d ?e] =>
      destruct (switch_other_side a b c d e) as (A & B & C)
  end.
  splits.
  - exact A.
  - rewrite B. destruct w, toLeft; reflexivity.
  - etransitivity; [exact C|]. destruct w, toLeft; apply Nat.le_refl.
Qed.

Lemma animate_other_side (delta : Qc) (toLeft : bool) (w : World) :
  selectedStation w = station_name toLeft ->
  selectedStation (fst (animate delta w)) = station_name toLeft /\
  count_calls (is_push (other_tray toLeft)) (snd (animate delta w)) = 0%nat /\
  other_disk toLeft (fst (animate delta w)) = other_disk toLeft w /\
  (length (other_bundles toLeft (fst (animate delta w))) <=
   length (other_bundles toLeft w))%nat.
Proof.
  intros Hs. destruct (isPaused w) eqn:Hp.
  - rewrite (animate_paused _ _ Hp). cbn [fst snd]. splits; auto.
  - split.
    { pose proof (animate_settings delta w Hp) as E. unfold settings in E.
      injection E as _ _ _ _ E. rewrite E. exact Hs. }
    rewrite (animate_unpaused _ _ Hp).
    assert (Hs' : selectedStation (tick delta w) = station_name toLeft)
      by (rewrite <- Hs; destruct w; reflexivity).
    destruct (phase_at _) as [p|]; cbv zeta.
    + match goal with
      | |- context [updateMachineAnimation ?a ?b ?c ?d] =>
          destruct (uma_other_side a b c toLeft d Hs') as (A & B & C)
      end.
      splits.
      * exact A.
      * rewrite B. destruct w, toLeft; reflexivity.
      * etransitivity; [exact C|]. destruct w, toLeft; apply Nat.le_refl.
    + cbn [fst snd]. splits.
      * reflexivity.
      * destruct w, toLeft; reflexivity.
      * destruct w, toLeft; apply Nat.le_refl.
Qed.

End SingleHandCalls.

(** * Actions guarded by a latch *)

Module SingleHandLatch.
Import SingleHand SingleHandFacts SingleHandSession SingleHandCalls.

(** A call that a phase makes only in a state that is not [spent], and
    that leaves the state [spent], is made at most once while the phase
    is stepped through. *)
Section Latch.

Variable phaseName : string.
Variable fired : Call -> bool.
Variable spent : World -> Prop.

Hypothesis spent_stays :
  forall pr lt w, spent w ->
    spent (fst (updateMachineAnimation phaseName pr lt w)) /\
    count_calls fired (snd (updateMachineAnimation phaseName pr lt w)) = 0%nat.
Hypothesis fires_once :
  forall pr lt w,
    count_calls fired (snd (updateMachineAnimation phaseName pr lt w)) = 0%nat \/
    count_calls fired (snd (updateMachineAnimation phaseName pr lt w)) = 1%nat /\
    spent (fst (updateMachineAnimation phaseName pr lt w)).

Lemma traverse_spent (steps : list Qc) (w : World) :
  spent w -> count_calls fired (snd (traverse phaseName steps w)) = 0%nat.
Proof.
  revert w. induction steps as [|pr rest IH]; intros w H; cbn [traverse].
  - reflexivity.
  - destruct (spent_stays pr (JS.rem (cycleTime w) CYCLE_DURATION) w H) as [H1 H0].
    destruct (updateMachineAnimation _ _ _ w) as [w1 c1]. cbn [fst snd] in *.
    specialize (IH w1 H1). destruct (traverse _ rest w1) as [w2 c2].
    cbn [snd] in *. rewrite count_calls_app, H0, IH. reflexivity.
Qed.

Lemma traverse_once (steps : list Qc) (w : World) :
  (count_calls fired (snd (traverse phaseName steps w)) <= 1)%nat.
Proof.
  revert w. induction steps as [|pr rest IH]; intros w; cbn [traverse].
  - cbn. lia.
  - pose proof (fires_once pr (JS.rem (cycleTime w) CYCLE_DURATION) w) as H.
    destruct (updateMachineAnimation _ _ _ w) as [w1 c1]. cbn [fst snd] in *.
    pose proof (IH w1) as IH1. pose proof (traverse_spent rest w1) as Hs.
    destruct (traverse _ rest w1) as [w2 c2]. cbn [snd] in *.
    rewrite count_calls_app. destruct H as [H|[H Hsp]].
    + lia.
    + rewrite (Hs Hsp). lia.
Qed.

End Latch.

(** What the three guarded cases do to the bundle in flight, and the
    number of guarded calls they make. *)
Lemma insert_outcome (t : Qc) (isLeft : bool) (w : World) :
  (option_map parent (currentBundle (fst (case_insert_wrapper t isLeft w))),
   count_calls (is_attach Scene) (snd (case_insert_wrapper t isLeft w))) =
  match currentBundle w with
  | Some b =>
      if (t >? JS.num 0.5) && parent_is_not b Scene
      then (Some (Some Scene), 1%nat)
      else (Some (parent b), 0%nat)
  | None => (None, 0%nat)
  end.
Proof.
  destruct w as [sp pa ct cc sel dsp0 rot j0 j1 ld rd lb rb [b|] cw nid];
    unfold case_insert_wrapper; unfold_cases; world_fields.
  - destruct ((t >? JS.num 0.5) && parent_is_not b Scene); reflexivity.
  - reflexivity.
Qed.

Lemma wrapping_outcome (t : Qc) (isLeft : bool) (w : World) :
  (currentBundleIsWrapped (fst (case_wrapping t isLeft w)),
   option_map bid (currentBundle (fst (case_wrapping t isLeft w))),
   count_calls is_create_wrapped (snd (case_wrapping t isLeft w))) =
  match currentBundle w with
  | Some b =>
      if (t >? JS.num 0.9) && negb (currentBundleIsWrapped w)
      then (true, Some (nextId w), 1%nat)
      else (currentBundleIsWrapped w, Some (bid b), 0%nat)
  | None => (currentBundleIsWrapped w, None, 0%nat)
  end.
Proof.
  destruct w as [sp pa ct cc sel dsp0 rot j0 j1 ld rd lb rb [b|] cw nid];
    unfold case_wrapping; unfold_cases; world_fields.
  - destruct isLeft; world_fields;
      destruct ((t >? JS.num 0.9) && negb cw); reflexivity.
  - destruct isLeft; reflexivity.
Qed.

Lemma place_outcome (t : Qc) (isLeft : bool) (w : World) :
  (option_map bid (currentBundle (fst (case_place_in_tray t isLeft w))),
   count_calls is_push_any (snd (case_place_in_tray t isLeft w))) =
  match currentBundle w with
  | Some b => if t >? JS.num 0.5 then (None, 1%nat) else (Some (bid b), 0%nat)
  | None => (None, 0%nat)
  end.
Proof.
  destruct w as [sp pa ct cc sel dsp0 rot j0 j1 ld rd lb rb [b|] cw nid];
    unfold case_place_in_tray; unfold_cases; world_fields.
  - destruct (t >? JS.num 0.5); [destruct isLeft|]; reflexivity.
  - reflexivity.
Qed.

Lemma uma_insert_wrapper (pr lt : Qc) (w : World) :
  exists isLeft dsp,
    updateMachineAnimation "insert_wrapper" pr lt w =
    case_insert_wrapper (easeInOutCubic pr) isLeft (set_display dsp w).
Proof. eexists. eexists. reflexivity. Qed.

Lemma uma_wrapping (pr lt : Qc) (w : World) :
  exists isLeft dsp,
    updateMachineAnimation "wrapping" pr lt w =
    case_wrapping (easeInOutCubic pr) isLeft (set_display dsp w).
Proof. eexists. eexists. reflexivity. Qed.

Lemma uma_place_in_tray (pr lt : Qc) (w : World) :
  exists isLeft dsp,
    updateMachineAnimation "place_in_tray" pr lt w =
    case_place_in_tray (easeInOutCubic pr) isLeft (set_display dsp w).
Proof. eexists. eexists. reflexivity. Qed.

Ltac step_tac lem outcome :=
  match goal with
  | |- context [updateMachineAnimation _ ?pr ?lt ?w] =>
      let isLeft := fresh "isLeft" in
      let dsp := fresh "dsp" in
      let E := fresh "E" in
      let O := fresh "O" in
      destruct (lem pr lt w) as (isLeft & dsp & E); rewrite E; clear E;
      pose proof (outcome (easeInOutCubic pr) isLeft (set_display dsp w)) as O;
      change (currentBundle (set_display dsp w)) with (currentBundle w) in O;
      change (currentBundleIsWrapped (set_display dsp w))
        with (currentBundleIsWrapped w) in O;
      change (nextId (set_display dsp w)) with (nextId w) in O;
      revert O;
      generalize (easeInOutCubic pr);
      generalize (set_display dsp w)
  end.

Lemma released_stays (pr lt : Qc) (w : World) :
  released w ->
  released (fst (updateMachineAnimation "insert_wrapper" pr lt w)) /\
  count_calls (is_attach Scene)
    (snd (updateMachineAnimation "insert_wrapper" pr lt w)) = 0%nat.
Proof.
  unfold released. step_tac uma_insert_wrapper insert_outcome.
  intros w' t.
  destruct (currentBundle (fst (case_insert_wrapper t isLeft w'))) as [b'|];
    destruct (currentBundle w) as [b|]; cbn [option_map].
  - intros O H. rewrite H, andb_false_r in O. injection O as E ->.
    unfold parent_is_not in *. rewrite E. auto.
  - discriminate.
  - destruct (_ && _); discriminate.
  - intros [= ->]. auto.
Qed.

Lemma released_once (pr lt : Qc) (w : World) :
  count_calls (is_attach Scene)
    (snd (updateMachineAnimation "insert_wrapper" pr lt w)) = 0%nat \/
  count_calls (is_attach Scene)
    (snd (updateMachineAnimation "insert_wrapper" pr lt w)) = 1%nat /\
  released (fst (updateMachineAnimation "insert_wrapper" pr lt w)).
Proof.
  unfold released. step_tac uma_insert_wrapper insert_outcome.
  intros w' t.
  destruct (currentBundle (fst (case_insert_wrapper t isLeft w'))) as [b'|];
    destruct (currentBundle w) as [b|]; cbn [option_map].
  - destruct (_ && _); intros [= E ->]; [right|left; reflexivity].
    split; [reflexivity|]. unfold parent_is_not. rewrite E. reflexivity.
  - discriminate.
  - destruct (_ && _); discriminate.
  - intros [= ->]. auto.
Qed.

Lemma converted_stays (pr lt : Qc) (w : World) :
  converted w ->
  converted (fst (updateMachineAnimation "wrapping" pr lt w)) /\
  count_calls is_create_wrapped
    (snd (updateMachineAnimation "wrapping" pr lt w)) = 0%nat.
Proof.
  unfold converted. step_tac uma_wrapping wrapping_outcome.
  intros w' t.
  destruct (currentBundle (fst (case_wrapping t isLeft w'))) as [b'|];
    destruct (currentBundle w) as [b|]; cbn [option_map].
  - intros O [H|H]; [discriminate H|]. rewrite H, andb_false_r in O.
    injection O as -> _ ->. auto.
  - discriminate.
  - destruct (_ && _); discriminate.
  - intros [= _ ->] _. auto.
Qed.

Lemma converted_once (pr lt : Qc) (w : World) :
  count_calls is_create_wrapped
    (snd (updateMachineAnimation "wrapping" pr lt w)) = 0%nat \/
  count_calls is_create_wrapped
    (snd (updateMachineAnimation "wrapping" pr lt w)) = 1%nat /\
  converted (fst (updateMachineAnimation "wrapping" pr lt w)).
Proof.
  unfold converted. step_tac uma_wrapping wrapping_outcome.
  intros w' t.
  destruct (currentBundle (fst (case_wrapping t isLeft w'))) as [b'|];
    destruct (currentBundle w) as [b|]; cbn [option_map].
  - destruct (_ && _); intros [= -> _ ->]; auto.
  - discriminate.
  - destruct (_ && _); discriminate.
  - intros [= _ ->]. auto.
Qed.

Lemma placed_stays (pr lt : Qc) (w : World) :
  placed w ->
  placed (fst (updateMachineAnimation "place_in_tray" pr lt w)) /\
  count_calls is_push_any
    (snd (updateMachineAnimation "place_in_tray" pr lt w)) = 0%nat.
Proof.
  unfold placed. step_tac uma_place_in_tray place_outcome.
  intros w' t O H. rewrite H in O.
  destruct (currentBundle (fst (case_place_in_tray t isLeft w'))) as [b'|];
    cbn [option_map] in O; [discriminate O|]. injection O as ->. auto.
Qed.

Lemma placed_once (pr lt : Qc) (w : World) :
  count_calls is_push_any
    (snd (updateMachineAnimation "place_in_tray" pr lt w)) = 0%nat \/
  count_calls is_push_any
    (snd (updateMachineAnimation "place_in_tray" pr lt w)) = 1%nat /\
  placed (fst (updateMachineAnimation "place_in_tray" pr lt w)).
Proof.
  unfold placed. step_tac uma_place_in_tray place_outcome.
  intros w' t.
  destruct (currentBundle (fst (case_place_in_tray t isLeft w'))) as [b'|];
    destruct (currentBundle w) as [b|]; cbn [option_map].
  - destruct (_ >? _); intros O; inversion O; auto.
  - discriminate.
  - destruct (_ >? _); intros O; inversion O; auto.
  - intros O; inversion O; auto.
Qed.

End SingleHandLatch.

(** * Sessions of the two-arm program *)

Module TwoHandSessionFacts.
Import TwoHand TwoHandFacts TwoHandSession.

(** [updateMachineAnimation] runs one case on both sides, or, in
    [wrapping_process], two. *)
Lemma uma_both (nm : string) (pr lt : Qc) (w : World) :
  (exists f, side_case f /\ updateMachineAnimation nm pr lt w = both f w) \/
  (exists f g, side_case f /\ side_case g /\
     updateMachineAnimation nm pr lt w =
     let '(w1, c1) := both f w in
     let '(w2, c2) := both g w1 in (w2, c1 ++ c2)) \/
  updateMachineAnimation nm pr lt w = (w, []).
Proof.
  unfold updateMachineAnimation. cbv zeta.
  destruct (nm =? "spawn")%string.
  { left. eexists. split; [exact (Spawn pr)|reflexivity]. }
  destruct (nm =? "simultaneous_pick")%string.
  { left. eexists. split; [exact (Pick (easeInOutCubic pr))|reflexivity]. }
  destruct (nm =? "simultaneous_transport")%string.
  { left. eexists. split; [exact (Transport (easeInOutCubic pr))|reflexivity]. }
  destruct (nm =? "insert_wrappers")%string.
  { left. eexists. split; [exact (Insert (easeInOutCubic pr))|reflexivity]. }
  destruct (nm =? "wrapping_process")%string.
  { right. left. eexists. eexists.
    split; [exact (WrappingTurn (easeInOutCubic pr))|].
    split; [exact (WrappingConvert (easeInOutCubic pr))|reflexivity]. }
  destruct (nm =? "exit_wrappers")%string.
  { left. eexists. split; [exact (Exit (easeInOutCubic pr))|reflexivity]. }
  destruct (nm =? "simultaneous_to_trays")%string.
  { left. eexists. split; [exact (ToTrays (easeInOutCubic pr))|reflexivity]. }
  destruct (nm =? "place_in_trays")%string.
  { left. eexists. split; [exact (PlaceInTrays (easeInOutCubic pr))|reflexivity]. }
  destruct (nm =? "reset")%string.
  { left. eexists. split; [exact (ResetArm (easeInOutCubic pr))|reflexivity]. }
  right. right. reflexivity.
Qed.

Section Preservation.

Variable I : World -> Prop.
Hypothesis I_clock :
  forall ct cc w, I w ->
    I (mkWorld (speed w) (isPaused w) ct cc (left w) (right w) (nextId w)).
Hypothesis I_both : forall f w, side_case f -> I w -> I (fst (both f w)).

Lemma two_hand_uma_preserves (nm : string) (pr lt : Qc) (w : World) :
  I w -> I (fst (updateMachineAnimation nm pr lt w)).
Proof.
  intros H.
  destruct (uma_both nm pr lt w) as [(f & Hf & ->)|[(f & g & Hf & Hg & ->)| ->]].
  - apply I_both; assumption.
  - pose proof (I_both f w Hf H) as H1. destruct (both f w) as [w1 c1].
    pose proof (I_both g w1 Hg H1) as H2. destruct (both g w1) as [w2 c2].
    exact H2.
  - exact H.
Qed.

Lemma two_hand_animate_preserves (delta : Qc) (w : World) :
  I w -> I (fst (animate delta w)).
Proof.
  intros H. unfold animate. destruct (isPaused w) eqn:Hp; cbn [negb]; [exact H|].
  cbv zeta. rewrite <- Hp. destruct (find_phase PHASES _) as [p|].
  - apply two_hand_uma_preserves, I_clock, H.
  - apply I_clock, H.
Qed.

Hypothesis I_playPause : forall w, I w -> I (on_playPause w).
Hypothesis I_speed : forall v w, I w -> I (on_speed v w).
Hypothesis I_reset : forall w, I w -> I (on_reset w).

Lemma two_hand_play_preserves (events : list Event) (w : World) :
  I w -> I (play events w).
Proof.
  unfold play. revert w.
  induction events as [|e rest IH]; intros w H; cbn [fold_left].
  - exact H.
  - apply IH. destruct e; cbn [handle].
    + apply two_hand_animate_preserves, H.
    + apply I_playPause, H.
    + apply I_speed, H.
    + apply I_reset, H.
Qed.

End Preservation.

(** A relation between the two sides that every case keeps when it runs
    on the left side and on the right side is kept by [both]. *)
Lemma both_sides (R : Side -> Side -> Prop) (f : SideCfg -> SideStep) (w : World) :
  (forall sl sr nl nr,
     R sl sr -> R (fst (fst (f leftCfg sl nl))) (fst (fst (f rightCfg sr nr)))) ->
  R (left w) (right w) ->
  R (left (fst (both f w))) (right (fst (both f w))).
Proof.
  intros Hf H. unfold both.
  specialize (Hf (left w) (right w) (nextId w) (snd (fst (f leftCfg (left w) (nextId w)))) H).
  destruct (f leftCfg (left w) (nextId w)) as [[l n1] c1]. cbn [fst snd] in Hf.
  destruct (f rightCfg (right w) n1) as [[r n2] c2]. exact Hf.
Qed.

Ltac side_fields :=
  cbn [armPivot_rotation_y gripperJaws0_x gripperJaws1_x machineDisk_rotation_y
       bundles bundle bundleWrapped count fst snd
       wrapperAngle toTrayAngle trayAngle].

(** ** The arms *)

Ltac mirror_tac :=
  intros rl rr E;
  cbv [leftCfg rightCfg wrapperAngle toTrayAngle trayAngle];
  first [ exact E | unfold Qcdiv; ring
        | lazymatch goal with
          | |- JS.num 0 = - JS.num 0 =>
              apply Qc_is_canon; vm_compute; reflexivity
          end ].

(** The pose and the disk after a case, whatever the bundle. *)
Lemma side_case_pose (f : SideCfg -> SideStep) :
  side_case f ->
  exists rot j0 j1 dd,
    (forall rl rr, rl = - rr -> rot leftCfg rl = - rot rightCfg rr) /\
    forall cfg s n,
      let s' := fst (fst (f cfg s n)) in
      armPivot_rotation_y s' = rot cfg (armPivot_rotation_y s) /\
      gripperJaws0_x s' = j0 (gripperJaws0_x s) /\
      gripperJaws1_x s' = j1 (gripperJaws1_x s) /\
      machineDisk_rotation_y s' = dd (machineDisk_rotation_y s).
Proof.
  intros [pr|t|t|t|t|t|t|t|t|t].
  - exists (fun _ _ => JS.num 0), (fun _ => JS.num (-0.35)), (fun _ => JS.num 0.35),
      (fun d => d).
    split; [mirror_tac|];
    intros cfg [r j0 j1 d bs [b|] bw c] n; side_tac;
      repeat (break_side; side_tac); splits; reflexivity.
  - exists (fun _ _ => JS.num 0), (fun _ => - (JS.num 0.35 - t * JS.num 0.1)),
      (fun _ => JS.num 0.35 - t * JS.num 0.1), (fun d => d).
    split; [mirror_tac|];
    intros cfg [r j0 j1 d bs [b|] bw c] n; side_tac;
      repeat (break_side; side_tac); splits; reflexivity.
  - exists (fun cfg _ => easeInOutQuad t * wrapperAngle cfg),
      (fun _ => JS.num (-0.25)), (fun _ => JS.num 0.25), (fun d => d).
    split; [mirror_tac|];
    intros cfg [r j0 j1 d bs [b|] bw c] n; side_tac; splits; reflexivity.
  - exists (fun cfg _ => wrapperAngle cfg),
      (fun _ => - (JS.num 0.25 + t * JS.num 0.15)),
      (fun _ => JS.num 0.25 + t * JS.num 0.15), (fun d => d).
    split; [mirror_tac|];
    intros cfg [r j0 j1 d bs [b|] bw c] n; side_tac;
      repeat (break_side; side_tac); splits; reflexivity.
  - exists (fun _ r => r), (fun j => j), (fun j => j), (fun d => d + JS.num 0.15).
    split; [mirror_tac|];
    intros cfg [r j0 j1 d bs [b|] bw c] n; side_tac; splits; reflexivity.
  - exists (fun _ r => r), (fun j => j), (fun j => j), (fun d => d).
    split; [mirror_tac|];
    intros cfg [r j0 j1 d bs [b|] bw c] n; side_tac;
      repeat (break_side; side_tac); splits; reflexivity.
  - exists (fun cfg _ => wrapperAngle cfg),
      (fun _ => - (JS.num 0.35 - t * JS.num 0.1)),
      (fun _ => JS.num 0.35 - t * JS.num 0.1), (fun d => d).
    split; [mirror_tac|];
    intros cfg [r j0 j1 d bs [b|] bw c] n; side_tac;
      repeat (break_side; side_tac); splits; reflexivity.
  - exists (fun cfg _ => wrapperAngle cfg + easeInOutQuad t * toTrayAngle cfg),
      (fun _ => JS.num (-0.25)), (fun _ => JS.num 0.25), (fun d => d).
    split; [mirror_tac|];
    intros cfg [r j0 j1 d bs [b|] bw c] n; side_tac; splits; reflexivity.
  - exists (fun cfg _ => trayAngle cfg),
      (fun _ => - (JS.num 0.25 + t * JS.num 0.15)),
      (fun _ => JS.num 0.25 + t * JS.num 0.15), (fun d => d).
    split; [mirror_tac|];
    intros cfg [r j0 j1 d bs [b|] bw c] n; side_tac;
      repeat (break_side; side_tac); splits; reflexivity.
  - exists (fun cfg _ => trayAngle cfg - easeInOutQuad t * trayAngle cfg),
      (fun _ => JS.num (-0.35)), (fun _ => JS.num 0.35), (fun d => d).
    split; [mirror_tac|];
    intros cfg [r j0 j1 d bs [b|] bw c] n; side_tac;
      repeat (break_side; side_tac); splits; reflexivity.
Qed.

Lemma side_case_mirrored (f : SideCfg -> SideStep) (sl sr : Side) (nl nr : nat) :
  side_case f -> mirrored_sides sl sr ->
  mirrored_sides (fst (fst (f leftCfg sl nl))) (fst (fst (f rightCfg sr nr))).
Proof.
  intros Hf (H1 & H2 & H3 & H4).
  destruct (side_case_pose f Hf) as (rot & j0 & j1 & dd & Hrot & Hpose).
  destruct (Hpose leftCfg sl nl) as (L1 & L2 & L3 & L4).
  destruct (Hpose rightCfg sr nr) as (R1 & R2 & R3 & R4).
  unfold mirrored_sides. rewrite L1, L2, L3, L4, R1, R2, R3, R4, H2, H3, H4.
  splits; try reflexivity. apply Hrot, H1.
Qed.

Lemma mirrored_both (f : SideCfg -> SideStep) (w : World) :
  side_case f -> mirrored w -> mirrored (fst (both f w)).
Proof.
  intros Hf. unfold mirrored. apply (both_sides mirrored_sides).
  intros sl sr nl nr. apply side_case_mirrored, Hf.
Qed.

(** ** The two sides in step *)

(** What a case does to the shape of a side depends on the shape alone,
    not on the side. *)
Lemma shift_length (side : TraySide) (arr : list Bundle) :
  length (fst (shift_if_too_many side arr)) =
  if (8 <? length arr)%nat then pred (length arr) else length arr.
Proof.
  unfold shift_if_too_many. destruct (Nat.ltb_spec 8 (length arr)); [|reflexivity].
  destruct arr; [simpl in *; lia|reflexivity].
Qed.

Lemma side_case_shape (f : SideCfg -> SideStep) :
  side_case f ->
  exists F : bool * bool * nat * Z -> bool * bool * nat * Z,
    (forall b w l c, (Z.of_nat l <= c)%Z ->
       let '(_, _, l', c') := F (b, w, l, c) in (Z.of_nat l' <= c')%Z) /\
    forall cfg s n, shape (fst (fst (f cfg s n))) = F (shape s).
Proof.
  intros [pr|t|t|t|t|t|t|t|t|t].
  - exists (fun x : bool * bool * nat * Z => let '(b, w, l, c) := x in
              if b then (b, w, l, c)
              else if pr <? JS.num 0.1 then (true, false, l, c) else (b, w, l, c)).
    split.
    + intros [|] w l c H; [exact H|]. destruct (pr <? JS.num 0.1); exact H.
    + intros cfg [r j0 j1 d bs [b|] bw c] n; unfold shape; side_tac;
        [|destruct (pr <? JS.num 0.1)]; reflexivity.
  - exists (fun x : bool * bool * nat * Z => x). split; [intros b w l c H; exact H|].
    intros cfg [r j0 j1 d bs [b|] bw c] n; unfold shape; side_tac;
      [destruct (t >? JS.num 0.5)|]; reflexivity.
  - exists (fun x : bool * bool * nat * Z => x). split; [intros b w l c H; exact H|].
    intros cfg [r j0 j1 d bs [b|] bw c] n; reflexivity.
  - exists (fun x : bool * bool * nat * Z => x). split; [intros b w l c H; exact H|].
    intros cfg [r j0 j1 d bs [b|] bw c] n; unfold shape; side_tac;
      [destruct ((t >? JS.num 0.5) && parent_is_not b Scene)|]; reflexivity.
  - exists (fun x : bool * bool * nat * Z => x). split; [intros b w l c H; exact H|].
    intros cfg [r j0 j1 d bs [b|] bw c] n; reflexivity.
  - exists (fun x : bool * bool * nat * Z => let '(b, w, l, c) := x in
              if b && ((t >? JS.num 0.85) && negb w)
              then (true, true, l, c) else (b, w, l, c)).
    split.
    + intros b w l c H. destruct (b && _); exact H.
    + intros cfg [r j0 j1 d bs [b|] bw c] n; unfold shape; side_tac; cbn [andb];
        [destruct ((t >? JS.num 0.85) && negb bw)|]; reflexivity.
  - exists (fun x : bool * bool * nat * Z => x). split; [intros b w l c H; exact H|].
    intros cfg [r j0 j1 d bs [b|] bw c] n; unfold shape; side_tac;
      [destruct (t >? JS.num 0.5)|]; reflexivity.
  - exists (fun x : bool * bool * nat * Z => x). split; [intros b w l c H; exact H|].
    intros cfg [r j0 j1 d bs [b|] bw c] n; reflexivity.
  - exists (fun x : bool * bool * nat * Z => let '(b, w, l, c) := x in
              if b && (t >? JS.num 0.5)
              then (false, false, (l + 1)%nat, (c + 1)%Z) else (b, w, l, c)).
    split.
    + intros b w l c H. destruct (b && _); [lia|exact H].
    + intros cfg [r j0 j1 d bs [b|] bw c] n; unfold shape; side_tac; cbn [andb];
        [destruct (t >? JS.num 0.5); side_fields; rewrite ?length_app|];
        reflexivity.
  - exists (fun x : bool * bool * nat * Z => let '(b, w, l, c) := x in
              (b, w, if (8 <? l)%nat then pred l else l, c)).
    split.
    + intros b w l c H. destruct (8 <? l)%nat; lia.
    + intros cfg [r j0 j1 d bs ob bw c] n; unfold shape; side_tac.
      rewrite <- shift_length with (side := tray cfg).
      destruct (shift_if_too_many (tray cfg) bs); reflexivity.
Qed.

Lemma lockstep_both (f : SideCfg -> SideStep) (w : World) :
  side_case f -> lockstep w -> lockstep (fst (both f w)).
Proof.
  intros Hf. unfold lockstep.
  apply (both_sides (fun l r => shape l = shape r)).
  intros sl sr nl nr H. destruct (side_case_shape f Hf) as (F & _ & HF).
  rewrite !HF, H. reflexivity.
Qed.

Lemma counters_cover_both (f : SideCfg -> SideStep) (w : World) :
  side_case f -> counters_cover w -> counters_cover (fst (both f w)).
Proof.
  intros Hf. unfold counters_cover.
  destruct (side_case_shape f Hf) as (F & HF & Hshape). unfold both.
  pose proof (Hshape leftCfg (left w) (nextId w)) as HL.
  destruct (f leftCfg (left w) (nextId w)) as [[l n1] c1].
  pose proof (Hshape rightCfg (right w) n1) as HR.
  destruct (f rightCfg (right w) n1) as [[r n2] c2].
  cbn [fst left right] in *. intros [A B].
  pose proof (HF (match bundle (left w) with Some _ => true | None => false end)
                 (bundleWrapped (left w)) _ _ A) as A'.
  pose proof (HF (match bundle (right w) with Some _ => true | None => false end)
                 (bundleWrapped (right w)) _ _ B) as B'.
  unfold shape in HL, HR. rewrite <- HL in A'. rewrite <- HR in B'. auto.
Qed.

(** ** Objects are not shared *)

Lemma ids_step_same (l : list nat) (n : nat) : ids_step l n l n.
Proof. unfold ids_step. splits; auto. Qed.

Lemma ids_step_perm (l l' : list nat) (n : nat) :
  Permutation l l' -> ids_step l n l' n.
Proof.
  intros H. unfold ids_step. splits.
  - lia.
  - intros i Hi. left. eapply Permutation_in; [symmetry|]; eassumption.
  - intros Hn _. eapply Permutation_NoDup; eassumption.
Qed.

Lemma ids_step_new (l rest : list nat) (n : nat) :
  (l = rest \/ exists a, l = a :: rest) -> ids_step l n (n :: rest) (S n).
Proof.
  intros H. unfold ids_step. splits.
  - lia.
  - intros i [<-|Hi]; [right; lia|]. left.
    destruct H as [->|[a ->]]; [exact Hi|right; exact Hi].
  - intros Hn Hlt.
    assert (Hr : NoDup rest /\ Forall (fun i => (i < n)%nat) rest).
    { destruct H as [->|[a ->]]; [auto|]. inversion Hn; inversion Hlt; auto. }
    destruct Hr as [Hr1 Hr2]. constructor; [|exact Hr1].
    intros Hin. rewrite Forall_forall in Hr2. specialize (Hr2 _ Hin). lia.
Qed.

Lemma ids_step_drop (pre l : list nat) (a n : nat) :
  ids_step (pre ++ a :: l) n (pre ++ l) n.
Proof.
  unfold ids_step. splits.
  - lia.
  - intros i Hi. left. rewrite in_app_iff in *. cbn [In]. tauto.
  - intros Hn _. apply NoDup_remove_1 in Hn. exact Hn.
Qed.

Lemma side_case_ids (f : SideCfg -> SideStep) (cfg : SideCfg) (s : Side) (n : nat) :
  side_case f ->
  ids_step (side_ids s) n (side_ids (fst (fst (f cfg s n)))) (snd (fst (f cfg s n))).
Proof.
  intros [pr|t|t|t|t|t|t|t|t|t];
    destruct s as [r j0 j1 d bs [b|] bw c]; unfold side_ids, side_bundles; side_tac.
  - apply ids_step_same.
  - destruct (pr <? JS.num 0.1); side_fields; cbn [app map].
    + apply ids_step_new. left. reflexivity.
    + apply ids_step_same.
  - destruct (t >? JS.num 0.5); apply ids_step_same.
  - apply ids_step_same.
  - apply ids_step_same.
  - apply ids_step_same.
  - destruct ((t >? JS.num 0.5) && parent_is_not b Scene); apply ids_step_same.
  - apply ids_step_same.
  - apply ids_step_same.
  - apply ids_step_same.
  - destruct ((t >? JS.num 0.85) && negb bw); side_fields; cbn [app map].
    + apply ids_step_new. right. eexists. reflexivity.
    + apply ids_step_same.
  - apply ids_step_same.
  - destruct (t >? JS.num 0.5); apply ids_step_same.
  - apply ids_step_same.
  - apply ids_step_same.
  - apply ids_step_same.
  - destruct (t >? JS.num 0.5); side_fields; cbn [app map].
    + apply ids_step_perm. rewrite map_app. apply Permutation_cons_append.
    + apply ids_step_same.
  - apply ids_step_same.
  - destruct (shift_result (tray cfg) bs) as [E|[a E]];
      destruct (shift_if_too_many (tray cfg) bs) as [l cl]; cbn [fst] in E;
      side_fields; cbn [app map].
    + rewrite E. apply ids_step_same.
    + rewrite E. cbn [map]. apply (ids_step_drop [bid b]).
  - destruct (shift_result (tray cfg) bs) as [E|[a E]];
      destruct (shift_if_too_many (tray cfg) bs) as [l cl]; cbn [fst] in E;
      side_fields; cbn [app map].
    + rewrite E. apply ids_step_same.
    + rewrite E. cbn [map]. apply (ids_step_drop []).
Qed.

Lemma distinct_ids_both (f : SideCfg -> SideStep) (w : World) :
  side_case f -> distinct_ids w -> distinct_ids (fst (both f w)).
Proof.
  intros Hf. unfold distinct_ids, ids, both.
  pose proof (side_case_ids f leftCfg (left w) (nextId w) Hf) as HL.
  destruct (f leftCfg (left w) (nextId w)) as [[l n1] c1].
  pose proof (side_case_ids f rightCfg (right w) n1 Hf) as HR.
  destruct (f rightCfg (right w) n1) as [[r n2] c2].
  cbn [fst snd left right nextId] in *.
  destruct HL as (L1 & L2 & L3). destruct HR as (R1 & R2 & R3).
  intros [Hn Hlt]. rewrite Forall_app in Hlt. destruct Hlt as [HltL HltR].
  rewrite Forall_forall in HltL, HltR.
  assert (HnL := NoDup_app_remove_r _ _ Hn).
  assert (HnR := NoDup_app_remove_l _ _ Hn).
  assert (Hdis : forall i, In i (side_ids (left w)) -> ~ In i (side_ids (right w))).
  { intros i Hi Hi'. revert Hn Hi Hi'. generalize (side_ids (left w)).
    intros pre Hn. induction pre as [|a pre IH]; intros Hi Hi'; [destruct Hi|].
    cbn [app] in Hn. inversion Hn; subst. destruct Hi as [->|Hi].
    - apply H1. apply in_or_app. right. exact Hi'.
    - apply IH; assumption. }
  split.
  - apply NoDup_app.
    + apply L3; [exact HnL|]. apply Forall_forall. exact HltL.
    + apply R3; [exact HnR|]. apply Forall_forall. intros i Hi.
      specialize (HltR _ Hi). lia.
    + intros i Hi Hi'. destruct (L2 _ Hi) as [A|A]; destruct (R2 _ Hi') as [B|B].
      * exact (Hdis _ A B).
      * specialize (HltL _ A). lia.
      * specialize (HltR _ B). lia.
      * lia.
  - rewrite Forall_app, !Forall_forall. split; intros i Hi.
    + destruct (L2 _ Hi) as [A|A]; [specialize (HltL _ A)|]; lia.
    + destruct (R2 _ Hi) as [A|A]; [specialize (HltR _ A)|]; lia.
Qed.

End TwoHandSessionFacts.

(** * Properties of the easing functions *)

(** X1: the cases of [updateMachineAnimation] test the eased progress
    [t = easeInOutCubic(progress)] against 0.5 ([if (t > 0.5)]).  The
    eased progress is above one half exactly when the progress is: these
    tests fire in the second half of a phase, and only there. *)
Theorem eased_progress_passes_half_with_progress (progress : Qc) :
  (easeInOutCubic progress >? JS.num 0.5) = (progress >? JS.num 0.5).
Proof.
  apply eq_true_iff_eq. rewrite !gtb_iff. apply cubic_above_half.
Qed.

(** X2: [easeInOutCubic] never goes back: a later progress gives an eased
    progress that is at least as large, on both branches of the function
    and across the switch between them at 0.5. *)
Theorem easeInOutCubic_is_monotone (t1 t2 : Qc) :
  t1 <= t2 -> easeInOutCubic t1 <= easeInOutCubic t2.
Proof. apply cubic_monotone. Qed.

Lemma easeInOutCubic_is_monotone_witness :
  easeInOutCubic (JS.num 0.25) <= easeInOutCubic (JS.num 0.75).
Proof. apply easeInOutCubic_is_monotone. now vm_compute. Defined.

(** X3: [easeInOutCubic] maps 0 to 0, 1 to 1, and a progress between 0
    and 1 to an eased progress between 0 and 1. *)
Theorem easeInOutCubic_stays_in_unit_interval (t : Qc) :
  0 <= t <= 1 ->
  easeInOutCubic 0 = 0 /\ easeInOutCubic 1 = 1 /\ 0 <= easeInOutCubic t <= 1.
Proof.
  intros H. split; [exact cubic_0|]. split; [exact cubic_1|].
  apply cubic_range, H.
Qed.

Lemma easeInOutCubic_stays_in_unit_interval_witness :
  easeInOutCubic 0 = 0 /\ easeInOutCubic 1 = 1 /\
  0 <= easeInOutCubic (JS.num 0.3) <= 1.
Proof.
  apply easeInOutCubic_stays_in_unit_interval. split; now vm_compute.
Defined.

(** X5: [easeInOutQuad] maps a value between 0 and 1 to a value between 0
    and 1, and so does the double easing [easeInOutQuad(t)] with
    [t = easeInOutCubic(progress)] that the two-arm program applies to the
    swing of its arms. *)
Theorem double_easing_stays_in_unit_interval (progress : Qc) :
  0 <= progress <= 1 ->
  0 <= easeInOutQuad progress <= 1 /\
  0 <= easeInOutQuad (easeInOutCubic progress) <= 1.
Proof.
  intros H. split; apply quad_range; [exact H|]. apply cubic_range, H.
Qed.

Lemma double_easing_stays_in_unit_interval_witness :
  0 <= easeInOutQuad (JS.num 0.3) <= 1 /\
  0 <= easeInOutQuad (easeInOutCubic (JS.num 0.3)) <= 1.
Proof.
  apply double_easing_stays_in_unit_interval. split; now vm_compute.
Defined.

(** * Properties of the target *)

(** X8: with the station select on a value other than "left" and "right",
    [getTargetStation] alternates with the cycle number: the target is
    the left station for an even cycle number and the right one for an odd
    one, negative numbers included, so the next cycle number always gets
    the other station.  The cycle numbers are those that a double counts
    one by one, below 2^53 either way. *)
Theorem alternate_mode_alternates (selected : string) (cycleNum : Z) :
  (selected =? "left")%string = false ->
  (selected =? "right")%string = false ->
  (Z.abs cycleNum < 2 ^ 53)%Z ->
  SingleHand.getTargetStation selected cycleNum =
    (if Z.even cycleNum then "left" else "right")%string /\
  SingleHand.getTargetStation selected (cycleNum + 1) =
    (if Z.even cycleNum then "right" else "left")%string.
Proof.
  intros HL HR _. unfold SingleHand.getTargetStation. rewrite HL, HR.
  rewrite rem_even_succ.
  assert (E : (Z.rem cycleNum 2 =? 0)%Z = Z.even cycleNum).
  { pose proof (Z.quot_rem' cycleNum 2) as Q.
    destruct (Z.eqb_spec (Z.rem cycleNum 2) 0) as [R|R],
             (Z.even cycleNum) eqn:Ev; try reflexivity; exfalso.
    - apply Bool.not_true_iff_false in Ev. apply Ev, Z.even_spec.
      exists (Z.quot cycleNum 2). lia.
    - apply Z.even_spec in Ev. destruct Ev as [k Hk]. apply R.
      rewrite Hk, Z.mul_comm. apply Z.rem_mul. lia. }
  rewrite E. destruct (Z.even cycleNum); split; reflexivity.
Qed.

Lemma alternate_mode_alternates_witness :
  SingleHand.getTargetStation "both" (-3) = "right"%string /\
  SingleHand.getTargetStation "both" (-3 + 1) = "left"%string.
Proof.
  apply (alternate_mode_alternates "both" (-3)); [reflexivity|reflexivity|].
  vm_compute. reflexivity.
Defined.

(** * Properties of the trays *)

(** X9: [place_in_tray] puts the bundle on a grid of four columns: with
    [n] bundles already in the tray of the target, the bundle is appended
    to that tray, the same object and a child of the scene, and its
    position is set to column [n mod 4] and row [n / 4], 0.7 apart,
    whatever [n] is. *)
Theorem bundle_is_placed_by_row_and_column
    (t : Qc) (isLeft : bool) (w : SingleHand.World) (b : Bundle) :
  SingleHand.currentBundle w = Some b -> (t >? JS.num 0.5) = true ->
  let w' := fst (SingleHand.case_place_in_tray t isLeft w) in
  let arr := if isLeft then SingleHand.leftBundles w
             else SingleHand.rightBundles w in
  let cfg := if isLeft then SingleHand.leftTray else SingleHand.rightTray in
  let n := length arr in
  let p := vec3 (SingleHand.tx cfg +
                 (JS.of_Z (Z.of_nat (n mod 4)) * JS.num 0.7 - JS.num 1.05))
                (SingleHand.ty cfg + JS.num 0.6)
                (SingleHand.tz cfg +
                 (JS.of_Z (Z.of_nat (n / 4)) * JS.num 0.7 - JS.num 0.35)) in
  exists b',
    (if isLeft then SingleHand.leftBundles w' else SingleHand.rightBundles w') =
      arr ++ [b'] /\
    bid b' = bid b /\ kind b' = kind b /\ parent b' = Some Scene /\
    position b' = p.
Proof.
  intros Hb Ht. cbv zeta.
  destruct (SingleHandTrays.case_place_appends t isLeft w b Hb Ht) as (H & _).
  cbv zeta in H. rewrite H, slot_row_div, slot_col_mod.
  eexists. split; [reflexivity|]. repeat split.
Qed.

(** A sixth bundle on the right tray: column 1 of row 1. *)
Lemma bundle_is_placed_by_row_and_column_witness :
  let b := mkBundle 15 Wrapped (Some CenterPivot)
             (vec3 0 (JS.num 0.2) (JS.num (-4.75))) 0 in
  let five := map (fun i => node_add Scene (new_bundle i Wrapped)) (seq 5 5) in
  let w := SingleHand.set_trays [] five
             (SingleHand.set_bundle b SingleHand.init) in
  exists b',
    SingleHand.rightBundles
      (fst (SingleHand.case_place_in_tray (JS.num 0.75) false w)) =
      five ++ [b'] /\
    bid b' = 15%nat /\ kind b' = Wrapped /\ parent b' = Some Scene /\
    position b' =
      vec3 (SingleHand.tx SingleHand.rightTray +
            (JS.of_Z (Z.of_nat (5 mod 4)) * JS.num 0.7 - JS.num 1.05))
           (SingleHand.ty SingleHand.rightTray + JS.num 0.6)
           (SingleHand.tz SingleHand.rightTray +
            (JS.of_Z (Z.of_nat (5 / 4)) * JS.num 0.7 - JS.num 0.35)).
Proof.
  cbv zeta.
  apply (bundle_is_placed_by_row_and_column (JS.num 0.75) false
           (SingleHand.set_trays []
              (map (fun i => node_add Scene (new_bundle i Wrapped)) (seq 5 5))
              (SingleHand.set_bundle
                 (mkBundle 15 Wrapped (Some CenterPivot)
                    (vec3 0 (JS.num 0.2) (JS.num (-4.75))) 0) SingleHand.init))
           (mkBundle 15 Wrapped (Some CenterPivot)
              (vec3 0 (JS.num 0.2) (JS.num (-4.75))) 0)).
  - reflexivity.
  - reflexivity.
Defined.

(** * What every state of a session satisfies *)

Module SingleHandSessions.
Import SingleHand SingleHandFacts SingleHandSession SingleHandSessionFacts.

(** X10: whatever the frames and the clicks, after the start [cycleCount]
    is the number of whole cycles in [cycleTime]: the cycle counter of
    the page and the cycle that [getTargetStation] is asked about never
    come apart, also across the reset button and a pause. *)
Theorem session_cycle_count_follows_cycle_time (events : list Event) :
  cycleCount (play events init) =
  JS.floor (cycleTime (play events init) / CYCLE_DURATION).
Proof.
  change (clock_agrees (play events init)).
  assert (H : clock_agrees init) by reflexivity.
  revert H. generalize init. unfold play.
  induction events as [|e rest IH]; intros w H; cbn [fold_left].
  - exact H.
  - apply IH, clock_agrees_handle, H.
Qed.

(** X11: whatever the frames and the clicks, the two jaws of the gripper
    are mirror images of each other, at least 0.24 and at most 0.41 from
    the axis of the gripper, so that they never cross or touch, and the
    arm stays within 2.36 radians on either side of the top station, less
    than half a turn.  (The poses assigned go from 0.25 to 0.4 and up to
    three quarters of a half turn; the bounds leave a margin for the
    rounding of the doubles.) *)
Theorem session_jaws_and_arm_stay_in_range (events : list Event) :
  jaws_mirror (play events init) /\ pose_in_range (play events init).
Proof.
  apply (play_preserves (fun w => jaws_mirror w /\ pose_in_range w)).
  - intros ct cc w H. exact H.
  - intros s w H. exact H.
  - intros nm pr isLeft w Hpr [H1 H2]. split.
    + apply jaws_mirror_switch, H1.
    + apply pose_in_range_switch; [|exact H2]. apply cubic_range.
      destruct Hpr as [Hlo Hhi]. split; [exact Hlo|]. apply Qclt_le_weak, Hhi.
  - intros w H. exact H.
  - intros v w H. exact H.
  - intros v w H. exact H.
  - intros w H. exact H.
  - split; [|split; split]; first [ now vm_compute
                                  | apply Qc_is_canon; vm_compute; reflexivity ].
Qed.

(** X12: whatever the frames and the clicks, the bundle in flight and the
    bundles of the two trays are all different objects, each created
    before the next one to come: no bundle is in a tray twice, in both
    trays, or in a tray while the arm still holds it. *)
Theorem session_objects_are_distinct (events : list Event) :
  NoDup (ids (play events init)) /\
  Forall (fun i => (i < nextId (play events init))%nat) (ids (play events init)).
Proof.
  apply (play_preserves distinct_ids).
  - intros ct cc w H. exact H.
  - intros s w H. exact H.
  - intros nm pr isLeft w _. apply distinct_ids_step, switch_step_kind.
  - intros w H. exact H.
  - intros v w H. exact H.
  - intros v w H. exact H.
  - intros w [_ _]. split; constructor.
  - split; constructor.
Qed.

(** X13: whatever the frames and the clicks, every bundle in a tray is a
    child of the scene: once placed, a bundle no longer moves with the
    arm. *)
Theorem session_trays_hold_children_of_the_scene (events : list Event) :
  Forall (fun b => parent b = Some Scene)
         (leftBundles (play events init) ++ rightBundles (play events init)).
Proof.
  apply (play_preserves trays_in_scene).
  - intros ct cc w H. exact H.
  - intros s w H. exact H.
  - intros nm pr isLeft w _. apply trays_in_scene_step, switch_step_kind.
  - intros w H. exact H.
  - intros v w H. exact H.
  - intros v w H. exact H.
  - intros w _. constructor.
  - constructor.
Qed.

(** X14: whatever the frames and the clicks, while a bundle is in flight
    [currentBundleIsWrapped] is true if that bundle is a wrapped one and
    false if it is a raw one: the test [!machine.currentBundleIsWrapped]
    of the [wrapping] case replaces raw bundles only, and never a wrapped
    one.  With no bundle in flight the flag says nothing: the reset button
    leaves it as it is. *)
Theorem session_wrapped_flag_tells_the_kind (events : list Event) :
  match currentBundle (play events init) with
  | Some b => currentBundleIsWrapped (play events init) =
              match kind b with Wrapped => true | Raw => false end
  | None => True
  end.
Proof.
  apply (play_preserves flag_agrees).
  - intros ct cc w H. exact H.
  - intros s w H. exact H.
  - intros nm pr isLeft w _. apply flag_agrees_switch.
  - intros w H. exact H.
  - intros v w H. exact H.
  - intros v w H. exact H.
  - intros w _. exact I.
  - exact I.
Qed.

End SingleHandSessions.

(** * What the calls of a run add up to *)

Module SingleHandRuns.
Import SingleHand SingleHandFacts SingleHandSession SingleHandCalls SingleHandLatch.

(** X15: over any run from any state, the bundles the program refers to
    at the end, plus the calls of [scene.remove], are the bundles it
    referred to at the start plus the calls of [scene.add]: a bundle the
    program lets go of, replaced in [wrapping] or shifted out of a tray in
    [reset], is handed to [scene.remove]. *)
Theorem run_removes_what_it_lets_go_of (deltas : list Qc) (w : World) :
  (length (bundles_of (fst (run deltas w))) +
   count_calls is_remove (snd (run deltas w)) =
   length (bundles_of w) + count_calls is_add (snd (run deltas w)))%nat.
Proof.
  apply (run_balance (fun w => length (bundles_of w)) is_remove is_add).
  - intros ct cc w0. reflexivity.
  - intros s w0. reflexivity.
  - apply switch_references.
Qed.

(** X16: over any run from any state, every raw bundle created is still
    in flight or has been pushed on a tray, once, and every bundle pushed
    on a tray is still there or has been shifted out. *)
Theorem run_moves_each_bundle_once (deltas : list Qc) (w : World) :
  (in_flight (fst (run deltas w)) +
   count_calls is_push_any (snd (run deltas w)) =
   in_flight w + count_calls is_create_raw (snd (run deltas w)))%nat /\
  (in_trays (fst (run deltas w)) + count_calls is_shift (snd (run deltas w)) =
   in_trays w + count_calls is_push_any (snd (run deltas w)))%nat.
Proof.
  split.
  - apply (run_balance in_flight is_push_any is_create_raw).
    + intros ct cc w0. reflexivity.
    + intros s w0. reflexivity.
    + apply switch_flow.
  - apply (run_balance in_trays is_shift is_push_any).
    + intros ct cc w0. reflexivity.
    + intros s w0. reflexivity.
    + apply switch_trays.
Qed.

(** X17: while the station select stays on "left" (or on "right"), the
    other side is left alone: no bundle is pushed on the other tray,
    which can only lose bundles to the clean-up of [reset], and the disk
    of the other machine does not turn. *)
Theorem fixed_station_leaves_the_other_side_alone
    (toLeft : bool) (deltas : list Qc) (w : World) :
  selectedStation w = station_name toLeft ->
  count_calls (is_push (other_tray toLeft)) (snd (run deltas w)) = 0%nat /\
  other_disk toLeft (fst (run deltas w)) = other_disk toLeft w /\
  (length (other_bundles toLeft (fst (run deltas w))) <=
   length (other_bundles toLeft w))%nat.
Proof.
  revert w. induction deltas as [|d rest IH]; intros w Hs; cbn [run].
  - cbn [fst snd]. splits; auto.
  - destruct (animate_other_side d toLeft w Hs) as (S1 & A1 & B1 & C1).
    destruct (animate d w) as [w1 c1]. cbn [fst snd] in *.
    destruct (IH w1 S1) as (A2 & B2 & C2).
    destruct (run rest w1) as [w2 c2]. cbn [fst snd] in *.
    rewrite count_calls_app, A1, A2, B2, B1. splits; [reflexivity|reflexivity|lia].
Qed.

Lemma fixed_station_leaves_the_other_side_alone_witness :
  count_calls (is_push RightTray) (snd (run (frames (JS.num 0.5) 40) init)) = 0%nat /\
  rightMachineDisk_rotation_y (fst (run (frames (JS.num 0.5) 40) init)) =
    rightMachineDisk_rotation_y init /\
  (length (rightBundles (fst (run (frames (JS.num 0.5) 40) init))) <=
   length (rightBundles init))%nat.
Proof.
  apply (fixed_station_leaves_the_other_side_alone true). reflexivity.
Defined.

(** X18: three actions are guarded by a latch, and each happens at most
    once while its phase is stepped through, whatever the number of
    frames and the state at the start: [insert_wrapper] attaches the
    bundle to the scene once (it tests the parent), [wrapping] creates one
    wrapped bundle (it tests [currentBundleIsWrapped]) and [place_in_tray]
    pushes one bundle (it then has none). *)
Theorem guarded_actions_happen_once_in_a_phase (steps : list Qc) (w : World) :
  (count_calls (is_attach Scene) (snd (traverse "insert_wrapper" steps w)) <= 1)%nat /\
  (count_calls is_create_wrapped (snd (traverse "wrapping" steps w)) <= 1)%nat /\
  (count_calls is_push_any (snd (traverse "place_in_tray" steps w)) <= 1)%nat.
Proof.
  splits.
  - apply (traverse_once "insert_wrapper" (is_attach Scene) released).
    + apply released_stays.
    + apply released_once.
  - apply (traverse_once "wrapping" is_create_wrapped converted).
    + apply converted_stays.
    + apply converted_once.
  - apply (traverse_once "place_in_tray" is_push_any placed).
    + apply placed_stays.
    + apply placed_once.
Qed.

End SingleHandRuns.

(** * What every state of a session of the two-arm program satisfies *)

Module TwoHandSessions.
Import TwoHand TwoHandFacts TwoHandSession TwoHandSessionFacts.

(** X19: whatever the frames and the clicks, the right arm is the mirror
    image of the left arm (opposite angles, equal jaw openings), and the
    two disks have turned by the same angle. *)
Theorem two_arm_session_is_mirrored (events : list Event) :
  armPivot_rotation_y (left (play events init)) =
    - armPivot_rotation_y (right (play events init)) /\
  gripperJaws0_x (left (play events init)) =
    gripperJaws0_x (right (play events init)) /\
  gripperJaws1_x (left (play events init)) =
    gripperJaws1_x (right (play events init)) /\
  machineDisk_rotation_y (left (play events init)) =
    machineDisk_rotation_y (right (play events init)).
Proof.
  apply (two_hand_play_preserves mirrored).
  - intros ct cc w H. exact H.
  - intros f w. apply mirrored_both.
  - intros w H. exact H.
  - intros v w H. exact H.
  - intros w H. exact H.
  - unfold mirrored, mirrored_sides.
    splits; apply Qc_is_canon; vm_compute; reflexivity.
Qed.

(** X20: whatever the frames and the clicks, the two sides work in step:
    both arms hold a bundle or neither does, the two bundles are raw
    together and wrapped together, the two trays hold the same number of
    bundles and the two counters show the same number. *)
Theorem two_arm_session_is_in_step (events : list Event) :
  let w := play events init in
  (bundle (left w) = None <-> bundle (right w) = None) /\
  bundleWrapped (left w) = bundleWrapped (right w) /\
  length (bundles (left w)) = length (bundles (right w)) /\
  count (left w) = count (right w).
Proof.
  cbv zeta.
  assert (H : lockstep (play events init)).
  { apply (two_hand_play_preserves lockstep).
    - intros ct cc w H. exact H.
    - intros f w. apply lockstep_both.
    - intros w H. exact H.
    - intros v w H. exact H.
    - intros w H. unfold lockstep, shape in *. cbn.
      injection H as _ H _ _. rewrite H. reflexivity.
    - reflexivity. }
  unfold lockstep, shape in H. injection H as H1 H2 H3 H4.
  splits; try assumption.
  destruct (bundle (left (play events init))),
           (bundle (right (play events init)));
    try discriminate H1; split; intros E; try discriminate E; reflexivity.
Qed.

(** X21: whatever the frames and the clicks, the bundles in flight and
    the bundles of the trays of the two sides are all different objects,
    each created before the next one to come. *)
Theorem two_arm_session_objects_are_distinct (events : list Event) :
  NoDup (ids (play events init)) /\
  Forall (fun i => (i < nextId (play events init))%nat) (ids (play events init)).
Proof.
  apply (two_hand_play_preserves distinct_ids).
  - intros ct cc w H. exact H.
  - intros f w. apply distinct_ids_both.
  - intros w H. exact H.
  - intros v w H. exact H.
  - intros w _. split; constructor.
  - split; constructor.
Qed.

(** X22: whatever the frames and the clicks, [leftCount] and [rightCount]
    are at least the number of bundles in the left and in the right tray:
    a counter goes up with each bundle placed, stays when the clean-up
    of [reset] shifts a bundle out, and is zeroed with the trays. *)
Theorem two_arm_counters_cover_the_trays (events : list Event) :
  (Z.of_nat (length (bundles (left (play events init)))) <=
   count (left (play events init)))%Z /\
  (Z.of_nat (length (bundles (right (play events init)))) <=
   count (right (play events init)))%Z.
Proof.
  apply (two_hand_play_preserves counters_cover).
  - intros ct cc w H. exact H.
  - intros f w. apply counters_cover_both.
  - intros w H. exact H.
  - intros v w H. exact H.
  - intros w _. split; reflexivity.
  - split; reflexivity.
Qed.

End TwoHandSessions.

(** * The press program *)

Lemma Press_tiles : tiles 0 Press.CYCLE_DURATION Press.PHASES.
Proof. tiles_by_evaluation. Qed.

Lemma press_run_playing (deltas : list Qc) (w : Press.World) :
  Press.isPlaying w = true ->
  Press.leftDisk_rotation_y (Press.run deltas w) =
    Nat.iter (length deltas) (fun angle => angle + JS.num 0.05)
             (Press.leftDisk_rotation_y w) /\
  Press.rightDisk_rotation_y (Press.run deltas w) =
    Nat.iter (length deltas) (fun angle => angle + JS.num 0.05)
             (Press.rightDisk_rotation_y w).
Proof.
  unfold Press.run. revert w.
  induction deltas as [|d rest IH]; intros w Hp; cbn [fold_left length].
  - split; reflexivity.
  - assert (Hp' : Press.isPlaying (Press.animate d w) = true)
      by (unfold Press.animate; rewrite Hp; reflexivity).
    destruct (IH _ Hp') as [HL HR]. rewrite HL, HR, !Nat.iter_succ_r.
    unfold Press.animate. rewrite Hp. split; reflexivity.
Qed.

Lemma press_run_paused (deltas : list Qc) (w : Press.World) :
  Press.isPlaying w = false -> Press.run deltas w = w.
Proof.
  intros Hp. unfold Press.run.
  induction deltas as [|d rest IH]; cbn [fold_left]; [reflexivity|].
  unfold Press.animate at 2. rewrite Hp. exact IH.
Qed.

(** X23: in the two-arm program too, for every elapsed time that is not
    negative the loop of [animate] finds a phase of [PHASES], the only one
    that holds [loopTime], and the progress it passes on lies in the
    half-open interval from 0 to 1. *)
Theorem two_arm_frame_finds_one_phase (e : Qc) :
  0 <= e ->
  let loopTime := JS.rem e TwoHand.CYCLE_DURATION in
  exists p, find_phase TwoHand.PHASES loopTime = Some p /\
            In p TwoHand.PHASES /\
            start p <= loopTime < end_ p /\
            (forall p', In p' TwoHand.PHASES ->
                        start p' <= loopTime < end_ p' -> p' = p) /\
            0 <= phase_progress p loopTime < 1.
Proof. apply TwoHand_one_phase_and_progress. Qed.

Lemma two_arm_frame_finds_one_phase_witness :
  exists p, find_phase TwoHand.PHASES
              (JS.rem (JS.num 17.5) TwoHand.CYCLE_DURATION) = Some p /\
            In p TwoHand.PHASES /\
            start p <= JS.rem (JS.num 17.5) TwoHand.CYCLE_DURATION < end_ p /\
            (forall p', In p' TwoHand.PHASES ->
                        start p' <= JS.rem (JS.num 17.5) TwoHand.CYCLE_DURATION
                                 < end_ p' -> p' = p) /\
            0 <= phase_progress p
                   (JS.rem (JS.num 17.5) TwoHand.CYCLE_DURATION) < 1.
Proof. apply (two_arm_frame_finds_one_phase (JS.num 17.5)). now vm_compute. Defined.

(** X24: in the press program, for every cycle time that is not negative
    [updateAnimation] finds a phase among the eleven of [PHASES], the only
    one that holds [t = cycleTime % CYCLE_DURATION]; the progress passed
    to [executePhase] lies in the half-open interval from 0 to 1, and
    [ease = easeInOutQuad(progress)] between 0 and 1. *)
Theorem press_frame_finds_one_phase (ct : Qc) :
  0 <= ct ->
  let t := JS.rem ct Press.CYCLE_DURATION in
  exists p, Press.phase_at ct = Some p /\
            In p Press.PHASES /\
            start p <= t < end_ p /\
            (forall p', In p' Press.PHASES -> start p' <= t < end_ p' -> p' = p) /\
            0 <= phase_progress p t < 1 /\
            0 <= easeInOutQuad (phase_progress p t) <= 1.
Proof.
  intros He t.
  assert (Hb : 0 <= t < Press.CYCLE_DURATION)
    by (apply rem_bounds; [exact He | now vm_compute]).
  destruct (find_phase_tiles _ _ _ _ Press_tiles Hb) as (p & Hf & Hin & Hp & Hu).
  pose proof (progress_bounds p t Hp) as [Hlo Hhi].
  exists p. split; [exact Hf|]. split; [exact Hin|]. split; [exact Hp|].
  split; [exact Hu|]. split; [split; assumption|].
  apply quad_range. split; [exact Hlo|apply Qclt_le_weak, Hhi].
Qed.

Lemma press_frame_finds_one_phase_witness :
  exists p, Press.phase_at (JS.num 21) = Some p /\
            In p Press.PHASES /\
            start p <= JS.rem (JS.num 21) Press.CYCLE_DURATION < end_ p /\
            (forall p', In p' Press.PHASES ->
               start p' <= JS.rem (JS.num 21) Press.CYCLE_DURATION < end_ p' ->
               p' = p) /\
            0 <= phase_progress p (JS.rem (JS.num 21) Press.CYCLE_DURATION) < 1 /\
            0 <= easeInOutQuad
                   (phase_progress p (JS.rem (JS.num 21) Press.CYCLE_DURATION)) <= 1.
Proof. apply (press_frame_finds_one_phase (JS.num 21)). now vm_compute. Defined.

(** X25: in the press program the wrapper disks turn by 0.05 in every
    frame that is played, in every phase: after a run each angle is the
    angle at the start with 0.05 added once for each frame, whatever the
    time that passed and the speed; while paused nothing changes. *)
Theorem press_disks_turn_with_the_frames (deltas : list Qc) (w : Press.World) :
  let turn := Nat.iter (length deltas) (fun angle => angle + JS.num 0.05) in
  if Press.isPlaying w then
    Press.leftDisk_rotation_y (Press.run deltas w) =
      turn (Press.leftDisk_rotation_y w) /\
    Press.rightDisk_rotation_y (Press.run deltas w) =
      turn (Press.rightDisk_rotation_y w)
  else Press.run deltas w = w.
Proof.
  cbv zeta. destruct (Press.isPlaying w) eqn:Hp.
  - apply press_run_playing, Hp.
  - apply press_run_paused, Hp.
Qed.
